(** * Ashby-plots: the unit-cell scatter-matrix script and the plot utilities

    A shallow embedding of [unit_cell_data/plot_data.py] and
    [src/plot_utilities.py].

    - Numbers are IEEE-754 binary64 values, as numpy and pandas compute
      them: [spec_float] with precision 53 and maximal exponent 1024,
      rounding to nearest even.
    - A pandas frame is a row count and an ordered list of named columns;
      frames live in a heap of objects, so that in-place updates and copies
      are told apart.
    - Python exceptions are values of [exn]; a computation that can raise
      returns a [result]; a computation that also mutates objects or calls
      the plotting back end runs in the state-and-exception monad [Py]. *)

From Stdlib Require Import ZArith QArith Qpower Lia Lqa Ascii.
From Stdlib Require Import Floats.SpecFloat.
From stdpp Require Import gmap strings list sorting.

Open Scope string_scope.
Open Scope list_scope.

(** ** Binary64 arithmetic *)

Module F64.
Definition prec : Z := 53.
Definition emax : Z := 1024.

Definition t : Type := spec_float.

Definition add : t → t → t := SFadd prec emax.
Definition sub : t → t → t := SFsub prec emax.
Definition mul : t → t → t := SFmul prec emax.
Definition div : t → t → t := SFdiv prec emax.
Definition ltb : t → t → bool := SFltb.
Definition leb : t → t → bool := SFleb.
Definition eqb : t → t → bool := SFeqb.

Definition nan : t := S754_nan.

(** Conversion of a Python [int]; exact below [2^53]. *)
Definition of_Z (z : Z) : t := binary_normalize prec emax z 0 false.

(** The decimal literal [m E e].  For the literals of the two scripts
    ([|m| < 2^53], [-22 ≤ e]) the quotient of the two exactly represented
    integers, rounded once, is the correctly rounded value that Python's
    parser produces. *)
Definition lit (m e : Z) : t :=
  if (0 <=? e)%Z then of_Z (m * 10 ^ e)
  else div (of_Z m) (of_Z (10 ^ (- e))).

Definition is_nan (x : t) : bool :=
  match x with S754_nan => true | _ => false end.
Definition is_inf (x : t) : bool :=
  match x with S754_infinity _ => true | _ => false end.
Definition is_zero (x : t) : bool :=
  match x with S754_zero _ => true | _ => false end.
Definition is_finite (x : t) : bool :=
  match x with S754_zero _ | S754_finite _ _ _ => true | _ => false end.

End F64.

Abbreviation float64 := F64.t.

#[global] Instance float64_eq_dec : EqDecision float64.
Proof. unfold F64.t. solve_decision. Defined.

(** ** Cells, exceptions and the two monads *)

Inductive cell :=
  | Num (x : float64)
  | Str (s : string).

#[global] Instance cell_eq_dec : EqDecision cell.
Proof. solve_decision. Defined.

Inductive exn :=
  | KeyError (key : cell)
  | NameError (name : string)
  | TypeError
  | ValueError
  | IndexError
  | ReferenceError
  | OSError (path : string)
  | AttributeError (name : string)
  | ModuleNotFoundError (name : string).

#[global] Instance exn_eq_dec : EqDecision exn.
Proof. solve_decision. Defined.

Inductive result (X : Type) :=
  | Ok (x : X)
  | Raise (e : exn).
Arguments Ok {X} x.
Arguments Raise {X} e.

#[global] Instance result_ret : MRet result := λ X x, Ok x.
#[global] Instance result_bind : MBind result := λ X Y f m,
  match m with Ok x => f x | Raise e => Raise e end.

(** A statement sequence over a mutable state [S]: what was mutated before
    an exception stays mutated. *)
Definition Py (S X : Type) : Type := S → S * result X.

#[global] Instance Py_ret {S} : MRet (Py S) := λ X x s, (s, Ok x).
#[global] Instance Py_bind {S} : MBind (Py S) := λ X Y f m s,
  match m s with
  | (s', Ok x) => f x s'
  | (s', Raise e) => (s', Raise e)
  end.

Definition lift {S X} (r : result X) : Py S X := λ s, (s, r).
Definition py_raise {S X} (e : exn) : Py S X := λ s, (s, Raise e).

(** ** Series and frames *)

Abbreviation Series := (list cell).

Record DataFrame := mkDF {
  df_len : nat;
  df_cols : list (string * Series)
}.

#[global] Instance DataFrame_eq_dec : EqDecision DataFrame.
Proof. solve_decision. Defined.

Definition columns (df : DataFrame) : list string := (df_cols df).*1.

(** Column labels are distinct and every column is as long as the index. *)
Definition df_wf (df : DataFrame) : Prop :=
  NoDup (columns df) ∧ Forall (λ c, length c.2 = df_len df) (df_cols df).

Fixpoint col_lookup (c : string) (l : list (string * Series)) : option Series :=
  match l with
  | [] => None
  | (c', s) :: l' => if decide (c' = c) then Some s else col_lookup c l'
  end.

#[global] Instance df_wf_dec df : Decision (df_wf df).
Proof. unfold df_wf. apply _. Defined.

(** [df[c]] read at row [i]. *)
Definition cell_at (df : DataFrame) (c : string) (i : nat) : option cell :=
  col_lookup c (df_cols df) ≫= (.!! i).

(** [df[c]] *)
Definition getitem (df : DataFrame) (c : string) : result Series :=
  match col_lookup c (df_cols df) with
  | Some s => Ok s
  | None => Raise (KeyError (Str c))
  end.

Fixpoint col_assign (c : string) (s : Series) (l : list (string * Series))
  : list (string * Series) :=
  match l with
  | [] => [(c, s)]
  | (c', s') :: l' =>
      if decide (c' = c) then (c', s) :: l' else (c', s') :: col_assign c s l'
  end.

(** [df[c] = s]: replaces the column, or appends it when the label is new. *)
Definition setitem (df : DataFrame) (c : string) (s : Series) : result DataFrame :=
  if decide (length s = df_len df)
  then Ok (mkDF (df_len df) (col_assign c s (df_cols df)))
  else Raise ValueError.

Fixpoint mapper_lookup (c : string) (m : list (string * string)) : option string :=
  match m with
  | [] => None
  | (k, v) :: m' => if decide (k = c) then Some v else mapper_lookup c m'
  end.

Definition rename_label (m : list (string * string)) (c : string) : string :=
  default c (mapper_lookup c m).

(** [df.rename(columns=m)]: every label is looked up once in the mapper. *)
Definition rename (m : list (string * string)) (df : DataFrame) : DataFrame :=
  mkDF (df_len df) (prod_map (rename_label m) id <$> df_cols df).

Definition nan_series (n : nat) : Series := replicate n (Num F64.nan).

Definition column_or_nan (df : DataFrame) (c : string) : Series :=
  default (nan_series (df_len df)) (col_lookup c (df_cols df)).

Definition union_labels (l1 l2 : list string) : list string :=
  l1 ++ filter (λ c, c ∉ l1) l2.

(** [pd.concat([df1, df2], ignore_index=True, axis=0)]: the labels of the
    first frame, then the new ones of the second; columns are matched by
    label, a missing one is filled with NaN. *)
Definition concat (df1 df2 : DataFrame) : DataFrame :=
  mkDF (df_len df1 + df_len df2)
       ((λ c, (c, column_or_nan df1 c ++ column_or_nan df2 c))
          <$> union_labels (columns df1) (columns df2)).

(** Element-wise arithmetic; text in a numeric operation is a [TypeError]. *)
Definition cell_arith (f : float64 → float64 → float64) (a b : cell) : result cell :=
  match a, b with
  | Num x, Num y => Ok (Num (f x y))
  | _, _ => Raise TypeError
  end.

Fixpoint series_arith (f : float64 → float64 → float64) (s1 s2 : Series)
  : result Series :=
  match s1, s2 with
  | a :: s1', b :: s2' =>
      c ← cell_arith f a b; r ← series_arith f s1' s2'; mret (c :: r)
  | _, _ => Ok []
  end.

Fixpoint series_scalar (f : float64 → float64 → float64) (s : Series) (k : float64)
  : result Series :=
  match s with
  | [] => Ok []
  | a :: s' => c ← cell_arith f a (Num k); r ← series_scalar f s' k; mret (c :: r)
  end.

(** [s < k] *)
Fixpoint series_lt (s : Series) (k : float64) : result (list bool) :=
  match s with
  | [] => Ok []
  | Num x :: s' => r ← series_lt s' k; mret (F64.ltb x k :: r)
  | Str _ :: _ => Raise TypeError
  end.

(** [s > k] *)
Fixpoint series_gt (s : Series) (k : float64) : result (list bool) :=
  match s with
  | [] => Ok []
  | Num x :: s' => r ← series_gt s' k; mret (F64.ltb k x :: r)
  | Str _ :: _ => Raise TypeError
  end.

(** [s == text] *)
Definition series_eq_str (s : Series) (k : string) : list bool :=
  (λ a, match a with Str t => bool_decide (t = k) | Num _ => false end) <$> s.

Fixpoint mask_filter {X} (mask : list bool) (l : list X) : list X :=
  match mask, l with
  | b :: mask', x :: l' => if b then x :: mask_filter mask' l' else mask_filter mask' l'
  | _, _ => []
  end.

Definition count_true (mask : list bool) : nat := length (filter (λ b, b = true) mask).

(** [df[mask]] *)
Definition bool_index (df : DataFrame) (mask : list bool) : DataFrame :=
  mkDF (count_true (take (df_len df) mask))
       (prod_map id (mask_filter mask) <$> df_cols df).

Fixpoint mask_assign (mask : list bool) (v : cell) (s : Series) : Series :=
  match mask, s with
  | b :: mask', a :: s' => (if b then v else a) :: mask_assign mask' v s'
  | _, _ => s
  end.

(** [df.loc[mask, c] = v]; a new label is added, NaN where the mask is
    false. *)
Definition loc_assign (df : DataFrame) (mask : list bool) (c : string) (v : cell)
  : DataFrame :=
  mkDF (df_len df)
       (col_assign c (mask_assign mask v (column_or_nan df c)) (df_cols df)).

Definition first_missing (names : list string) (df : DataFrame) : option string :=
  head (filter (λ c, c ∉ columns df) names).

(** [df.drop(names, axis=1)] *)
Definition drop (df : DataFrame) (names : list string) : result DataFrame :=
  match first_missing names df with
  | Some c => Raise (KeyError (Str c))
  | None => Ok (mkDF (df_len df) (filter (λ c, c.1 ∉ names) (df_cols df)))
  end.

(** [df[[c1, ..., cn]]] *)
Definition select (df : DataFrame) (names : list string) : result DataFrame :=
  match first_missing names df with
  | Some c => Raise (KeyError (Str c))
  | None => Ok (mkDF (df_len df) ((λ c, (c, column_or_nan df c)) <$> names))
  end.

(** ** Frames as objects *)

Abbreviation loc := nat.
Abbreviation heap := (gmap nat DataFrame).

Definition new_frame (df : DataFrame) : Py heap loc := λ h,
  let l := fresh (dom h) in (<[l := df]> h, Ok l).

Definition frame_of (l : loc) : Py heap DataFrame := λ h,
  (h, match h !! l with Some df => Ok df | None => Raise ReferenceError end).

Definition write_frame (l : loc) (df : DataFrame) : Py heap unit := λ h,
  (<[l := df]> h, Ok ()).

(** [df.copy()] *)
Definition df_copy (l : loc) : Py heap loc :=
  df ← frame_of l; new_frame df.

(** [df.rename(columns=m, inplace=True)] *)
Definition df_rename_inplace (l : loc) (m : list (string * string)) : Py heap unit :=
  df ← frame_of l; write_frame l (rename m df).

Definition df_getitem (l : loc) (c : string) : Py heap Series :=
  df ← frame_of l; lift (getitem df c).

Definition df_setitem (l : loc) (c : string) (s : Series) : Py heap unit :=
  df ← frame_of l; df' ← lift (setitem df c s); write_frame l df'.

Definition df_loc_assign (l : loc) (mask : list bool) (c : string) (v : cell)
  : Py heap unit :=
  df ← frame_of l; write_frame l (loc_assign df mask c v).

Definition pd_concat (l1 l2 : loc) : Py heap loc :=
  d1 ← frame_of l1; d2 ← frame_of l2; new_frame (concat d1 d2).

Definition df_bool_index (l : loc) (mask : list bool) : Py heap loc :=
  df ← frame_of l; new_frame (bool_index df mask).

Definition df_drop (l : loc) (names : list string) : Py heap loc :=
  df ← frame_of l; df' ← lift (drop df names); new_frame df'.

Definition df_select (l : loc) (names : list string) : Py heap loc :=
  df ← frame_of l; df' ← lift (select df names); new_frame df'.

(** ** [plot_data.py]: the transform stage *)

(** [orthonormal_rotation(data_frame)], lines 50-75. *)
Definition orthonormal_rotation (data_frame : loc) : Py heap loc :=
  rotated_data_frame ← df_copy data_frame;
  df_rename_inplace rotated_data_frame [("E1", "E2"); ("E2", "E1")];;
  nu12 ← df_getitem rotated_data_frame "Nu12";
  e1 ← df_getitem rotated_data_frame "E1";
  prod ← lift (series_arith F64.mul nu12 e1);
  e2 ← df_getitem rotated_data_frame "E2";
  quot ← lift (series_arith F64.div prod e2);
  df_setitem rotated_data_frame "Nu12" quot;;
  data_frame ← pd_concat data_frame rotated_data_frame;
  mret data_frame.

Record material_properties := mkMaterial {
  mat_E : float64;
  mat_rho : float64;
  mat_nu : float64;
  mat_G : float64;
  mat_name : option string
}.

(** [G = E / (2 * (1 + nu))], the loop at lines 122-123. *)
Definition shear_modulus (E nu : float64) : float64 :=
  F64.div E (F64.mul (F64.of_Z 2) (F64.add (F64.of_Z 1) nu)).

(** [create_baseline_materials()], lines 78-124. *)
Definition create_baseline_materials
  : material_properties * material_properties * material_properties
    * material_properties :=
  let with_G E rho nu name := mkMaterial E rho nu (shear_modulus E nu) name in
  let stiff := with_G (F64.lit 2009 0) (F64.lit 1300 (-6)) (F64.lit 3 (-1)) None in
  let compliant_dense :=
    with_G (F64.lit 107 (-2)) (F64.lit 970 (-6)) (F64.lit 49 (-2))
           (Some "dense elastomer") in
  let compliant_foam :=
    with_G (F64.lit 124 (-3)) (F64.lit 400 (-6)) (F64.lit 45 (-2))
           (Some "foamed elastomer") in
  let null_material :=
    mkMaterial (F64.of_Z 0) (F64.of_Z 0) (F64.of_Z 0) (F64.of_Z 0) (Some "none") in
  (stiff, compliant_dense, compliant_foam, null_material).

Definition stiff : material_properties := create_baseline_materials.1.1.1.
Definition compliant_dense : material_properties := create_baseline_materials.1.1.2.
Definition compliant_foam : material_properties := create_baseline_materials.1.2.
Definition null_material : material_properties := create_baseline_materials.2.

(** The expression of lines 196-197 on one row, over any arithmetic:
    [(sv * rho_s + (tv - sv) * rho_c) / tv]. *)
Definition density_formula {A} (add sub mul div : A → A → A)
    (rho_stiff rho_compliant sv tv : A) : A :=
  div (add (mul sv rho_stiff) (mul (sub tv sv) rho_compliant)) tv.

(** Lines 196-197, column by column as pandas evaluates them. *)
Definition density_statement (data_to_plot : loc) : Py heap unit :=
  sv ← df_getitem data_to_plot "Stiff volume";
  a ← lift (series_scalar F64.mul sv (mat_rho stiff));
  tv ← df_getitem data_to_plot "Total volume";
  sv' ← df_getitem data_to_plot "Stiff volume";
  d ← lift (series_arith F64.sub tv sv');
  b ← lift (series_scalar F64.mul d (mat_rho compliant_dense));
  num ← lift (series_arith F64.add a b);
  tv' ← df_getitem data_to_plot "Total volume";
  q ← lift (series_arith F64.div num tv');
  df_setitem data_to_plot "Density" q.

(** Line 207: the manufacturing constraint. *)
Definition manufacturing_constraint (plotting_data_frame : loc) : Py heap unit :=
  th ← df_getitem plotting_data_frame "Strut thickness [mm]";
  mask ← lift (series_lt th (F64.lit 5 (-1)));
  df_loc_assign plotting_data_frame mask "Unit Cell" (Str "Violated").

(** ** Loops *)

Fixpoint for_each {S X} (l : list X) (body : X → Py S unit) : Py S unit :=
  match l with
  | [] => mret ()
  | x :: l' => body x;; for_each l' body
  end.

(** ** The [raise] statement *)

#[warnings="-register-all"]
Inductive pyobj :=
  | PyExcClass (e : exn)
  | PyExcInstance (e : exn)
  | PyStr (s : string)
  | PyTuple (items : list pyobj).

(** [raise o]: an exception class is instantiated, an instance is raised as
    it is, and anything else, a tuple included, is a [TypeError]
    ("exceptions must derive from BaseException"). *)
Definition raise_stmt (o : pyobj) : exn :=
  match o with
  | PyExcClass e | PyExcInstance e => e
  | PyStr _ | PyTuple _ => TypeError
  end.

(** ** [plot_utilities.py] *)

(** Calls into the plotting back end, in the order they are made.  The
    [category] of a call is the group of the frame being drawn when it is
    made. *)
Inductive plot_call :=
  | DrawEllipses (category : cell) (x y : list float64)
      (facecolor : string * float64) (edgecolor : string)
  | AxScatter (category : cell) (xs ys : list float64) (c : string)
  | DrawHull (category : cell) (X : list (float64 * float64)) (color : string)
  | AxPlot (xs ys : list float64) (fmt : string)
  | Annotate (text : string) (xy p pa : float64 * float64).

Definition call (c : plot_call) : Py (list plot_call) unit := λ t, (t ++ [c], Ok ()).

Definition is_missing (a : cell) : bool :=
  match a with Num x => F64.is_nan x | Str _ => false end.

Definition f64_le (x y : float64) : Prop := F64.leb x y = true.

#[global] Instance f64_le_dec : RelDecision f64_le.
Proof. intros x y. unfold f64_le. apply _. Defined.

(** The order of group keys: numbers before text, each kind in its own
    order. *)
Definition cell_le (a b : cell) : Prop :=
  match a, b with
  | Num x, Num y => f64_le x y
  | Num _, Str _ => True
  | Str _, Num _ => False
  | Str s, Str t => String.le s t
  end.

#[global] Instance cell_le_dec : RelDecision cell_le.
Proof. intros [x|s] [y|t]; simpl; apply _. Defined.

Definition group_keys (s : Series) : list cell :=
  merge_sort cell_le (remove_dups (filter (λ a, is_missing a = false) s)).

(** [df.groupby(c)]: one sub-frame per key, keys in order, rows with a
    missing key left out. *)
Definition groupby (df : DataFrame) (c : string) : result (list (cell * DataFrame)) :=
  s ← getitem df c;
  mret ((λ k, (k, bool_index df ((λ a, bool_decide (a = k)) <$> s))) <$> group_keys s).

(** Storing a column into a float array. *)
Fixpoint to_floats (s : Series) : result (list float64) :=
  match s with
  | [] => Ok []
  | Num x :: s' => r ← to_floats s'; mret (x :: r)
  | Str _ :: _ => Raise ValueError
  end.

(** [material_colors[category]] *)
Definition color_of (material_colors : gmap string string) (category : cell)
  : result string :=
  match category with
  | Str s =>
      match material_colors !! s with
      | Some c => Ok c
      | None => Raise (KeyError category)
      end
  | Num _ => Raise (KeyError category)
  end.

Definition float_column (df : DataFrame) (c : string) : result (list float64) :=
  s ← getitem df c; to_floats s.

(** [s.iloc[i]] *)
Definition iloc {X} (l : list X) (i : nat) : result X :=
  match l !! i with Some x => Ok x | None => Raise IndexError end.

(** One pass of the loop of [draw_plot], lines 113-162. *)
Definition draw_group (x_axis_quantity y_axis_quantity : string)
    (material_colors : gmap string string) (data_type : string)
    (category : cell) (material_data : DataFrame) : Py (list plot_call) unit :=
  X ← (if decide (data_type = "ranges") then
         y_low ← lift (float_column material_data (y_axis_quantity +:+ " low"));
         x_low ← lift (float_column material_data (x_axis_quantity +:+ " low"));
         y_high ← lift (float_column material_data (y_axis_quantity +:+ " high"));
         x_high ← lift (float_column material_data (x_axis_quantity +:+ " high"));
         for_each (seq 0 (df_len material_data)) (λ i,
           xl ← lift (iloc x_low i); xh ← lift (iloc x_high i);
           yl ← lift (iloc y_low i); yh ← lift (iloc y_high i);
           face ← lift (color_of material_colors category);
           edge ← lift (color_of material_colors category);
           call (DrawEllipses category [xl; xh] [yl; yh]
                              (face, F64.lit 25 (-2)) edge));;
         mret (zip x_low y_low ++ zip x_high y_high)
       else if decide (data_type = "values") then
         xs ← lift (float_column material_data x_axis_quantity);
         ys ← lift (float_column material_data y_axis_quantity);
         c ← lift (color_of material_colors category);
         call (AxScatter category xs ys c);;
         mret (zip xs ys)
       else
         py_raise (raise_stmt (PyTuple
           [PyExcClass ValueError;
            PyStr "Only options for data_type in draw_plot are ranges or values"])));
  color ← lift (color_of material_colors category);
  call (DrawHull category X color).

(** [draw_plot], lines 75-162. *)
Definition draw_plot (data : DataFrame) (x_axis_quantity y_axis_quantity : string)
    (material_colors : gmap string string) (data_type : string)
  : Py (list plot_call) unit :=
  groups ← lift (groupby data "Category");
  for_each groups (λ g,
    draw_group x_axis_quantity y_axis_quantity material_colors data_type g.1 g.2).

(** ** Counting the calls of [draw_plot] *)

Definition is_ellipse_of (k : cell) (c : plot_call) : bool :=
  match c with DrawEllipses k' _ _ _ _ => bool_decide (k' = k) | _ => false end.

Definition is_hull_of (k : cell) (c : plot_call) : bool :=
  match c with DrawHull k' _ _ => bool_decide (k' = k) | _ => false end.

Definition is_scatter (c : plot_call) : bool :=
  match c with AxScatter _ _ _ _ => true | _ => false end.

Definition count_calls (f : plot_call → bool) (t : list plot_call) : nat :=
  length (filter (λ c, f c = true) t).

(** The rows of a column that hold [k]. *)
Definition rows_with (k : cell) (s : Series) : nat :=
  count_true ((λ a, bool_decide (a = k)) <$> s).

(** [k] is the key of one of the groups of a column. *)
Definition is_group_key (k : cell) (s : Series) : Prop :=
  k ∈ s ∧ is_missing k = false.

#[global] Instance is_group_key_dec k s : Decision (is_group_key k s).
Proof. unfold is_group_key. apply _. Defined.

(** [common_definitions()], lines 285-326: the units and the colours. *)
Definition common_definitions : gmap string string * gmap string string :=
  let units : gmap string string :=
    list_to_map
      [("Density", "kg/m$^3$");
       ("Tensile Strength", "MPa");
       ("Young Modulus", "GPa");
       ("Fracture Toughness", "MPa$\sqrt{\text{m}}$");
       ("Thermal Conductivity", "W/m$\cdot$K");
       ("Thermal expansion", "1$^-6$/m");
       ("Resistivity", "$\Omega \cdot$m");
       ("Poisson", "-");
       ("Poisson difference", "-")] in
  let material_colors : gmap string string :=
    list_to_map
      [("Foams", "blue");
       ("Elastomers", "orange");
       ("Natural materials", "green");
       ("Polymers", "red");
       ("Nontechnical ceramics", "purple");
       ("Composites", "Brown");
       ("Technical ceramics", "pink");
       ("Metals", "grey")] in
  (units, material_colors).

(** [numpy.linspace(start, stop, num)] with its defaults. *)
Definition linspace (start stop : float64) (num : nat) : list float64 :=
  let div := F64.of_Z (Z.of_nat (num - 1)) in
  let delta := F64.sub stop start in
  let y := (λ i, F64.of_Z (Z.of_nat i)) <$> seq 0 num in
  let y :=
    if decide (1 < num) then
      let step := F64.div delta div in
      if F64.eqb step (F64.of_Z 0)
      then (λ v, F64.mul (F64.div v div) delta) <$> y
      else (λ v, F64.mul v step) <$> y
    else (λ v, F64.mul v delta) <$> y in
  let y := (λ v, F64.add v start) <$> y in
  if decide (1 < num) then <[num - 1 := stop]> y else y.

Record guideline := mkGuideline {
  g_power : float64;
  g_x_lim : list float64;
  g_y_intercept : float64;
  g_string : string;
  g_string_position : float64 * float64
}.

Section guideline.
(** The [**] of two floats is the C library's [pow]. *)
Variable pow : float64 → float64 → float64.

(** The body of the loop at lines 257-261. *)
Definition guideline_y (log_flag : bool) (power y_intercept x : float64) : float64 :=
  if log_flag then F64.mul y_intercept (pow x power)
  else F64.add (F64.mul power x) y_intercept.

(** [draw_guideline], lines 211-282. *)
Definition draw_guideline (g : guideline) (log_flag : bool) : Py (list plot_call) unit :=
  let power := g_power g in
  let x_lim := g_x_lim g in
  let y_intercept := g_y_intercept g in
  let string := g_string g in
  let string_position := g_string_position g in
  let num_points := 5 in
  x_lo ← lift (iloc x_lim 0);
  x_hi ← lift (iloc x_lim 1);
  let x_values := linspace x_lo x_hi num_points in
  let y_values := replicate num_points (F64.of_Z 0) in
  let y_values :=
    foldl (λ y i, match x_values !! i with
                  | Some x => <[i := guideline_y log_flag power y_intercept x]> y
                  | None => y
                  end)
          y_values (seq 0 (length x_values)) in
  call (AxPlot x_values y_values "k--");;
  x3 ← lift (iloc x_values 3); y3 ← lift (iloc y_values 3);
  x0 ← lift (iloc x_values 0); y0 ← lift (iloc y_values 0);
  call (Annotate string string_position (x3, y3) (x0, y0)).
End guideline.

(** [str.lower()] on ASCII letters; other bytes are kept. *)
Definition ascii_lower (c : ascii) : ascii :=
  let n := nat_of_ascii c in
  if decide (65 ≤ n ≤ 90)%nat then ascii_of_nat (n + 32) else c.

Fixpoint str_lower (s : string) : string :=
  match s with
  | EmptyString => EmptyString
  | String c s' => String (ascii_lower c) (str_lower s')
  end.

Record presets := mkPresets {
  rc_params : gmap string string;
  line_magics : list (string * string)
}.

Definition rc (key value : string) : Py presets unit := λ p,
  (mkPresets (<[key := value]> (rc_params p)) (line_magics p), Ok ()).

(** What [from IPython import get_ipython] and the call [get_ipython()]
    find: no such package; the package but no running shell, so that the
    call returns [None]; or the running shell, with what each of its line
    magics answers. *)
Inductive ipython :=
  | NotInstalled
  | NoShell
  | Shell (magic : string → string → result unit).

(** [from IPython import get_ipython] followed by [get_ipython()]: the
    shell, or [None]. *)
Definition get_ipython (ip : ipython)
  : result (option (string → string → result unit)) :=
  match ip with
  | NotInstalled => Raise (ModuleNotFoundError "IPython")
  | NoShell => Ok None
  | Shell magic => Ok (Some magic)
  end.

(** [shell.run_line_magic(name, arg)]; [None] has no such attribute. *)
Definition run_line_magic (shell : option (string → string → result unit))
    (name arg : string) : Py presets unit := λ p,
  match shell with
  | None => (p, Raise (AttributeError "run_line_magic"))
  | Some magic =>
      match magic name arg with
      | Ok _ => (mkPresets (rc_params p) (line_magics p ++ [(name, arg)]), Ok ())
      | Raise e => (p, Raise e)
      end
  end.

(** [plotting_presets] of [plot_utilities.py], lines 25-72. *)
Definition plotting_presets (os_environ : gset string) (ip : ipython)
    (figure_type : string) : Py presets unit :=
  (if decide ("SPY_PYTHONPATH" ∈ os_environ) then
     shell ← lift (get_ipython ip);
     run_line_magic shell "matplotlib" "qt"
   else mret ());;
  (if decide (str_lower figure_type = "publication") then
     rc "font.family" "serif";;
     rc "font.serif" "Times New Roman";;
     rc "font.size" "10";;
     rc "text.usetex" "True"
   else if decide (str_lower figure_type = "presentation") then
     rc "font.family" "sans-serif";;
     rc "font.sans-serif" "Arial";;
     rc "font.size" "18";;
     rc "text.usetex" "False"
   else
     py_raise (raise_stmt (PyTuple
       [PyExcClass ValueError;
        PyStr "Options for plotting_presets are publication or presentation"])));;
  rc "svg.fonttype" "none";;
  rc "lines.markersize" "10".

(** Lines 43-48 get through: the process is not Spyder's, or it has a
    running shell that accepts the [matplotlib qt] line magic. *)
Definition spyder_ready (os_environ : gset string) (ip : ipython) : Prop :=
  "SPY_PYTHONPATH" ∈ os_environ →
  ∃ magic, ip = Shell magic ∧ magic "matplotlib" "qt" = Ok ().

(** A shell whose line magics all succeed. *)
Definition any_magic : string → string → result unit := λ _ _, Ok ().

(** The selector is one of the two the function knows, whatever its case. *)
Definition known_figure_type (figure_type : string) : Prop :=
  str_lower figure_type = "publication" ∨ str_lower figure_type = "presentation".

#[global] Instance known_figure_type_dec figure_type :
  Decision (known_figure_type figure_type).
Proof. unfold known_figure_type. apply _. Defined.

(** ** The figure *)

Inductive scale := Linear | Log.

#[global] Instance scale_eq_dec : EqDecision scale.
Proof. solve_decision. Defined.

(** What is drawn on an axes; [data] is the frame object handed to
    seaborn. *)
Inductive artist :=
  | Kde (data : loc) (x hue : string)
  | ScatterPlot (data : loc) (x y hue : string)
  | Star (x y : cell)
  | Marker (x y : float64) (color : string).

Record axes := mkAxes {
  ax_visible : bool;
  ax_yscale : scale;
  ax_artists : list artist;
  ax_xlabel : string;
  ax_ylabel : string;
  ax_xaxis_visible : bool;
  ax_yaxis_visible : bool
}.

Definition new_axes : axes := mkAxes true Linear [] "" "" true true.

(** A grid made by [plt.subplots(nrows, ncols, sharex='col')]: the axes of a
    column share their x axis, so its scale is kept once per column. *)
Record figure := mkFigure {
  fig_shape : nat * nat;
  fig_axes : nat → nat → axes;
  fig_xscale : nat → scale;
  fig_size : nat * nat
}.

Definition subplots (nrows ncols : nat) : figure :=
  mkFigure (nrows, ncols) (λ _ _, new_axes) (λ _, Linear) (0, 0).

Definition on_axes (i j : nat) (f : axes → axes) : Py figure unit := λ fig,
  (mkFigure (fig_shape fig)
     (λ i' j', if decide (i' = i ∧ j' = j)
               then f (fig_axes fig i j) else fig_axes fig i' j')
     (fig_xscale fig) (fig_size fig), Ok ()).

(** [ax.set_xscale(s)] on the axes of column [j]. *)
Definition set_xscale (j : nat) (s : scale) : Py figure unit := λ fig,
  (mkFigure (fig_shape fig) (fig_axes fig)
     (λ j', if decide (j' = j) then s else fig_xscale fig j')
     (fig_size fig), Ok ()).

Definition set_yscale (i j : nat) (s : scale) : Py figure unit :=
  on_axes i j (λ a, mkAxes (ax_visible a) s (ax_artists a) (ax_xlabel a)
                      (ax_ylabel a) (ax_xaxis_visible a) (ax_yaxis_visible a)).

Definition set_visible (i j : nat) (b : bool) : Py figure unit :=
  on_axes i j (λ a, mkAxes b (ax_yscale a) (ax_artists a) (ax_xlabel a)
                      (ax_ylabel a) (ax_xaxis_visible a) (ax_yaxis_visible a)).

Definition add_artist (i j : nat) (x : artist) : Py figure unit :=
  on_axes i j (λ a, mkAxes (ax_visible a) (ax_yscale a) (ax_artists a ++ [x])
                      (ax_xlabel a) (ax_ylabel a)
                      (ax_xaxis_visible a) (ax_yaxis_visible a)).

Definition set_xlabel (i j : nat) (l : string) : Py figure unit :=
  on_axes i j (λ a, mkAxes (ax_visible a) (ax_yscale a) (ax_artists a) l
                      (ax_ylabel a) (ax_xaxis_visible a) (ax_yaxis_visible a)).

Definition set_ylabel (i j : nat) (l : string) : Py figure unit :=
  on_axes i j (λ a, mkAxes (ax_visible a) (ax_yscale a) (ax_artists a)
                      (ax_xlabel a) l (ax_xaxis_visible a) (ax_yaxis_visible a)).

Definition xaxis_set_visible (i j : nat) (b : bool) : Py figure unit :=
  on_axes i j (λ a, mkAxes (ax_visible a) (ax_yscale a) (ax_artists a)
                      (ax_xlabel a) (ax_ylabel a) b (ax_yaxis_visible a)).

Definition yaxis_set_visible (i j : nat) (b : bool) : Py figure unit :=
  on_axes i j (λ a, mkAxes (ax_visible a) (ax_yscale a) (ax_artists a)
                      (ax_xlabel a) (ax_ylabel a) (ax_xaxis_visible a) b).

Definition set_size_inches (w h : nat) : Py figure unit := λ fig,
  (mkFigure (fig_shape fig) (fig_axes fig) (fig_xscale fig) (w, h), Ok ()).

Definition when {S} (b : bool) (m : Py S unit) : Py S unit :=
  if b then m else mret ().

(** [sns.kdeplot(data, x, hue, fill=True, legend=False, cut=0, ax,
    log_scale)]: a density per hue level over the values of [x]; a true
    [log_scale] puts the data axis, here x, on a log scale, a false one
    leaves the scale alone. *)
Definition kdeplot (i j : nat) (data : loc) (x hue : string) (log_scale : bool)
  : Py figure unit :=
  when log_scale (set_xscale j Log);;
  add_artist i j (Kde data x hue);;
  set_xlabel i j x;;
  set_ylabel i j "Density".

(** [sns.scatterplot(data, x, y, hue, legend=False, ax, s=7.5)] *)
Definition scatterplot (i j : nat) (data : loc) (x y hue : string) : Py figure unit :=
  add_artist i j (ScatterPlot data x y hue);;
  set_xlabel i j x;;
  set_ylabel i j y.

(** The frame columns an artist shows. *)
Definition artist_columns (a : artist) : list string :=
  match a with
  | Kde _ x hue => [x; hue]
  | ScatterPlot _ x y hue => [x; y; hue]
  | Star _ _ | Marker _ _ _ => []
  end.

(** The frame columns shown anywhere on the grid of a figure. *)
Definition figure_columns (fig : figure) : list string :=
  i ← seq 0 (fig_shape fig).1;
  j ← seq 0 (fig_shape fig).2;
  a ← ax_artists (fig_axes fig i j);
  artist_columns a.

(** ** [plot_data.py]: the scatter matrix *)

(** The body of the double loop at lines 246-324, for the axes at row [i]
    and column [j]; [cols] is [plotting_data_frame.columns]. *)
Definition matrix_cell (data : loc) (cols : list string) (i j : nat) : Py figure unit :=
  if decide (i = j) then
    c ← lift (iloc cols (i + 1));
    let log_flag := if decide (c = "Nu12") then false else true in
    x ← lift (iloc cols (i + 1));
    kdeplot i j data x "Unit Cell" log_flag;;
    set_ylabel i j "";;
    when (bool_decide (i < 3)) (set_xlabel i j "");;
    yaxis_set_visible i j false
  else if decide (i < j) then
    set_visible i j false
  else
    cy ← lift (iloc cols (i + 1));
    let y_log_flag := if decide (cy = "Nu12") then false else true in
    cx ← lift (iloc cols (j + 1));
    let x_log_flag := if decide (cx = "Nu12") then false else true in
    x ← lift (iloc cols (j + 1));
    y ← lift (iloc cols (i + 1));
    scatterplot i j data x y "Unit Cell";;
    when x_log_flag (set_xscale j Log);;
    when y_log_flag (set_yscale i j Log);;
    when (bool_decide (0 < j)) (set_ylabel i j "");;
    when (bool_decide (i < 3)) (set_xlabel i j "").

(** [for i, axs in enumerate(axes): for j, ax in enumerate(axs): ...] *)
Definition over_grid (body : nat → nat → Py figure unit) : Py figure unit := λ fig,
  for_each (seq 0 (fig_shape fig).1) (λ i,
    for_each (seq 0 (fig_shape fig).2) (λ j, body i j)) fig.

(** Lines 246-324. *)
Definition scatter_matrix (data : loc) (cols : list string) : Py figure unit :=
  over_grid (matrix_cell data cols).

(** ** [plot_data.py]: the script *)

(** What the script does to the world outside its frames and its figure. *)
Inductive effect :=
  | LineMagic (name arg : string)
  | RcSet (key value : string)
  | TightLayout
  | SubplotsAdjust
  | ShowFigure
  | SaveFig (path : string)
  | Print (label : string) (value : cell).

Record world := mkWorld {
  w_heap : heap;
  w_fig : figure;
  w_out : list effect
}.

(** What a run finds around it: whether it runs under IPython, which
    defines [get_ipython]; the working directory; what lines 149-183 (the
    reading of the six CSV files, their concatenation and the merge) produce,
    the merged frame or the exception pandas raises; and whether a file can
    be written at a path. *)
Record environment := mkEnv {
  env_ipython : bool;
  env_cwd : string;
  env_load : result DataFrame;
  env_savefig : string → result unit
}.

Definition world0 : world := mkWorld ∅ (subplots 0 0) [].

Definition heap_op {X} (m : Py heap X) : Py world X := λ w,
  let '(h, r) := m (w_heap w) in (mkWorld h (w_fig w) (w_out w), r).

Definition fig_op {X} (m : Py figure X) : Py world X := λ w,
  let '(f, r) := m (w_fig w) in (mkWorld (w_heap w) f (w_out w), r).

Definition emit (e : effect) : Py world unit := λ w,
  (mkWorld (w_heap w) (w_fig w) (w_out w ++ [e]), Ok ()).

(** [plotting_presets] of [plot_data.py], lines 23-47: [get_ipython] is a
    name only IPython defines. *)
Definition plot_data_plotting_presets (env : environment) : Py world unit :=
  (if env_ipython env then emit (LineMagic "matplotlib" "qt")
   else py_raise (NameError "get_ipython"));;
  emit (RcSet "font.family" "serif");;
  emit (RcSet "font.serif" "Times New Roman");;
  emit (RcSet "text.usetex" "True");;
  emit (RcSet "font.size" "12");;
  emit (RcSet "svg.fonttype" "none");;
  emit (RcSet "lines.markersize" "10");;
  emit (RcSet "scatter.edgecolors" "face").

(** Line 133. *)
Definition material : string := "foamed elastomer".

(** Lines 226-231. *)
Definition compliant_material : result material_properties :=
  if decide (material = "foamed elastomer") then Ok compliant_foam
  else if decide (material = "dense elastomer") then Ok compliant_dense
  else if decide (material = "none") then Ok null_material
  else Raise (NameError "compliant_material").

(** [s == number] *)
Definition series_eq_num (s : Series) (k : float64) : list bool :=
  (λ a, match a with Num x => F64.eqb x k | Str _ => false end) <$> s.

(** [os.path.join(a, b)] for a relative [b]. *)
Definition path_join (a b : string) : string :=
  if decide (a = "") then b
  else if decide (String.get (String.length a - 1) a = Some "/"%char)
       then a +:+ b else a +:+ "/" +:+ b.

Definition output_path (env : environment) (extension : string) : string :=
  path_join (path_join (env_cwd env) "output_images")
            (material +:+ "unit_cell." +:+ extension).

(** [plt.savefig(path)] *)
Definition savefig (env : environment) (path : string) : Py world unit := λ w,
  match env_savefig env path with
  | Ok _ => (mkWorld (w_heap w) (w_fig w) (w_out w ++ [SaveFig path]), Ok ())
  | Raise e => (w, Raise e)
  end.

(** [for i, axs in enumerate(axes): for j, ax in enumerate(axs): ...] over
    the grid of the current figure. *)
Definition over_axes (body : nat → nat → Py world unit) : Py world unit := λ w,
  for_each (seq 0 (fig_shape (w_fig w)).1) (λ i,
    for_each (seq 0 (fig_shape (w_fig w)).2) (λ j, body i j)) w.

Definition axes_labels : list string :=
  ["$E_1$ [MPa]"; "$E_2$ [MPa]"; "$G_{12}$ [MPa]"; "$\nu_{12}$ [-]"].

Definition plotted_columns : list string := ["E1"; "E2"; "G12"; "Nu12"].

(** The coordinate of the highlighted design, lines 347-348:
    [data_to_plot[(... == 'Re-entrant') & (... == 152)][column].iloc[0]]. *)
Definition highlighted (data_to_plot : loc) (column : string) : Py heap cell :=
  uc ← df_getitem data_to_plot "Unit Cell";
  id ← df_getitem data_to_plot "ID";
  sel ← df_bool_index data_to_plot
         (zip_with andb (series_eq_str uc "Re-entrant")
                        (series_eq_num id (F64.of_Z 152)));
  s ← df_getitem sel column;
  lift (iloc s 0).

(** The body of the second double loop, lines 331-353. *)
Definition label_cell (data_to_plot : loc) (i j : nat) : Py world unit :=
  when (bool_decide (j = 0))
    (l ← lift (iloc axes_labels i); fig_op (set_ylabel i j l));;
  when (bool_decide (i = 3))
    (l ← lift (iloc axes_labels j); fig_op (set_xlabel i j l));;
  when (bool_decide (i < 3)) (fig_op (xaxis_set_visible i j false));;
  when (bool_decide (0 < j)) (fig_op (yaxis_set_visible i j false));;
  when (bool_decide (i ≠ j))
    (cx ← lift (iloc plotted_columns j);
     x ← heap_op (highlighted data_to_plot cx);
     cy ← lift (iloc plotted_columns i);
     y ← heap_op (highlighted data_to_plot cy);
     fig_op (add_artist i j (Star x y))).

(** [axes[i,j].plot(x, y, '*', color=color)] *)
Definition plot_marker (i j : nat) (x y : float64) (color : string) : Py world unit :=
  fig_op (add_artist i j (Marker x y color)).

(** Lines 356-375. *)
Definition reference_markers (compliant : material_properties) : Py world unit :=
  plot_marker 1 0 (mat_E stiff) (mat_E stiff) "gray";;
  plot_marker 1 0 (mat_E compliant) (mat_E compliant) "cyan";;
  plot_marker 2 0 (mat_E stiff) (mat_G stiff) "gray";;
  plot_marker 2 0 (mat_E compliant) (mat_G compliant) "cyan";;
  plot_marker 3 0 (mat_E stiff) (mat_nu stiff) "gray";;
  plot_marker 3 0 (mat_E compliant) (mat_nu compliant) "cyan";;
  plot_marker 2 1 (mat_E stiff) (mat_G stiff) "gray";;
  plot_marker 2 1 (mat_E compliant) (mat_G compliant) "cyan";;
  plot_marker 3 1 (mat_E stiff) (mat_nu stiff) "gray";;
  plot_marker 3 1 (mat_E compliant) (mat_nu compliant) "cyan";;
  plot_marker 3 2 (mat_G stiff) (mat_nu stiff) "gray";;
  plot_marker 3 2 (mat_G compliant) (mat_nu compliant) "cyan".

(** Lines 186-238: from the merged frame to the frame that is plotted.
    Returns [data_to_plot] and [plotting_data_frame]. *)
Definition prepare_frames (merged_data : loc) : Py heap (loc * loc) :=
  merged_data ← orthonormal_rotation merged_data;
  data_to_plot ← df_copy merged_data;
  infill ← df_getitem data_to_plot "Infill material";
  data_to_plot ← df_bool_index data_to_plot (series_eq_str infill material);
  data_to_plot ← df_copy data_to_plot;
  density_statement data_to_plot;;
  plotting_data_frame ←
    df_drop data_to_plot
      ["ID"; "Error"; "E3"; "Nu13"; "Nu23"; "G13"; "G23";
       "Stiff volume"; "Total volume"; "Infill material"];
  manufacturing_constraint plotting_data_frame;;
  plotting_data_frame ←
    df_select plotting_data_frame ["Unit Cell"; "E1"; "E2"; "G12"; "Nu12"];
  compliant ← lift compliant_material;
  e1 ← df_getitem merged_data "E1";
  low1 ← lift (series_lt e1 (mat_E compliant));
  e2 ← df_getitem merged_data "E2";
  low2 ← lift (series_lt e2 (mat_E compliant));
  outlier_data ← df_bool_index merged_data (zip_with orb low1 low2);
  infill ← df_getitem outlier_data "Infill material";
  name ← lift (match mat_name compliant with
               | Some n => Ok n
               | None => Raise (KeyError (Str "name"))
               end);
  outlier_data ← df_bool_index outlier_data (series_eq_str infill name);
  e1 ← df_getitem plotting_data_frame "E1";
  high1 ← lift (series_gt e1 (mat_E compliant));
  e2 ← df_getitem plotting_data_frame "E2";
  high2 ← lift (series_gt e2 (mat_E compliant));
  plotting_data_frame ← df_bool_index plotting_data_frame (zip_with andb high1 high2);
  mret (data_to_plot, plotting_data_frame).

(** Lines 127-399: everything up to and including the SVG file. *)
Definition script_until_break (env : environment) : Py world loc :=
  plot_data_plotting_presets env;;
  merged ← lift (env_load env);
  merged_data ← heap_op (new_frame merged);
  frames ← heap_op (prepare_frames merged_data);
  let data_to_plot := frames.1 in
  let plotting_data_frame := frames.2 in
  compliant ← lift compliant_material;
  fig_op (λ _, (subplots 4 4, Ok ()));;
  pdf ← heap_op (frame_of plotting_data_frame);
  fig_op (scatter_matrix plotting_data_frame (columns pdf));;
  over_axes (label_cell data_to_plot);;
  reference_markers compliant;;
  fig_op (set_size_inches 10 6);;
  emit TightLayout;;
  emit SubplotsAdjust;;
  emit ShowFigure;;
  savefig env (output_path env "svg");;
  mret plotting_data_frame.

(** Line 400: a name nothing defines. *)
Definition BREAK : Py world unit := py_raise (NameError "BREAK").

(** [numpy.median] *)
Definition median (xs : list float64) : float64 :=
  if existsb F64.is_nan xs then F64.nan
  else
    let s := merge_sort f64_le xs in
    let n := length s in
    if decide (n = 0) then F64.nan
    else if Nat.even n
    then F64.div (F64.add (default F64.nan (s !! (n / 2 - 1)))
                          (default F64.nan (s !! (n / 2))))
                 (F64.of_Z 2)
    else default F64.nan (s !! (n / 2)).

Definition print_median (label : string) (data : loc) (column : string) : Py world unit :=
  s ← heap_op (df_getitem data column);
  xs ← lift (to_floats s);
  emit (Print label (Num (median xs))).

(** Lines 401-419: a second size, the PNG file and the medians. *)
Definition script_after_break (env : environment) (plotting_data_frame : loc)
  : Py world unit :=
  fig_op (set_size_inches 6 6);;
  savefig env (output_path env "png");;
  for_each ["Lattice"; "Re-entrant"] (λ unit_cell_type,
    uc ← heap_op (df_getitem plotting_data_frame "Unit Cell");
    data ← heap_op (df_bool_index plotting_data_frame
                      (series_eq_str uc unit_cell_type));
    emit (Print "Unit cell = " (Str unit_cell_type));;
    print_median "E_1 = " data "E1";;
    print_median "E_2 = " data "E2";;
    print_median "G_12 = " data "G12";;
    print_median "nu_12 = " data "Nu12").

(** The [__main__] block, lines 126-419. *)
Definition main (env : environment) : Py world unit :=
  plotting_data_frame ← script_until_break env;
  BREAK;;
  script_after_break env plotting_data_frame.

(** ** Sample inputs *)

Definition numbers (l : list (Z * Z)) : Series := (λ me, Num (F64.lit me.1 me.2)) <$> l.
Definition texts (l : list string) : Series := Str <$> l.

(** Two designs with their moduli and Poisson ratio. *)
Definition sample_constants : DataFrame :=
  mkDF 2 [("ID", numbers [(1, 0); (2, 0)]);
          ("E1", numbers [(2, 0); (4, 0)]);
          ("E2", numbers [(1, 0); (8, 0)]);
          ("Nu12", numbers [(3, -1); (25, -2)])]%Z.

(** A merged frame as lines 149-183 build it: design 152 is a solid
    re-entrant cell ([Stiff volume = Total volume = 7]), design 7 a lattice
    with no volume at all and struts thinner than 0.5 mm. *)
Definition sample_merged : DataFrame :=
  mkDF 3 [("ID", numbers [(152, 0); (7, 0); (3, 0)]);
          ("Unit Cell", texts ["Re-entrant"; "Lattice"; "Chiral"]);
          ("E1", numbers [(10, 0); (20, 0); (5, 0)]);
          ("E2", numbers [(5, 0); (40, 0); (5, 0)]);
          ("E3", numbers [(1, 0); (1, 0); (1, 0)]);
          ("G12", numbers [(3, 0); (6, 0); (2, 0)]);
          ("G13", numbers [(1, 0); (1, 0); (1, 0)]);
          ("G23", numbers [(1, 0); (1, 0); (1, 0)]);
          ("Nu12", numbers [(3, -1); (2, -1); (1, -1)]);
          ("Nu13", numbers [(3, -1); (3, -1); (3, -1)]);
          ("Nu23", numbers [(3, -1); (3, -1); (3, -1)]);
          ("Error", numbers [(0, 0); (0, 0); (0, 0)]);
          ("Strut thickness [mm]", numbers [(6, -1); (4, -1); (7, -1)]);
          ("Stiff volume", numbers [(7, 0); (0, 0); (1, 0)]);
          ("Total volume", numbers [(7, 0); (0, 0); (4, 0)]);
          ("Infill material",
           texts ["foamed elastomer"; "foamed elastomer"; "foamed elastomer"])]%Z.

(** A run under IPython, in a directory where files can be written. *)
Definition sample_env : environment :=
  mkEnv true "/home/user/unit_cell_data" (Ok sample_merged) (λ _, Ok ()).

(** The same run under the plain interpreter. *)
Definition plain_python_env : environment :=
  mkEnv false "/home/user/unit_cell_data" (Ok sample_merged) (λ _, Ok ()).

(** Three materials of two classes, with ranges of density and modulus. *)
Definition sample_materials : DataFrame :=
  mkDF 3 [("Category", texts ["Metals"; "Foams"; "Metals"]);
          ("Density low", numbers [(7800, 0); (30, 0); (2700, 0)]);
          ("Density high", numbers [(7900, 0); (60, 0); (2800, 0)]);
          ("Young Modulus low", numbers [(200, 0); (1, -3); (68, 0)]);
          ("Young Modulus high", numbers [(210, 0); (2, -3); (72, 0)])]%Z.

(** A frame with the [Category] column and no row. *)
Definition no_materials : DataFrame := mkDF 0 [("Category", [])].

(** The guideline of the material index [E / rho] over [[1, 10]]. *)
Definition identity_guideline : guideline :=
  mkGuideline (F64.of_Z 1) [F64.of_Z 1; F64.of_Z 10] (F64.of_Z 1)
              "$E/\rho$" (F64.of_Z 2, F64.of_Z 2).

(** A stand-in for the C library's [pow] on the whole exponents 0 to 3,
    where it is a product; NaN elsewhere. *)
Definition pow_whole (x y : float64) : float64 :=
  if decide (y = F64.of_Z 0) then F64.of_Z 1
  else if decide (y = F64.of_Z 1) then x
  else if decide (y = F64.of_Z 2) then F64.mul x x
  else if decide (y = F64.of_Z 3) then F64.mul (F64.mul x x) x
  else F64.nan.

(** ** Specifications of computations *)

(** [hoare P m Q]: run from a state satisfying [P], the computation [m] ends,
    normally or by an exception, in a state and with an outcome related by
    [Q]. *)
Definition hoare {S X} (P : S → Prop) (m : Py S X) (Q : result X → S → Prop) : Prop :=
  ∀ s, P s → Q (m s).2 (m s).1.

(** The frames of [h0] are still there, unchanged, in [h]. *)
Definition frames_kept (h0 h : heap) : Prop :=
  ∀ l, is_Some (h0 !! l) → h !! l = h0 !! l.

(** The outcome is a frame that did not exist in [h0]. *)
Definition kept_new (h0 : heap) : result loc → heap → Prop := λ r h,
  frames_kept h0 h ∧ ∀ l, r = Ok l → h0 !! l = None ∧ is_Some (h !! l).

(** [l] is a frame made since [h0]. *)
Definition new_in (h0 : heap) (l : loc) : heap → Prop := λ h,
  frames_kept h0 h ∧ h0 !! l = None ∧ is_Some (h !! l).

(** [m] changes the axes at [(i, j)] by [fa] and the x scale of column [j]
    by [fx], returns, and leaves the rest of the figure alone. *)
Definition acts_on (i j : nat) (fa : axes → axes) (fx : scale → scale)
    (m : Py figure unit) : Prop :=
  ∀ fig, ∃ fig',
    m fig = (fig', Ok ()) ∧
    fig_shape fig' = fig_shape fig ∧
    fig_axes fig' i j = fa (fig_axes fig i j) ∧
    (∀ i' j', ¬ (i' = i ∧ j' = j) → fig_axes fig' i' j' = fig_axes fig i' j') ∧
    fig_xscale fig' j = fx (fig_xscale fig j) ∧
    (∀ j', j' ≠ j → fig_xscale fig' j' = fig_xscale fig j').

(** Column [k] of the grid does not show the Poisson ratio. *)
Definition log_column (cols : list string) (k : nat) : Prop :=
  ∃ c, cols !! (k + 1) = Some c ∧ c ≠ "Nu12".

(** What the first double loop has made of the axes it has been through
    ([seen]) and left of the others, on an [n] by [n] grid. *)
Definition matrix_inv (data : loc) (cols : list string) (n : nat)
    (seen : nat → nat → Prop) (fig : figure) : Prop :=
  fig_shape fig = (n, n) ∧
  (∀ i j, ¬ seen i j → fig_axes fig i j = new_axes) ∧
  (∀ i, i < n → seen i i →
     ax_visible (fig_axes fig i i) = true ∧
     ax_yscale (fig_axes fig i i) = Linear ∧
     ∃ c, cols !! (i + 1) = Some c ∧
          ax_artists (fig_axes fig i i) = [Kde data c "Unit Cell"]) ∧
  (∀ i j, i < j → j < n → seen i j →
     ax_visible (fig_axes fig i j) = false ∧
     ax_artists (fig_axes fig i j) = []) ∧
  (∀ i j, j < i → i < n → seen i j →
     ax_visible (fig_axes fig i j) = true ∧
     (ax_yscale (fig_axes fig i j) = Log ↔ log_column cols i) ∧
     ∃ cx cy, cols !! (j + 1) = Some cx ∧ cols !! (i + 1) = Some cy ∧
              ax_artists (fig_axes fig i j) = [ScatterPlot data cx cy "Unit Cell"]) ∧
  (∀ j, fig_xscale fig j = Log → log_column cols j) ∧
  (∀ i j, (j ≤ i)%nat → i < n → seen i j → log_column cols j →
     fig_xscale fig j = Log).

(** [m] adds to the output only effects that satisfy [A]. *)
Definition emits_only {X} (A : effect → Prop) (m : Py world X) : Prop :=
  ∀ w, ∃ new, w_out (m w).1 = w_out w ++ new ∧ Forall A new.

(** What the script may do to the outside before line 400: no file but the
    SVG is written and nothing is printed. *)
Definition before_break_effect (env : environment) (e : effect) : Prop :=
  match e with
  | SaveFig path => path = output_path env "svg"
  | Print _ _ => False
  | _ => True
  end.

(** When the outcome is a value, the last effect was the writing of the SVG
    file. *)
Definition svg_saved_last {X} (env : environment) : result X → world → Prop :=
  λ r w, (∃ x, r = Ok x) → last (w_out w) = Some (SaveFig (output_path env "svg")).

(** The frame at [p] has exactly the labels [names]. *)
Definition has_columns (names : list string) (p : loc) : heap → Prop :=
  λ h, ∃ f, h !! p = Some f ∧ columns f = names.

(** Every artist on the grid of [fig] shows columns of [A] only. *)
Definition shows_only (A : list string) (fig : figure) : Prop :=
  ∀ i j a c, a ∈ ax_artists (fig_axes fig i j) → c ∈ artist_columns a → c ∈ A.

(** The figure of [w] shows columns of [A] only, and the frames of [w]
    satisfy [H]. *)
Definition plots_only (A : list string) (H : heap → Prop) (w : world) : Prop :=
  shows_only A (w_fig w) ∧ H (w_heap w).

(** One row: a cell that is all stiff material. *)
Definition solid_cell : DataFrame :=
  mkDF 1 [("Stiff volume", numbers [(7, 0)]);
          ("Total volume", numbers [(7, 0)])]%Z.

(** One row: a design with the same modulus in both directions. *)
Definition square_cell : DataFrame :=
  mkDF 1 [("E1", numbers [(3, 0)]);
          ("E2", numbers [(3, 0)]);
          ("Nu12", numbers [(1, -1)])]%Z.

(** One row: a cell whose two volumes are the smallest positive binary64
    number, [2^-1074]. *)
Definition tiny_cell : DataFrame :=
  mkDF 1 [("Stiff volume", [Num (S754_finite false 1 (-1074))]);
          ("Total volume", [Num (S754_finite false 1 (-1074))])].

(** ** Rounding *)





(** ** Definitions for the further properties *)

(** The rows of [l] that [groupby] puts in the group [k] of the column
    [cats]. *)
Definition group_rows {X} (k : cell) (cats : Series) (l : list X) : list X :=
  mask_filter ((λ a, bool_decide (a = k)) <$> cats) l.

(** What ['ranges'] mode draws for one group: an ellipse per row, then the
    hull of the low corners followed by the high corners. *)
Definition ranges_calls (k : cell) (c : string)
    (x_low x_high y_low y_high : list float64) : list plot_call :=
  zip_with (λ x y, DrawEllipses k [x.1; x.2] [y.1; y.2] (c, F64.lit 25 (-2)) c)
    (zip x_low x_high) (zip y_low y_high)
  ++ [DrawHull k (zip x_low y_low ++ zip x_high y_high) c].

(** What ['values'] mode draws for one group. *)
Definition values_calls (k : cell) (c : string) (xs ys : list float64)
  : list plot_call :=
  [AxScatter k xs ys c; DrawHull k (zip xs ys) c].
(** The sub-frame [groupby] hands out for the key [k]. *)
Definition group_of (data : DataFrame) (cats : Series) (k : cell) : DataFrame :=
  bool_index data ((λ a, bool_decide (a = k)) <$> cats).

(** Three materials of three classes, one of them without a colour in
    [common_definitions]; single values of density and modulus. *)
Definition sample_points : DataFrame :=
  mkDF 4 [("Category", texts ["Metals"; "Glasses"; "Foams"; "Metals"]);
          ("Density", numbers [(7800, 0); (2500, 0); (30, 0); (2700, 0)]);
          ("Young Modulus", numbers [(200, 0); (70, 0); (1, -3); (68, 0)]);
          ("Density low", numbers [(7800, 0); (2400, 0); (30, 0); (2700, 0)]);
          ("Density high", numbers [(7900, 0); (2600, 0); (60, 0); (2800, 0)]);
          ("Young Modulus low", numbers [(200, 0); (65, 0); (1, -3); (68, 0)]);
          ("Young Modulus high", numbers [(210, 0); (75, 0); (2, -3); (72, 0)])]%Z.

(** The colour a category has in a mapping, for the categories that have
    one. *)
Definition colour_in (material_colors : gmap string string) (k : cell) : string :=
  match color_of material_colors k with Ok c => c | Raise _ => "" end.

(** [patches.Patch(color, label)] *)
Inductive patch := Patch (color : string) (label : cell).

(** A call of [plt.legend] with its keyword arguments. *)
Inductive legend_call :=
  | PltLegend (handles : list patch) (bbox_to_anchor : list float64)
      (loc mode : string) (borderaxespad ncol : Z).

(** [handles.append(patch)] *)
Definition append_handle (p : patch) : Py (list patch) unit := λ handles,
  (handles ++ [p], Ok ()).

(** [create_legend], lines 165-209: [handles] is a list local to the call,
    filled by the loop. *)
Definition create_legend (material_classes : list cell)
    (material_colors : gmap string string) : Py (list legend_call) unit := λ t,
  let handles : list patch := [] in
  match for_each material_classes (λ material_class,
          color ← lift (color_of material_colors material_class);
          let patch := Patch color material_class in
          append_handle patch) handles with
  | (handles, Ok _) =>
      (t ++ [PltLegend handles
               [F64.of_Z 0; F64.lit 102 (-2); F64.of_Z 1; F64.lit 2 (-1)]
               "lower left" "expand" 0 4], Ok ())
  | (_, Raise e) => (t, Raise e)
  end.

(** The legend handle that goes with each hull of a trace: its colour and
    its category. *)
Definition hull_patches (t : list plot_call) : list patch :=
  omap (λ c, match c with
             | DrawHull k _ color => Some (Patch color k)
             | _ => None
             end) t.

(** The legend [create_legend] places for handles [hs]. *)
Definition legend_of (hs : list patch) : legend_call :=
  PltLegend hs [F64.of_Z 0; F64.lit 102 (-2); F64.of_Z 1; F64.lit 2 (-1)]
            "lower left" "expand" 0 4.

(** [m] only adds calls that satisfy [Q] to the trace. *)
Definition only_adds {X} (Q : plot_call → Prop) (m : Py (list plot_call) X)
  : Prop :=
  ∀ t, ∃ new, (m t).1 = t ++ new ∧ Forall Q new.

Definition is_not_hull (c : plot_call) : Prop :=
  match c with DrawHull _ _ _ => False | _ => True end.

(** The line magic [plotting_presets] runs under Spyder. *)
Definition spyder_magic (os_environ : gset string) : list (string * string) :=
  if decide ("SPY_PYTHONPATH" ∈ os_environ) then [("matplotlib", "qt")] else [].

(** The files a list of effects writes, in order. *)
Definition saved_files (l : list effect) : list string :=
  omap (λ e, match e with SaveFig path => Some path | _ => None end) l.

(** An effect that writes no file. *)
Definition writes_no_file (e : effect) : Prop :=
  match e with SaveFig _ => False | _ => True end.

(** [m] writes the SVG file as the last thing it does when it returns, and
    no file when it raises. *)
Definition saves_svg_on_return {X} (env : environment) (m : Py world X) : Prop :=
  ∀ w, ∃ new,
    w_out (m w).1 = w_out w ++ new ∧
    saved_files new = match (m w).2 with
                      | Ok _ => [output_path env "svg"]
                      | Raise _ => []
                      end.

(** Every row of the frame at [p] has both moduli, as numbers above [E]. *)
Definition stiffer_than (E : float64) (p : loc) (h : heap) : Prop :=
  ∃ f, h !! p = Some f ∧
    ∀ c i v, c = "E1" ∨ c = "E2" → cell_at f c i = Some v →
      ∃ x, v = Num x ∧ F64.ltb E x = true.

(** Row [i] is the design the script highlights: a re-entrant cell with
    ID 152. *)
Definition is_design_152 (uc ids : Series) (i : nat) : Prop :=
  uc !! i = Some (Str "Re-entrant") ∧
  ∃ x, ids !! i = Some (Num x) ∧ F64.eqb x (F64.of_Z 152) = true.

(** The colours of [common_definitions] with one more class. *)
Definition colors_with_glasses : gmap string string :=
  <["Glasses" := "cyan"]> common_definitions.2.

(** A frame with one modulus only. *)
Definition sample_without_E2 : DataFrame :=
  mkDF 2 [("E1", numbers [(2, 0); (4, 0)]);
          ("Nu12", numbers [(3, -1); (25, -2)])]%Z.

(** What an artist is, apart from the frame and the coordinates it shows. *)
Inductive drawn :=
  | DKde (x : string)
  | DScatter (x y : string)
  | DStar
  | DMarker (color : string).

Definition kind_of (a : artist) : drawn :=
  match a with
  | Kde _ x _ => DKde x
  | ScatterPlot _ x y _ => DScatter x y
  | Star _ _ => DStar
  | Marker _ _ color => DMarker color
  end.

(** What an axes looks like: whether it is shown, whether its axes are, its
    labels, its y scale, and the kinds of the artists on it. *)
Record look := mkLook {
  lk_visible : bool;
  lk_xaxis_visible : bool;
  lk_yaxis_visible : bool;
  lk_xlabel : string;
  lk_ylabel : string;
  lk_yscale : scale;
  lk_drawn : list drawn
}.

Definition look_of (a : axes) : look :=
  mkLook (ax_visible a) (ax_xaxis_visible a) (ax_yaxis_visible a)
         (ax_xlabel a) (ax_ylabel a) (ax_yscale a) (kind_of <$> ax_artists a).

(** [E] with the entry at [(i, j)] changed by [g]. *)
Definition upd {X} (i j : nat) (g : X → X) (E : nat → nat → X) : nat → nat → X :=
  λ i' j', if decide (i' = i ∧ j' = j) then g (E i j) else E i' j'.

Definition with_xlabel (l : string) (lk : look) : look :=
  mkLook (lk_visible lk) (lk_xaxis_visible lk) (lk_yaxis_visible lk)
         l (lk_ylabel lk) (lk_yscale lk) (lk_drawn lk).

Definition with_ylabel (l : string) (lk : look) : look :=
  mkLook (lk_visible lk) (lk_xaxis_visible lk) (lk_yaxis_visible lk)
         (lk_xlabel lk) l (lk_yscale lk) (lk_drawn lk).

Definition with_xaxis (b : bool) (lk : look) : look :=
  mkLook (lk_visible lk) b (lk_yaxis_visible lk)
         (lk_xlabel lk) (lk_ylabel lk) (lk_yscale lk) (lk_drawn lk).

Definition with_yaxis (b : bool) (lk : look) : look :=
  mkLook (lk_visible lk) (lk_xaxis_visible lk) b
         (lk_xlabel lk) (lk_ylabel lk) (lk_yscale lk) (lk_drawn lk).

Definition add_drawn (k : drawn) (lk : look) : look :=
  mkLook (lk_visible lk) (lk_xaxis_visible lk) (lk_yaxis_visible lk)
         (lk_xlabel lk) (lk_ylabel lk) (lk_yscale lk) (lk_drawn lk ++ [k]).

(** What the body of the second double loop, lines 331-353, makes of the
    look of the axes at [(i, j)], statement by statement. *)
Definition label_look (i j : nat) (lk : look) : look :=
  let lk := if bool_decide (j = 0)
            then with_ylabel (default "" (axes_labels !! i)) lk else lk in
  let lk := if bool_decide (i = 3)
            then with_xlabel (default "" (axes_labels !! j)) lk else lk in
  let lk := if bool_decide (i < 3) then with_xaxis false lk else lk in
  let lk := if bool_decide (0 < j) then with_yaxis false lk else lk in
  if bool_decide (i ≠ j) then add_drawn DStar lk else lk.

(** What lines 356-375 add: the two reference markers on each axes below
    the diagonal. *)
Definition with_markers (E : nat → nat → look) : nat → nat → look :=
  let mark i j E :=
    upd i j (add_drawn (DMarker "cyan")) (upd i j (add_drawn (DMarker "gray")) E) in
  mark 3 2 (mark 3 1 (mark 2 1 (mark 3 0 (mark 2 0 (mark 1 0 E))))).

(** The look of the grid after the first double loop. *)
Definition matrix_looks (data : loc) (cols : list string) : nat → nat → look :=
  λ i j, look_of (fig_axes (scatter_matrix data cols (subplots 4 4)).1 i j).

(** The look of the grid after the second double loop. *)
Definition labelled (E : nat → nat → look) : nat → nat → look :=
  foldl (λ E i, foldl (λ E j, upd i j (label_look i j) E) E (seq 0 4)) E (seq 0 4).

(** The figure of [w] is a 4 by 4 grid of size [sz] whose columns have the
    x scales [xs] and whose axes look as [E] says. *)
Definition figure_is (E : nat → nat → look) (xs : nat → scale) (sz : nat * nat)
    (w : world) : Prop :=
  fig_shape (w_fig w) = (4, 4) ∧
  fig_xscale (w_fig w) = xs ∧
  fig_size (w_fig w) = sz ∧
  ∀ i j, look_of (fig_axes (w_fig w) i j) = E i j.

(** [P] holds of the state when the outcome is a value. *)
Definition on_return {S X} (P : S → Prop) : result X → S → Prop :=
  λ r s, match r with Ok _ => P s | Raise _ => True end.

(** [P x] holds of the state when the outcome is the value [x]. *)
Definition returns {S X} (P : X → S → Prop) : result X → S → Prop :=
  λ r s, match r with Ok x => P x s | Raise _ => True end.

(** The look of the axes at row [i] and column [j] when the script reaches
    line 400. *)
Definition final_look (i j : nat) : look :=
  mkLook (bool_decide (j ≤ i)%nat)
         (bool_decide (i = 3))
         (bool_decide (j = 0 ∧ i ≠ 0))
         (if bool_decide (i = 3) then default "" (axes_labels !! j) else "")
         (if bool_decide (j = 0) then default "" (axes_labels !! i) else "")
         (if bool_decide (j < i ∧ i ≠ 3) then Log else Linear)
         (if bool_decide (i = j) then
            [DKde (default "" (plotted_columns !! i))]
          else if bool_decide (i < j) then [DStar]
          else [DScatter (default "" (plotted_columns !! j))
                         (default "" (plotted_columns !! i));
                DStar; DMarker "gray"; DMarker "cyan"]).

(** [m], when it returns, has changed the look of the axes at [(i, j)] by
    [g] and nothing else of the figure. *)
Definition cell_step {X} (i j : nat) (g : look → look) (m : Py world X) : Prop :=
  ∀ E xs sz,
    hoare (figure_is E xs sz) m (on_return (figure_is (upd i j g E) xs sz)).

(** * Properties *)

(** ** Column lookup *)

Lemma col_lookup_None c l : col_lookup c l = None ↔ c ∉ l.*1.
Proof.
  induction l as [|[c' s] l IH]; simpl.
  - split; [intros _; apply not_elem_of_nil | done].
  - case_decide as Hc; subst.
    + split; [done | intros []; left].
    + rewrite IH, not_elem_of_cons. split; [auto | by intros [_ ?]].
Qed.

Lemma col_lookup_is_Some c l : is_Some (col_lookup c l) ↔ c ∈ l.*1.
Proof.
  rewrite <- not_eq_None_Some, col_lookup_None.
  split; [apply dec_stable | auto].
Qed.

Lemma col_lookup_elem_of c s l : col_lookup c l = Some s → (c, s) ∈ l.
Proof.
  induction l as [|[c' s'] l IH]; simpl; [done|].
  case_decide; subst.
  - intros [= ->]. left.
  - intros. right. auto.
Qed.

Lemma col_lookup_rename (f : string → string) c l :
  (∀ c', f c' = f c → c' = c) →
  col_lookup (f c) (prod_map f id <$> l) = col_lookup c l.
Proof.
  intros Hinj. induction l as [|[c' s] l IH]; [done|].
  rewrite fmap_cons. unfold prod_map at 1. simpl. rewrite IH.
  repeat case_decide; subst; try done. exfalso; auto.
Qed.

Lemma col_lookup_assign_eq c s l : col_lookup c (col_assign c s l) = Some s.
Proof.
  induction l as [|[c' s'] l IH]; simpl.
  - by rewrite decide_True.
  - case_decide; simpl; subst.
    + by rewrite decide_True.
    + by rewrite decide_False.
Qed.

Lemma col_lookup_assign_ne c c' s l :
  c ≠ c' → col_lookup c' (col_assign c s l) = col_lookup c' l.
Proof.
  intros Hne. induction l as [|[c0 s0] l IH]; simpl.
  - by rewrite decide_False.
  - case_decide; simpl; subst.
    + by rewrite !decide_False.
    + by rewrite IH.
Qed.

Lemma col_assign_labels c s l : c ∈ l.*1 → (col_assign c s l).*1 = l.*1.
Proof.
  induction l as [|[c0 s0] l IH]; csimpl.
  - by intros ?%elem_of_nil.
  - case_decide; csimpl; [done|].
    intros [?|?]%elem_of_cons; [congruence|]. by rewrite IH.
Qed.

Lemma col_assign_labels_new c s l : c ∉ l.*1 → (col_assign c s l).*1 = l.*1 ++ [c].
Proof.
  induction l as [|[c0 s0] l IH]; csimpl; [done|].
  rewrite not_elem_of_cons. intros [? ?].
  rewrite decide_False by done. csimpl. by rewrite IH.
Qed.

Lemma col_lookup_tabulate (g : string → Series) c names :
  col_lookup c ((λ c, (c, g c)) <$> names)
  = if decide (c ∈ names) then Some (g c) else None.
Proof.
  induction names as [|c' names IH]; csimpl; [done|].
  destruct (decide (c' = c)) as [->|Hne].
  - by rewrite decide_True by set_solver.
  - rewrite IH. repeat case_decide; set_solver.
Qed.

Lemma tabulate_labels (g : string → Series) names :
  ((λ c, (c, g c)) <$> names).*1 = names.
Proof. induction names; csimpl; congruence. Qed.

Lemma union_labels_subseteq l1 l2 : l2 ⊆ l1 → union_labels l1 l2 = l1.
Proof.
  intros Hsub. unfold union_labels.
  assert (filter (λ c, c ∉ l1) l2 = []) as ->; [|by rewrite app_nil_r].
  induction l2 as [|c l2 IH]; [done|].
  rewrite filter_cons_False by (intros Hc; apply Hc, Hsub; left).
  apply IH. set_solver.
Qed.

Lemma wf_col_length df c s :
  df_wf df → col_lookup c (df_cols df) = Some s → length s = df_len df.
Proof.
  intros [_ Hlen] Hc%col_lookup_elem_of.
  rewrite Forall_forall in Hlen. by apply (Hlen (c, s)).
Qed.

(** ** Element-wise arithmetic on numeric columns *)

Lemma series_arith_num f xs ys :
  series_arith f (Num <$> xs) (Num <$> ys) = Ok (Num <$> zip_with f xs ys).
Proof.
  revert ys. induction xs as [|x xs IH]; intros [|y ys]; csimpl; try done.
  by rewrite IH.
Qed.

Lemma series_scalar_num f xs k :
  series_scalar f (Num <$> xs) k = Ok (Num <$> ((λ x, f x k) <$> xs)).
Proof. induction xs as [|x xs IH]; csimpl; [done|]. by rewrite IH. Qed.

Lemma series_lt_num xs k :
  series_lt (Num <$> xs) k = Ok ((λ x, F64.ltb x k) <$> xs).
Proof. induction xs as [|x xs IH]; csimpl; [done|]. by rewrite IH. Qed.

(** ** [orthonormal_rotation] *)

Lemma rename_label_swap_inj c c' :
  rename_label [("E1", "E2"); ("E2", "E1")] c'
  = rename_label [("E1", "E2"); ("E2", "E1")] c → c' = c.
Proof.
  unfold rename_label; simpl.
  repeat case_decide; subst; simpl; congruence.
Qed.

Lemma getitem_Ok df c s : getitem df c = Ok s ↔ col_lookup c (df_cols df) = Some s.
Proof. unfold getitem. destruct (col_lookup _ _); naive_solver. Qed.

Section run.
Context {S : Type}.

Lemma py_bind_Ok {X Y} (m : Py S X) (f : X → Py S Y) s s' x :
    m s = (s', Ok x) → (m ≫= f) s = f x s'.
  Proof. unfold mbind, Py_bind. by intros ->. Qed.

Lemma py_bind_Raise {X Y} (m : Py S X) (f : X → Py S Y) s s' e :
    m s = (s', Raise e) → (m ≫= f) s = (s', Raise e).
  Proof. unfold mbind, Py_bind. by intros ->. Qed.

Lemma run_lift {X} (r : result X) (s : S) : lift r s = (s, r).
  Proof. done. Qed.
End run.

Lemma run_frame_of (h : heap) l df :
  h !! l = Some df → frame_of l h = (h, Ok df).
Proof. unfold frame_of. by intros ->. Qed.

Lemma run_df_copy (h : heap) l df :
  h !! l = Some df →
  df_copy l h = (<[fresh (dom h) := df]> h, Ok (fresh (dom h))).
Proof.
  intros Hl. unfold df_copy.
  by erewrite py_bind_Ok by by apply run_frame_of.
Qed.

Lemma run_df_rename_inplace (h : heap) l df m :
  h !! l = Some df →
  df_rename_inplace l m h = (<[l := rename m df]> h, Ok ()).
Proof.
  intros Hl. unfold df_rename_inplace.
  by erewrite py_bind_Ok by by apply run_frame_of.
Qed.

Lemma run_df_getitem (h : heap) l df c :
  h !! l = Some df → df_getitem l c h = (h, getitem df c).
Proof.
  intros Hl. unfold df_getitem.
  by erewrite py_bind_Ok by by apply run_frame_of.
Qed.

Lemma run_df_setitem (h : heap) l df c s :
  h !! l = Some df → length s = df_len df →
  df_setitem l c s h
  = (<[l := mkDF (df_len df) (col_assign c s (df_cols df))]> h, Ok ()).
Proof.
  intros Hl Hlen. unfold df_setitem.
  erewrite py_bind_Ok by by apply run_frame_of.
  unfold setitem. by rewrite decide_True by done.
Qed.

Lemma run_df_loc_assign (h : heap) l df mask c v :
  h !! l = Some df →
  df_loc_assign l mask c v h = (<[l := loc_assign df mask c v]> h, Ok ()).
Proof.
  intros Hl. unfold df_loc_assign.
  by erewrite py_bind_Ok by by apply run_frame_of.
Qed.

Lemma run_pd_concat (h : heap) l1 l2 d1 d2 :
  h !! l1 = Some d1 → h !! l2 = Some d2 →
  pd_concat l1 l2 h
  = (<[fresh (dom h) := concat d1 d2]> h, Ok (fresh (dom h))).
Proof.
  intros H1 H2. unfold pd_concat.
  erewrite py_bind_Ok by by apply run_frame_of.
  by erewrite py_bind_Ok by by apply run_frame_of.
Qed.

Lemma fresh_lookup_None (h : heap) : h !! fresh (dom h) = None.
Proof. apply not_elem_of_dom, is_fresh. Qed.

Lemma fresh_ne (h : heap) l df : h !! l = Some df → l ≠ fresh (dom h).
Proof. intros Hl ->. by rewrite fresh_lookup_None in Hl. Qed.

Lemma run_orthonormal_rotation (h : heap) r df nu e1 e2 :
  h !! r = Some df → df_wf df →
  getitem df "E1" = Ok (Num <$> e1) →
  getitem df "E2" = Ok (Num <$> e2) →
  getitem df "Nu12" = Ok (Num <$> nu) →
  let rot := mkDF (df_len df)
    (col_assign "Nu12" (Num <$> zip_with F64.div (zip_with F64.mul nu e2) e1)
       (df_cols (rename [("E1", "E2"); ("E2", "E1")] df))) in
  let l := fresh (dom h) in
  let h1 := <[l := rot]> h in
  let out := fresh (dom h1) in
  orthonormal_rotation r h = (<[out := concat df rot]> h1, Ok out).
Proof.
  intros Hr Hwf H1 H2 Hnu rot l h1 out.
  pose proof (fresh_ne _ _ _ Hr) as Hne.
  assert (Hlen : ∀ c xs, getitem df c = Ok (Num <$> xs) → length xs = df_len df).
  { intros c xs Hc%getitem_Ok. apply wf_col_length in Hc; [|done].
    by rewrite length_fmap in Hc. }
  apply Hlen in H1 as Hl1, H2 as Hl2, Hnu as Hlnu.
  assert (Hget : ∀ c s, getitem df c = Ok s →
            getitem (rename [("E1", "E2"); ("E2", "E1")] df)
                    (rename_label [("E1", "E2"); ("E2", "E1")] c) = Ok s).
  { intros c s. rewrite !getitem_Ok. unfold rename. cbn [df_cols].
    rewrite col_lookup_rename; [done|]. intros ?; apply rename_label_swap_inj. }
  pose proof (Hget "Nu12" _ Hnu) as Gnu.
  pose proof (Hget "E1" _ H1) as G1.
  pose proof (Hget "E2" _ H2) as G2.
  change (rename_label _ "Nu12") with "Nu12" in Gnu.
  change (rename_label _ "E1") with "E2" in G1.
  change (rename_label _ "E2") with "E1" in G2.
  unfold orthonormal_rotation.
  erewrite py_bind_Ok by by apply run_df_copy.
  erewrite py_bind_Ok by (apply run_df_rename_inplace, lookup_insert_eq).
  rewrite insert_insert_eq.
  erewrite py_bind_Ok;
    [|erewrite run_df_getitem by apply lookup_insert_eq;
      by rewrite Gnu].
  erewrite py_bind_Ok;
    [|erewrite run_df_getitem by apply lookup_insert_eq;
      by rewrite G2].
  erewrite py_bind_Ok by (rewrite run_lift; by rewrite series_arith_num).
  erewrite py_bind_Ok;
    [|erewrite run_df_getitem by apply lookup_insert_eq;
      by rewrite G1].
  erewrite py_bind_Ok by (rewrite run_lift; by rewrite series_arith_num).
  erewrite py_bind_Ok.
  2:{ apply run_df_setitem; [apply lookup_insert_eq|].
      rewrite length_fmap, !length_zip_with. simpl. lia. }
  rewrite insert_insert_eq.
  erewrite py_bind_Ok.
  2:{ apply run_pd_concat; [by rewrite lookup_insert_ne|apply lookup_insert_eq]. }
  done.
Qed.

Lemma cell_at_concat d1 d2 c i :
  cell_at (concat d1 d2) c i
  = if decide (c ∈ union_labels (columns d1) (columns d2))
    then (column_or_nan d1 c ++ column_or_nan d2 c) !! i else None.
Proof.
  unfold cell_at, concat. cbn [df_cols].
  rewrite col_lookup_tabulate. by case_decide.
Qed.

Lemma column_or_nan_length df c : df_wf df → length (column_or_nan df c) = df_len df.
Proof.
  intros Hwf. unfold column_or_nan.
  destruct (col_lookup c (df_cols df)) as [s|] eqn:Hc; simpl.
  - by eapply wf_col_length.
  - apply length_replicate.
Qed.

Lemma column_or_nan_lookup df c i :
  c ∈ columns df → column_or_nan df c !! i = cell_at df c i.
Proof.
  intros [s Hs]%col_lookup_is_Some. unfold column_or_nan, cell_at.
  by rewrite Hs.
Qed.

Lemma rename_labels m df : columns (rename m df) = rename_label m <$> columns df.
Proof.
  unfold columns, rename. cbn [df_cols].
  rewrite <- !list_fmap_compose. by apply list_fmap_ext; intros ? [??].
Qed.

(** C1, as the code has it.  For a well-formed frame with numeric columns
    [E1], [E2] and [Nu12], [orthonormal_rotation] returns a new frame with
    twice the rows and the same labels.  Rows [0 .. n-1] are the input's.
    Row [n + i] is row [i] rotated: its [E1] is the input's [E2], its [E2]
    the input's [E1], and its [Nu12] is the input's [Nu12] times its own
    [E1] divided by its own [E2], evaluated in binary64 as
    [(Nu12 * E1) / E2], the product first.  In the moduli of the original
    row that is [(Nu12 * E2) / E1]: the ratio is rescaled by [E2 / E1] of
    the original row.  Every other column is copied. *)
Theorem orthonormal_rotation_doubles (h : heap) r df nu e1 e2 :
  h !! r = Some df → df_wf df →
  getitem df "E1" = Ok (Num <$> e1) →
  getitem df "E2" = Ok (Num <$> e2) →
  getitem df "Nu12" = Ok (Num <$> nu) →
  ∃ h' out df',
    orthonormal_rotation r h = (h', Ok out) ∧ h' !! out = Some df' ∧
    df_len df' = 2 * df_len df ∧
    columns df' = columns df ∧
    (∀ c i, i < df_len df → cell_at df' c i = cell_at df c i) ∧
    (∀ i v x1 x2,
        nu !! i = Some v → e1 !! i = Some x1 → e2 !! i = Some x2 →
        let rotated_E1 := x2 in
        let rotated_E2 := x1 in
        cell_at df' "E1" (df_len df + i) = Some (Num rotated_E1) ∧
        cell_at df' "E2" (df_len df + i) = Some (Num rotated_E2) ∧
        cell_at df' "Nu12" (df_len df + i)
        = Some (Num (F64.div (F64.mul v rotated_E1) rotated_E2))) ∧
    (∀ c i, c ∉ ["E1"; "E2"; "Nu12"] →
        cell_at df' c (df_len df + i) = cell_at df c i).
Proof.
  intros Hr Hwf H1 H2 Hnu.
  pose proof (run_orthonormal_rotation h r df nu e1 e2 Hr Hwf H1 H2 Hnu) as Hrun.
  cbv zeta in Hrun.
  set (quot := Num <$> zip_with F64.div (zip_with F64.mul nu e2) e1) in *.
  set (sw := [("E1", "E2"); ("E2", "E1")]) in *.
  set (rot := mkDF (df_len df) (col_assign "Nu12" quot (df_cols (rename sw df)))) in *.
  eexists _, _, (concat df rot). split; [exact Hrun|].
  split; [apply lookup_insert_eq|].
  apply getitem_Ok in H1 as C1, H2 as C2, Hnu as Cnu.
  assert (In1 : "E1" ∈ columns df) by (apply col_lookup_is_Some; eauto).
  assert (In2 : "E2" ∈ columns df) by (apply col_lookup_is_Some; eauto).
  assert (Innu : "Nu12" ∈ columns df) by (apply col_lookup_is_Some; eauto).
  assert (Hlab : ∀ c, c ∈ columns df → rename_label sw c ∈ columns df).
  { intros c Hc. unfold rename_label, sw; simpl.
    repeat case_decide; subst; simpl; done. }
  assert (Hrotlab : columns rot = rename_label sw <$> columns df).
  { unfold rot, columns at 1. cbn [df_cols].
    rewrite col_assign_labels; [apply rename_labels|].
    fold (columns (rename sw df)). rewrite rename_labels.
    apply (list_elem_of_fmap_2 (rename_label sw) _ "Nu12" Innu). }
  assert (Hsub : columns rot ⊆ columns df).
  { rewrite Hrotlab. intros c (c' & -> & Hc')%list_elem_of_fmap. auto. }
  assert (Hrotcol : ∀ c, col_lookup (rename_label sw c) (df_cols (rename sw df))
                         = col_lookup c (df_cols df)).
  { intros c. unfold rename. cbn [df_cols].
    apply col_lookup_rename. intros ?; apply rename_label_swap_inj. }
  assert (Hin : ∀ c, c ∈ columns df → c ∈ columns rot).
  { intros c Hc. rewrite Hrotlab.
    replace c with (rename_label sw (rename_label sw c)).
    - apply list_elem_of_fmap_2. auto.
    - unfold rename_label, sw; simpl.
      repeat (case_decide; subst; simpl); congruence. }
  assert (Hat : ∀ c i, cell_at (concat df rot) c i
                = if decide (c ∈ columns df)
                  then (column_or_nan df c ++ column_or_nan rot c) !! i else None).
  { intros c i. rewrite cell_at_concat. by rewrite union_labels_subseteq. }
  split; [simpl; lia|].
  split; [unfold concat, columns at 1; cbn [df_cols];
          by rewrite tabulate_labels, union_labels_subseteq|].
  assert (Hshift : ∀ c i, c ∈ columns df →
            cell_at (concat df rot) c (df_len df + i) = cell_at rot c i).
  { intros c i Hc. rewrite Hat, decide_True by done.
    rewrite lookup_app_r by (rewrite column_or_nan_length; [lia|done]).
    rewrite column_or_nan_length by done.
    replace (df_len df + i - df_len df) with i by lia.
    apply column_or_nan_lookup; auto. }
  split; [|split].
  - intros c i Hi. rewrite Hat. case_decide as Hc.
    + rewrite lookup_app_l by (rewrite column_or_nan_length; done).
      by apply column_or_nan_lookup.
    + apply col_lookup_None in Hc. unfold cell_at. by rewrite Hc.
  - intros i v x1 x2 Hv Hx1 Hx2. cbv zeta.
    rewrite !Hshift by done. unfold cell_at, rot. cbn [df_cols].
    rewrite col_lookup_assign_eq, !col_lookup_assign_ne by done.
    change "E1" with (rename_label sw "E2") at 1.
    change "E2" with (rename_label sw "E1") at 2.
    rewrite !Hrotcol, C1, C2. simpl.
    rewrite !list_lookup_fmap, Hx1, Hx2. simpl.
    repeat split; try done.
    unfold quot. rewrite list_lookup_fmap, !lookup_zip_with, Hv, Hx2, Hx1.
    done.
  - intros c i Hc.
    assert (c ≠ "E1" ∧ c ≠ "E2" ∧ c ≠ "Nu12") as (N1 & N2 & N3) by set_solver.
    destruct (decide (c ∈ columns df)) as [Hin'|Hout].
    + rewrite Hshift by done. unfold cell_at, rot. cbn [df_cols].
      rewrite col_lookup_assign_ne by done.
      replace c with (rename_label sw c) at 1; [by rewrite Hrotcol|].
      unfold rename_label, sw. simpl. by rewrite !decide_False by done.
    + rewrite Hat, decide_False by done.
      apply col_lookup_None in Hout. unfold cell_at. by rewrite Hout.
Qed.

(** C1 fails as it is worded.  Read on the original row, the factor is the
    other way round: the design with [E1 = 2], [E2 = 1] and [Nu12 = 0.3]
    gets the rotated ratio [0.15], where [Nu12 * (E1 / E2)] is [0.6].  Read
    on the rotated row, the product does not commute with the rounding: the
    design with [E1 = E2 = 3] and [Nu12 = 0.1] gets the rotated ratio
    [(0.1 * 3) / 3], one unit in the last place above [0.1 * (3 / 3)],
    which is [0.1]. *)
Lemma rotated_ratio_is_not_ratio_times_E1_over_E2 :
  (let '(h', r) := orthonormal_rotation 0 {[0 := sample_constants]} in
   ∃ out df',
     r = Ok out ∧ h' !! out = Some df' ∧
     cell_at df' "E1" 0 = Some (Num (F64.of_Z 2)) ∧
     cell_at df' "E2" 0 = Some (Num (F64.of_Z 1)) ∧
     cell_at df' "Nu12" 0 = Some (Num (F64.lit 3 (-1))) ∧
     cell_at df' "Nu12" 2 = Some (Num (F64.lit 15 (-2))) ∧
     F64.mul (F64.lit 3 (-1)) (F64.div (F64.of_Z 2) (F64.of_Z 1))
     = F64.lit 6 (-1) ∧
     F64.eqb (F64.lit 15 (-2)) (F64.lit 6 (-1)) = false) ∧
  (let '(h', r) := orthonormal_rotation 0 {[0 := square_cell]} in
   ∃ out df' q,
     r = Ok out ∧ h' !! out = Some df' ∧
     cell_at df' "E1" 1 = Some (Num (F64.of_Z 3)) ∧
     cell_at df' "E2" 1 = Some (Num (F64.of_Z 3)) ∧
     cell_at df' "Nu12" 0 = Some (Num (F64.lit 1 (-1))) ∧
     cell_at df' "Nu12" 1 = Some (Num q) ∧
     F64.mul (F64.lit 1 (-1)) (F64.div (F64.of_Z 3) (F64.of_Z 3))
     = F64.lit 1 (-1) ∧
     F64.ltb (F64.lit 1 (-1)) q = true).
Proof.
  split.
  - vm_compute. eexists _, _. repeat split.
  - vm_compute. eexists _, _, _. repeat split.
Qed.

(** ** Hoare rules *)

Section hoare.
Context {S : Type}.
Implicit Types P : S → Prop.

Lemma hoare_bind {X Y} P (m : Py S X) (f : X → Py S Y) Q R :
    hoare P m Q →
    (∀ x, hoare (Q (Ok x)) (f x) R) →
    (∀ e s, Q (Raise e) s → R (Raise e) s) →
    hoare P (m ≫= f) R.
  Proof.
    intros Hm Hf He s Hs. specialize (Hm s Hs).
    unfold mbind, Py_bind. destruct (m s) as [s' [x|e]]; simpl in *.
    - by apply Hf.
    - by apply He.
  Qed.

Lemma hoare_ret {X} P (x : X) (Q : result X → S → Prop) :
    (∀ s, P s → Q (Ok x) s) → hoare P (mret x) Q.
  Proof. intros H s Hs. by apply H. Qed.

Lemma hoare_lift {X} P (r : result X) (Q : result X → S → Prop) :
    (∀ s, P s → Q r s) → hoare P (lift r) Q.
  Proof. intros H s Hs. by apply H. Qed.

Lemma hoare_lift_same {X} P (r : result X) : hoare P (lift r) (λ _ s, P s).
  Proof. by apply hoare_lift. Qed.

Lemma hoare_weaken {X} P P' (m : Py S X) (Q Q' : result X → S → Prop) :
    hoare P' m Q' → (∀ s, P s → P' s) → (∀ r s, Q' r s → Q r s) → hoare P m Q.
  Proof. intros Hm HP HQ s Hs. apply HQ, Hm, HP, Hs. Qed.
End hoare.

(** ** Which frames a computation touches *)

Section kept.
Variable h0 : heap.

Lemma kept_frame_of P l :
    hoare P (frame_of l) (λ _ h, P h).
  Proof. intros h Hh. exact Hh. Qed.

Lemma kept_new_frame df :
    hoare (frames_kept h0) (new_frame df) (kept_new h0).
  Proof.
    intros h Hh. unfold new_frame; simpl.
    assert (h0 !! fresh (dom h) = None) as Hnew.
    { destruct (h0 !! fresh (dom h)) as [d|] eqn:Hd; [|done].
      pose proof (fresh_lookup_None h) as Hf.
      rewrite Hh in Hf by eauto. congruence. }
    split.
    - intros l Hl. rewrite lookup_insert_ne; [by apply Hh|].
      intros <-. rewrite Hnew in Hl. by destruct Hl.
    - intros l [= <-]. split; [done|]. rewrite lookup_insert_eq. eauto.
  Qed.

Lemma kept_write_frame l df :
    hoare (new_in h0 l) (write_frame l df) (λ _, new_in h0 l).
  Proof.
    intros h (Hh & Hl & _). unfold write_frame; simpl.
    split; [|split; [done|rewrite lookup_insert_eq; eauto]].
    intros l' Hl'. rewrite lookup_insert_ne; [by apply Hh|].
    intros <-. rewrite Hl in Hl'. by destruct Hl'.
  Qed.

Lemma kept_df_getitem P l c : hoare P (df_getitem l c) (λ _ h, P h).
Proof.
  eapply hoare_bind; [apply kept_frame_of|..]; [|done].
  intros df. apply hoare_lift_same.
Qed.

Lemma kept_df_copy l : hoare (frames_kept h0) (df_copy l) (kept_new h0).
Proof.
  eapply hoare_bind; [apply kept_frame_of|..]; [|done].
  intros df. apply kept_new_frame.
Qed.

Lemma kept_pd_concat l1 l2 : hoare (frames_kept h0) (pd_concat l1 l2) (kept_new h0).
Proof.
  eapply hoare_bind; [apply kept_frame_of|..]; [|done].
  intros d1. eapply hoare_bind; [apply kept_frame_of|..]; [|done].
  intros d2. apply kept_new_frame.
Qed.

Lemma kept_df_rename_inplace l m :
  hoare (new_in h0 l) (df_rename_inplace l m) (λ _, new_in h0 l).
Proof.
  eapply hoare_bind; [apply kept_frame_of|..]; [|done].
  intros df. apply kept_write_frame.
Qed.

Lemma kept_df_setitem l c s :
  hoare (new_in h0 l) (df_setitem l c s) (λ _, new_in h0 l).
Proof.
  eapply hoare_bind; [apply kept_frame_of|..]; [|done].
  intros df. eapply hoare_bind; [apply hoare_lift_same|..]; [|done].
  intros df'. apply kept_write_frame.
Qed.

Lemma kept_orthonormal_rotation r :
  hoare (frames_kept h0) (orthonormal_rotation r) (kept_new h0).
Proof.
  unfold orthonormal_rotation.
  eapply hoare_bind; [apply kept_df_copy|..]; [|by intros ?? [? _]; split].
  intros rot.
  eapply (hoare_weaken _ (new_in h0 rot) _ _ (kept_new h0));
    [|by intros h [? Hh]; destruct (Hh rot eq_refl)|done].
  assert (Hraise : ∀ (e : exn) (h : heap),
            new_in h0 rot h → kept_new h0 (Raise e) h)
    by (by intros ?? [? _]; split).
  eapply hoare_bind; [apply kept_df_rename_inplace|intros ?; cbv beta|done].
  eapply hoare_bind; [apply kept_df_getitem|intros ?; cbv beta|done].
  eapply hoare_bind; [apply kept_df_getitem|intros ?; cbv beta|done].
  eapply hoare_bind; [apply hoare_lift_same|intros ?; cbv beta|done].
  eapply hoare_bind; [apply kept_df_getitem|intros ?; cbv beta|done].
  eapply hoare_bind; [apply hoare_lift_same|intros ?; cbv beta|done].
  eapply hoare_bind; [apply kept_df_setitem|intros ?; cbv beta|done].
  eapply hoare_bind;
    [eapply hoare_weaken; [apply kept_pd_concat|by intros ? [? _]|done]
    |intros out; cbv beta|by intros ?? [? _]; split].
  by apply hoare_ret.
Qed.
End kept.

(** C10. [orthonormal_rotation] leaves its argument as it found it: whether
    it returns or raises, the frame passed in, like every frame that existed
    before the call, is the same object with the same content afterwards;
    the frame it returns is one that did not exist before. *)
Theorem orthonormal_rotation_pure_in_argument (h : heap) r :
  let '(h', res) := orthonormal_rotation r h in
  h' !! r = h !! r ∧
  (∀ l, is_Some (h !! l) → h' !! l = h !! l) ∧
  (∀ out, res = Ok out → h !! out = None ∧ is_Some (h' !! out)).
Proof.
  destruct (h !! r) as [df|] eqn:Hr.
  - pose proof (kept_orthonormal_rotation h r h (λ _ _, eq_refl)) as [Hk Hnew].
    destruct (orthonormal_rotation r h) as [h' res]; simpl in *.
    split; [|done]. rewrite <- Hr. apply Hk. rewrite Hr. eauto.
  - assert (orthonormal_rotation r h = (h, Raise ReferenceError)) as ->.
    { unfold orthonormal_rotation, df_copy.
      do 2 (apply py_bind_Raise). unfold frame_of. by rewrite Hr. }
    done.
Qed.

(** ** The manufacturing constraint *)

Lemma mask_assign_lookup mask v (s : Series) i :
  length mask = length s →
  mask_assign mask v s !! i
  = b ← mask !! i; a ← s !! i; Some (if b : bool then v else a).
Proof.
  revert s i. induction mask as [|b mask IH]; intros [|a s] [|i] Hlen;
    simplify_eq/=; try done.
  by apply IH.
Qed.

Lemma mask_assign_length mask v (s : Series) :
  length (mask_assign mask v s) = length s.
Proof.
  revert s. induction mask as [|b mask IH]; intros [|a s]; simpl; auto.
Qed.

Lemma column_or_nan_Some df c s :
  col_lookup c (df_cols df) = Some s → column_or_nan df c = s.
Proof. unfold column_or_nan. by intros ->. Qed.

(** C3. On a frame whose thickness column is numeric, the constraint step
    rewrites the frame in place and nothing else: the row count and the
    labels stay, a row's [Unit Cell] becomes ['Violated'] when its thickness
    is below 0.5 (a NaN thickness is not) and keeps its value otherwise,
    and every other column is untouched. *)
Theorem manufacturing_constraint_relabels (h : heap) p df th uc :
  h !! p = Some df → df_wf df →
  getitem df "Strut thickness [mm]" = Ok (Num <$> th) →
  getitem df "Unit Cell" = Ok uc →
  ∃ df',
    manufacturing_constraint p h = (<[p := df']> h, Ok ()) ∧
    df_len df' = df_len df ∧
    columns df' = columns df ∧
    (∀ i t u, th !! i = Some t → uc !! i = Some u →
       cell_at df' "Unit Cell" i
       = Some (if F64.ltb t (F64.lit 5 (-1)) then Str "Violated" else u)) ∧
    (∀ c, c ≠ "Unit Cell" → getitem df' c = getitem df c).
Proof.
  intros Hp Hwf Hth Huc.
  set (mask := (λ x, F64.ltb x (F64.lit 5 (-1))) <$> th).
  exists (loc_assign df mask "Unit Cell" (Str "Violated")).
  apply getitem_Ok in Huc as Cuc. apply getitem_Ok in Hth as Cth.
  split; [|split; [done|split; [|split]]].
  - unfold manufacturing_constraint.
    erewrite py_bind_Ok
      by (erewrite run_df_getitem by done; by rewrite Hth).
    erewrite py_bind_Ok by (rewrite run_lift; by rewrite series_lt_num).
    by apply run_df_loc_assign.
  - unfold loc_assign, columns. cbn [df_cols].
    apply col_assign_labels, col_lookup_is_Some. eauto.
  - intros i t u Ht Hu. unfold cell_at, loc_assign. cbn [df_cols].
    rewrite col_lookup_assign_eq. cbn.
    rewrite (column_or_nan_Some _ _ _ Cuc), mask_assign_lookup.
    + unfold mask. by rewrite list_lookup_fmap, Ht, Hu.
    + unfold mask. rewrite length_fmap.
      apply wf_col_length in Cth, Cuc; try done.
      rewrite length_fmap in Cth. congruence.
  - intros c Hc. unfold getitem, loc_assign. cbn [df_cols].
    by rewrite col_lookup_assign_ne.
Qed.

(** ** The density column *)

Lemma density_columnwise {A} (add sub mul div : A → A → A) rs rc svs tvs :
  zip_with div
    (zip_with add ((λ x, mul x rs) <$> svs)
                  ((λ x, mul x rc) <$> zip_with sub tvs svs)) tvs
  = zip_with (density_formula add sub mul div rs rc) svs tvs.
Proof.
  revert tvs. induction svs as [|sv svs IH]; intros [|tv tvs]; csimpl; try done.
  by rewrite IH.
Qed.

(** On numeric volume columns the statement of lines 196-197 never raises:
    it stores, row by row, the binary64 value of [density_formula]. *)
Lemma run_density_statement (h : heap) d df svs tvs :
  h !! d = Some df → df_wf df →
  getitem df "Stiff volume" = Ok (Num <$> svs) →
  getitem df "Total volume" = Ok (Num <$> tvs) →
  density_statement d h
  = (<[d := mkDF (df_len df)
        (col_assign "Density"
           (Num <$> zip_with (density_formula F64.add F64.sub F64.mul F64.div
                                (mat_rho stiff) (mat_rho compliant_dense))
                             svs tvs)
           (df_cols df))]> h, Ok ()).
Proof.
  intros Hd Hwf Hsv Htv.
  apply getitem_Ok in Hsv as Csv. apply getitem_Ok in Htv as Ctv.
  apply wf_col_length in Csv, Ctv; try done. rewrite length_fmap in Csv, Ctv.
  unfold density_statement.
  erewrite py_bind_Ok by (erewrite run_df_getitem by done; by rewrite Hsv).
  erewrite py_bind_Ok by (rewrite run_lift; by rewrite series_scalar_num).
  erewrite py_bind_Ok by (erewrite run_df_getitem by done; by rewrite Htv).
  erewrite py_bind_Ok by (erewrite run_df_getitem by done; by rewrite Hsv).
  erewrite py_bind_Ok by (rewrite run_lift; by rewrite series_arith_num).
  erewrite py_bind_Ok by (rewrite run_lift; by rewrite series_scalar_num).
  erewrite py_bind_Ok by (rewrite run_lift; by rewrite series_arith_num).
  erewrite py_bind_Ok by (erewrite run_df_getitem by done; by rewrite Htv).
  erewrite py_bind_Ok by (rewrite run_lift; by rewrite series_arith_num).
  rewrite density_columnwise.
  apply run_df_setitem; [done|].
  rewrite length_fmap, length_zip_with. lia.
Qed.

Lemma div_by_zero_inf_or_nan x z :
  F64.is_zero z = true →
  F64.is_inf (F64.div x z) = true ∨ F64.is_nan (F64.div x z) = true.
Proof. destruct z; try done. intros _. destruct x; simpl; auto. Qed.





(** ** Loops that never raise *)

Lemma for_each_invariant {S X} (I : list X → S → Prop) (body : X → Py S unit) l s :
  I [] s →
  (∀ pre x post s, l = pre ++ x :: post → I pre s →
     ∃ s', body x s = (s', Ok ()) ∧ I (pre ++ [x]) s') →
  ∃ s', for_each l body s = (s', Ok ()) ∧ I l s'.
Proof.
  intros Hs Hbody.
  assert (∀ k pre s, l = pre ++ k → I pre s →
            ∃ s', for_each k body s = (s', Ok ()) ∧ I (pre ++ k) s') as Hgen.
  { induction k as [|x k IH]; intros pre s0 Hk Hpre; simpl.
    - exists s0. by rewrite app_nil_r.
    - destruct (Hbody pre x k s0) as (s1 & Hrun & Hs1); [done..|].
      destruct (IH (pre ++ [x]) s1) as (s2 & Hrest & Hs2);
        [by rewrite <- app_assoc|done|].
      exists s2. rewrite <- app_assoc in Hs2. split; [|done].
      by erewrite py_bind_Ok by exact Hrun. }
  by apply (Hgen l [] s).
Qed.

Lemma seq_split_index n (pre post : list nat) x :
  seq 0 n = pre ++ x :: post → x = length pre ∧ x < n.
Proof.
  intros Hsplit.
  assert (seq 0 n !! length pre = Some x) as Hx.
  { rewrite Hsplit. by rewrite list_lookup_middle. }
  apply lookup_seq in Hx as [? ?]. simpl in *. lia.
Qed.

(** ** The scatter matrix *)

Lemma acts_on_axes i j f : acts_on i j f id (on_axes i j f).
Proof.
  intros fig. eexists. split; [done|]. simpl.
  repeat split; try done.
  - by rewrite decide_True.
  - intros i' j' Hne. by rewrite decide_False.
Qed.

Lemma acts_on_set_xscale i j s : acts_on i j id (λ _, s) (set_xscale j s).
Proof.
  intros fig. eexists. split; [done|]. simpl.
  repeat split; try done.
  - by rewrite decide_True.
  - intros j' Hne. by rewrite decide_False.
Qed.

Lemma acts_on_ret i j : acts_on i j id id (mret ()).
Proof. intros fig. by exists fig. Qed.

Lemma acts_on_bind i j fa fx ga gx (m k : Py figure unit) :
  acts_on i j fa fx m → acts_on i j ga gx k →
  acts_on i j (ga ∘ fa) (gx ∘ fx) (m;; k).
Proof.
  intros Hm Hk fig.
  destruct (Hm fig) as (fig1 & Hrun1 & Hs1 & Ha1 & Ho1 & Hx1 & Hy1).
  destruct (Hk fig1) as (fig2 & Hrun2 & Hs2 & Ha2 & Ho2 & Hx2 & Hy2).
  exists fig2. split; [by erewrite py_bind_Ok by exact Hrun1|].
  repeat split.
  - congruence.
  - simpl. congruence.
  - intros i' j' Hne. rewrite Ho2, Ho1; done.
  - simpl. congruence.
  - intros j' Hne. rewrite Hy2, Hy1; done.
Qed.

Lemma acts_on_when i j fa fx (b : bool) (m : Py figure unit) :
  acts_on i j fa fx m →
  acts_on i j (if b then fa else id) (if b then fx else id) (when b m).
Proof. destruct b; [done|]. intros _. apply acts_on_ret. Qed.

Lemma acts_on_lift_bind {X} i j fa fx (x : X) (k : X → Py figure unit) :
  acts_on i j fa fx (k x) → acts_on i j fa fx (lift (Ok x) ≫= k).
Proof. done. Qed.

Ltac acts_on_steps :=
  repeat first
    [ apply acts_on_lift_bind
    | eapply acts_on_bind
    | eapply acts_on_when
    | apply acts_on_axes
    | apply acts_on_set_xscale
    | apply acts_on_ret ].

Lemma matrix_cell_acts data cols i j ci cj :
  cols !! (i + 1) = Some ci → cols !! (j + 1) = Some cj →
  ∃ fa fx,
    acts_on i j fa fx (matrix_cell data cols i j) ∧
    (i = j →
       ax_visible (fa new_axes) = true ∧ ax_yscale (fa new_axes) = Linear ∧
       ax_artists (fa new_axes) = [Kde data ci "Unit Cell"] ∧
       ∀ s, fx s = if decide (ci = "Nu12") then s else Log) ∧
    (i < j →
       ax_visible (fa new_axes) = false ∧ ax_artists (fa new_axes) = [] ∧
       ∀ s, fx s = s) ∧
    (j < i →
       ax_visible (fa new_axes) = true ∧
       ax_yscale (fa new_axes) = (if decide (ci = "Nu12") then Linear else Log) ∧
       ax_artists (fa new_axes) = [ScatterPlot data cj ci "Unit Cell"] ∧
       ∀ s, fx s = if decide (cj = "Nu12") then s else Log).
Proof.
  intros Hci Hcj. unfold matrix_cell.
  destruct (decide (i = j)) as [<-|Hne]; [|destruct (decide (i < j)) as [Hlt|Hge]].
  - unfold iloc, kdeplot, set_ylabel, set_xlabel, yaxis_set_visible, add_artist.
    rewrite Hci. eexists _, _. split; [acts_on_steps|].
    split; [intros _|split; intros; lia].
    destruct (decide (ci = "Nu12")), (bool_decide (i < 3)); done.
  - unfold set_visible. eexists _, _. split; [acts_on_steps|].
    split; [intros; lia|split; [done|intros; lia]].
  - unfold iloc, scatterplot, set_ylabel, set_xlabel, set_yscale, add_artist.
    rewrite Hci, Hcj. eexists _, _. split; [acts_on_steps|].
    split; [intros; lia|split; [intros; lia|intros _]].
    destruct (decide (ci = "Nu12")), (decide (cj = "Nu12")),
      (bool_decide (0 < j)), (bool_decide (i < 3)); done.
Qed.

Lemma matrix_cell_step data cols n seen fig i j :
  n < length cols → i < n → j < n → ¬ seen i j →
  matrix_inv data cols n seen fig →
  ∃ fig', matrix_cell data cols i j fig = (fig', Ok ()) ∧
          matrix_inv data cols n (λ i' j', seen i' j' ∨ (i' = i ∧ j' = j)) fig'.
Proof.
  intros Hn Hi Hj Hnew (Hshape & Hfresh & Hdiag & Hup & Hlow & Hx1 & Hx2).
  destruct (lookup_lt_is_Some_2 cols (i + 1)) as [ci Hci]; [lia|].
  destruct (lookup_lt_is_Some_2 cols (j + 1)) as [cj Hcj]; [lia|].
  destruct (matrix_cell_acts data cols i j ci cj Hci Hcj)
    as (fa & fx & Hact & Hd & Hu & Hl).
  destruct (Hact fig) as (fig' & Hrun & Hs' & Ha' & Ho' & Hx' & Hy').
  rewrite (Hfresh i j Hnew) in Ha'.
  exists fig'. split; [done|].
  assert (Hold : ∀ i' j', seen i' j' → fig_axes fig' i' j' = fig_axes fig i' j').
  { intros i' j' Hseen. apply Ho'. intros [-> ->]. done. }
  assert (Hxkeep : ∀ j', fig_xscale fig j' = Log → fig_xscale fig' j' = Log).
  { intros j' Hlog. destruct (decide (j' = j)) as [->|Hne]; [|by rewrite Hy'].
    rewrite Hx', Hlog.
    destruct (Nat.lt_trichotomy i j) as [Hlt|[Heq|Hgt]].
    - by apply Hu.
    - destruct (Hd Heq) as (_ & _ & _ & Hfx); rewrite Hfx. by case_decide.
    - destruct (Hl Hgt) as (_ & _ & _ & Hfx); rewrite Hfx. by case_decide. }
  split; [congruence|]. split; [|split; [|split; [|split; [|split]]]].
  - intros i' j' Hns. rewrite Ho' by (intros [-> ->]; apply Hns; auto).
    apply Hfresh. intros ?. apply Hns. auto.
  - intros i' Hi' [Hseen|[-> <-]].
    + rewrite Hold by done. by apply Hdiag.
    + rewrite Ha'. destruct (Hd eq_refl) as (? & ? & ? & _). eauto.
  - intros i' j' Hlt Hj' [Hseen|[-> ->]].
    + rewrite Hold by done. by apply Hup.
    + rewrite Ha'. destruct (Hu Hlt) as (? & ? & _). done.
  - intros i' j' Hlt Hi' [Hseen|[-> ->]].
    + rewrite Hold by done. by apply Hlow.
    + rewrite Ha'. destruct (Hl Hlt) as (? & Hy & ? & _).
      split; [done|]. split; [|eauto]. rewrite Hy. unfold log_column.
      case_decide as Hnu; split; try done.
      * intros (c & Hc & Hne). congruence.
      * eauto.
  - intros j' Hlog. destruct (decide (j' = j)) as [->|Hne];
      [|rewrite Hy' in Hlog by done; by apply Hx1].
    rewrite Hx' in Hlog.
    assert (Hcase : fx (fig_xscale fig j) = fig_xscale fig j
                    ∨ cj ≠ "Nu12").
    { destruct (Nat.lt_trichotomy i j) as [Hlt|[Heq|Hgt]].
      - left. by apply Hu.
      - destruct (Hd Heq) as (_ & _ & _ & Hfx); rewrite Hfx. subst j.
        assert (ci = cj) as -> by congruence. case_decide; auto.
      - destruct (Hl Hgt) as (_ & _ & _ & Hfx); rewrite Hfx. case_decide; auto. }
    destruct Hcase as [Heq|Hnu].
    + apply Hx1. congruence.
    + exists cj. done.
  - intros i' j' Hle Hi' [Hseen|[-> ->]] Hlogc.
    + apply Hxkeep. by eapply Hx2.
    + rewrite Hx'. destruct Hlogc as (c & Hc & Hne).
      assert (c = cj) as -> by congruence.
      destruct (decide (i = j)) as [Heq|Hneq].
      * destruct (Hd Heq) as (_ & _ & _ & Hfx); rewrite Hfx. subst j.
        assert (ci = cj) as -> by congruence. by rewrite decide_False.
      * destruct (Hl ltac:(lia)) as (_ & _ & _ & Hfx); rewrite Hfx. by rewrite decide_False.
Qed.

Lemma matrix_inv_equiv data cols n seen seen' fig :
  (∀ i j, seen i j ↔ seen' i j) →
  matrix_inv data cols n seen fig → matrix_inv data cols n seen' fig.
Proof.
  intros Heq (Hshape & Hfresh & Hdiag & Hup & Hlow & Hx1 & Hx2).
  split; [done|]. split; [|split; [|split; [|split; [|split]]]].
  - intros i j Hns. apply Hfresh. by rewrite Heq.
  - intros i Hi Hs. apply Hdiag; [done|]. by rewrite Heq.
  - intros i j ?? Hs. apply Hup; try done. by rewrite Heq.
  - intros i j ?? Hs. apply Hlow; try done. by rewrite Heq.
  - done.
  - intros i j ?? Hs. apply (Hx2 i j); try done. by rewrite Heq.
Qed.

Lemma matrix_row data cols n i fig :
  n < length cols → i < n →
  matrix_inv data cols n (λ i' j', i' < i ∧ j' < n) fig →
  ∃ fig', for_each (seq 0 n) (λ j, matrix_cell data cols i j) fig = (fig', Ok ()) ∧
          matrix_inv data cols n (λ i' j', i' < S i ∧ j' < n) fig'.
Proof.
  intros Hn Hi Hinv.
  destruct (for_each_invariant
    (λ pre, matrix_inv data cols n
              (λ i' j', (i' < i ∧ j' < n) ∨ (i' = i ∧ j' < length pre)))
    (λ j, matrix_cell data cols i j) (seq 0 n) fig) as (fig' & Hrun & Hinv').
  - eapply matrix_inv_equiv; [|exact Hinv]. intros i' j'. simpl. lia.
  - intros pre j post fig0 Hsplit Hinv0.
    apply seq_split_index in Hsplit as [-> Hj].
    destruct (matrix_cell_step data cols n
                (λ i' j', (i' < i ∧ j' < n) ∨ (i' = i ∧ j' < length pre))
                fig0 i (length pre) Hn Hi Hj)
      as (fig1 & Hrun1 & Hinv1); [lia|exact Hinv0|].
    exists fig1. split; [done|].
    eapply matrix_inv_equiv; [|exact Hinv1].
    intros i' j'. rewrite length_app. simpl. lia.
  - exists fig'. split; [done|].
    eapply matrix_inv_equiv; [|exact Hinv'].
    intros i' j'. rewrite length_seq. lia.
Qed.

Lemma run_scatter_matrix data cols n :
  n < length cols →
  ∃ fig, scatter_matrix data cols (subplots n n) = (fig, Ok ()) ∧
         matrix_inv data cols n (λ i j, i < n ∧ j < n) fig.
Proof.
  intros Hn. unfold scatter_matrix, over_grid. simpl.
  destruct (for_each_invariant
    (λ pre, matrix_inv data cols n (λ i' j', i' < length pre ∧ j' < n))
    (λ i, for_each (seq 0 n) (λ j, matrix_cell data cols i j))
    (seq 0 n) (subplots n n)) as (fig & Hrun & Hinv).
  - split; [done|]. split; [done|].
    split; [simpl; intros; lia|]. split; [simpl; intros; lia|].
    split; [simpl; intros; lia|]. split; [done|simpl; intros; lia].
  - intros pre i post fig0 Hsplit Hinv0.
    apply seq_split_index in Hsplit as [-> Hi].
    destruct (matrix_row data cols n (length pre) fig0 Hn Hi Hinv0)
      as (fig1 & Hrun1 & Hinv1).
    exists fig1. split; [done|].
    eapply matrix_inv_equiv; [|exact Hinv1].
    intros i' j'. rewrite length_app. simpl. lia.
  - exists fig. split; [done|].
    eapply matrix_inv_equiv; [|exact Hinv].
    intros i' j'. rewrite length_seq. lia.
Qed.

(** C7. On an [n] by [n] grid whose columns share their x axis, with at
    least [n + 1] frame columns, the first double loop never raises and
    leaves: on the diagonal one kernel density estimate of the column,
    split by [Unit Cell], on a linear y axis; above the diagonal a hidden,
    empty axes; below it one scatter of the column of the grid column
    against the column of the grid row, split by [Unit Cell].  The y axis of
    a scatter is logarithmic exactly when its column is not ['Nu12'], and so
    is the x axis of every shown axes. *)
Theorem scatter_matrix_layout data cols n :
  n < length cols →
  ∃ fig,
    scatter_matrix data cols (subplots n n) = (fig, Ok ()) ∧
    ∀ i j cx cy, i < n → j < n →
      cols !! (j + 1) = Some cx → cols !! (i + 1) = Some cy →
      let ax := fig_axes fig i j in
      (i = j →
         ax_visible ax = true ∧ ax_artists ax = [Kde data cx "Unit Cell"] ∧
         ax_yscale ax = Linear ∧
         (fig_xscale fig j = Log ↔ cx ≠ "Nu12")) ∧
      (i < j → ax_visible ax = false ∧ ax_artists ax = []) ∧
      (j < i →
         ax_visible ax = true ∧
         ax_artists ax = [ScatterPlot data cx cy "Unit Cell"] ∧
         (fig_xscale fig j = Log ↔ cx ≠ "Nu12") ∧
         (ax_yscale ax = Log ↔ cy ≠ "Nu12")).
Proof.
  intros Hn.
  destruct (run_scatter_matrix data cols n Hn)
    as (fig & Hrun & Hshape & Hfresh & Hdiag & Hup & Hlow & Hx1 & Hx2).
  exists fig. split; [done|].
  intros i j cx cy Hi Hj Hcx Hcy ax.
  assert (Hlog : ∀ k c, cols !! (k + 1) = Some c → log_column cols k ↔ c ≠ "Nu12").
  { intros k c Hc. unfold log_column. split.
    - intros (c' & Hc' & Hne). congruence.
    - eauto. }
  assert (Hx : (j ≤ i)%nat → fig_xscale fig j = Log ↔ cx ≠ "Nu12").
  { intros Hle. rewrite <- (Hlog j cx Hcx). split; [apply Hx1|].
    by apply (Hx2 i j). }
  split; [|split].
  - intros ->. destruct (Hdiag j Hj) as (? & ? & c & Hc & ?); [done|].
    assert (c = cx) as -> by congruence. auto.
  - intros Hlt. by apply Hup.
  - intros Hlt. destruct (Hlow i j Hlt Hi) as (? & Hy & cx' & cy' & ? & ? & ?);
      [done|].
    assert (cx' = cx) as -> by congruence.
    assert (cy' = cy) as -> by congruence.
    split; [done|]. split; [done|]. split; [apply Hx; lia|].
    by rewrite <- (Hlog i cy Hcy).
Qed.

(** ** [plotting_presets] *)

Lemma run_rc key value p :
  rc key value p = (mkPresets (<[key := value]> (rc_params p)) (line_magics p), Ok ()).
Proof. done. Qed.

(** Lines 43-48, the part of [plotting_presets] before the selector is
    looked at, in a process that gets through them. *)
Lemma run_spyder_branch os_environ ip p :
  spyder_ready os_environ ip →
  (if decide ("SPY_PYTHONPATH" ∈ os_environ) then
     shell ← lift (get_ipython ip);
     run_line_magic shell "matplotlib" "qt"
   else mret ()) p
  = (mkPresets (rc_params p)
       (line_magics p ++
        if decide ("SPY_PYTHONPATH" ∈ os_environ)
        then [("matplotlib", "qt")] else []), Ok ()).
Proof.
  intros Hready. destruct p as [rcp magics]. case_decide as Hspy.
  - destruct (Hready Hspy) as (magic & -> & Hmagic).
    unfold mbind, Py_bind, lift, get_ipython, run_line_magic.
    by rewrite Hmagic.
  - cbn. by rewrite app_nil_r.
Qed.

(** The same lines in a process that does not. *)
Lemma run_spyder_branch_fails os_environ ip p :
  ¬ spyder_ready os_environ ip →
  ∃ e,
    (if decide ("SPY_PYTHONPATH" ∈ os_environ) then
       shell ← lift (get_ipython ip);
       run_line_magic shell "matplotlib" "qt"
     else mret ()) p = (p, Raise e) ∧
    match ip with
    | NotInstalled => e = ModuleNotFoundError "IPython"
    | NoShell => e = AttributeError "run_line_magic"
    | Shell magic => magic "matplotlib" "qt" = Raise e
    end.
Proof.
  intros Hnot. case_decide as Hspy; [|destruct Hnot; by intros ?].
  unfold mbind, Py_bind, lift, get_ipython, run_line_magic.
  destruct ip as [| |magic]; [by eexists..|].
  destruct (magic "matplotlib" "qt") as [[]|e] eqn:Hmagic; [|by eexists].
  destruct Hnot. intros _. by exists magic.
Qed.

(** In a process that gets through lines 43-48 the result of
    [plotting_presets] depends on the selector alone: [None] for the two
    it knows, in any letter case, and the exception of line 64 for every
    other one. *)
Lemma plotting_presets_outcome os_environ ip figure_type p :
  spyder_ready os_environ ip →
  (plotting_presets os_environ ip figure_type p).2
  = if decide (known_figure_type figure_type) then Ok () else Raise TypeError.
Proof.
  intros Hready. unfold plotting_presets, known_figure_type.
  pose proof (run_spyder_branch os_environ ip p Hready) as Hrun.
  set (p' := mkPresets _ _) in Hrun. clearbody p'.
  erewrite py_bind_Ok by exact Hrun.
  destruct (decide (str_lower figure_type = "publication")) as [Hpub|Hpub].
  - rewrite decide_True by auto. reflexivity.
  - destruct (decide (str_lower figure_type = "presentation")) as [Hpres|Hpres].
    + rewrite decide_True by auto. reflexivity.
    + rewrite decide_False by (intros [?|?]; done). reflexivity.
Qed.

Example plotting_presets_selectors :
  (plotting_presets ∅ NoShell "PUBLICATION" (mkPresets ∅ [])).2 = Ok () ∧
  (plotting_presets ∅ NoShell "Presentation" (mkPresets ∅ [])).2 = Ok ().
Proof. split; vm_compute; reflexivity. Qed.

(** C6. In a process that gets through lines 43-48 (one that is not
    Spyder's, or one with a running IPython shell), [plotting_presets]
    returns for the two selectors it knows, matched in any letter case, and
    raises for every other one.  What it raises is not the [ValueError]
    line 64 names: the operand of that [raise] is a tuple, not an
    exception, and Python answers with a [TypeError].  So does
    [plotting_presets('poster')] under the plain interpreter.  With
    [SPY_PYTHONPATH] set and no running shell the call raises before the
    selector is looked at, whatever the selector. *)
Theorem plotting_presets_raises_TypeError :
  (∀ os_environ ip figure_type p,
     spyder_ready os_environ ip →
     (plotting_presets os_environ ip figure_type p).2
     = if decide (str_lower figure_type = "publication" ∨
                  str_lower figure_type = "presentation")
       then Ok () else Raise TypeError) ∧
  (plotting_presets ∅ NoShell "poster" (mkPresets ∅ [])).2 = Raise TypeError ∧
  (plotting_presets ∅ NotInstalled "poster" (mkPresets ∅ [])).2
  = Raise TypeError ∧
  (plotting_presets {["SPY_PYTHONPATH"]} (Shell any_magic) "poster"
     (mkPresets ∅ [])).2 = Raise TypeError ∧
  Raise TypeError ≠ @Raise unit ValueError ∧
  (∀ os_environ ip figure_type p,
     ¬ spyder_ready os_environ ip →
     ∃ e, plotting_presets os_environ ip figure_type p = (p, Raise e) ∧
          match ip with
          | NotInstalled => e = ModuleNotFoundError "IPython"
          | NoShell => e = AttributeError "run_line_magic"
          | Shell magic => magic "matplotlib" "qt" = Raise e
          end).
Proof.
  split; [|split; [|split; [|split; [|split]]]].
  - intros os_environ ip figure_type p Hready.
    rewrite plotting_presets_outcome by done. unfold known_figure_type.
    repeat case_decide; tauto.
  - vm_compute. reflexivity.
  - vm_compute. reflexivity.
  - vm_compute. reflexivity.
  - discriminate.
  - intros os_environ ip figure_type p Hnot.
    destruct (run_spyder_branch_fails os_environ ip p Hnot) as (e & Hrun & He).
    exists e. split; [|done]. unfold plotting_presets.
    by erewrite py_bind_Raise by exact Hrun.
Qed.

(** ** [draw_guideline] *)

Lemma linspace_length start stop num : length (linspace start stop num) = num.
Proof.
  unfold linspace. repeat case_decide; repeat case_match;
    rewrite ?length_insert, !length_fmap, length_seq; done.
Qed.

Lemma iloc_Ok {X} (l : list X) i x : l !! i = Some x → iloc l i = Ok x.
Proof. unfold iloc. by intros ->. Qed.

Lemma run_call c (t : list plot_call) : call c t = (t ++ [c], Ok ()).
Proof. done. Qed.

Lemma list_of_length_5 {X} (l : list X) :
  length l = 5 → ∃ a b c d e, l = [a; b; c; d; e].
Proof.
  destruct l as [|a [|b [|c [|d [|e [|]]]]]]; simpl; try lia. eauto 10.
Qed.

Lemma linspace_5 start stop :
  linspace start stop 5
  = let delta := F64.sub stop start in
    let step := F64.div delta (F64.of_Z 4) in
    let scaled v :=
      if F64.eqb step (F64.of_Z 0)
      then F64.mul (F64.div v (F64.of_Z 4)) delta else F64.mul v step in
    [F64.add (scaled (F64.of_Z 0)) start; F64.add (scaled (F64.of_Z 1)) start;
     F64.add (scaled (F64.of_Z 2)) start; F64.add (scaled (F64.of_Z 3)) start;
     stop].
Proof.
  unfold linspace. cbv zeta. rewrite decide_True by lia.
  change (Z.of_nat (5 - 1)) with 4%Z.
  destruct (F64.eqb _ _); reflexivity.
Qed.


(** ** [draw_plot] *)

Lemma col_lookup_fmap_data (f : Series → Series) c l :
  col_lookup c (prod_map id f <$> l) = f <$> col_lookup c l.
Proof.
  induction l as [|[c' s] l IH]; [done|].
  rewrite fmap_cons. unfold prod_map at 1. simpl. rewrite IH.
  by case_decide.
Qed.

Lemma getitem_bool_index df mask c s :
  getitem df c = Ok s → getitem (bool_index df mask) c = Ok (mask_filter mask s).
Proof.
  rewrite !getitem_Ok. unfold bool_index. cbn [df_cols].
  rewrite col_lookup_fmap_data. by intros ->.
Qed.

Lemma to_floats_mask_filter mask s xs :
  to_floats s = Ok xs → to_floats (mask_filter mask s) = Ok (mask_filter mask xs).
Proof.
  revert mask xs. induction s as [|[x|t] s IH]; intros mask xs; simpl.
  - intros [= <-]. by destruct mask.
  - destruct (to_floats s) as [ys|] eqn:Hs; simpl; [|done].
    intros [= <-]. destruct mask as [|[] mask]; simpl; [done| |].
    + by rewrite (IH mask ys).
    + by apply IH.
  - done.
Qed.

Lemma to_floats_length s xs : to_floats s = Ok xs → length xs = length s.
Proof.
  revert xs. induction s as [|[x|t] s IH]; intros xs; simpl.
  - by intros [= <-].
  - destruct (to_floats s) as [ys|]; simpl; [|done].
    intros [= <-]. simpl. by rewrite (IH ys).
  - done.
Qed.

Lemma float_column_Ok df c xs :
  float_column df c = Ok xs ↔ ∃ s, getitem df c = Ok s ∧ to_floats s = Ok xs.
Proof.
  unfold float_column. destruct (getitem df c) as [s|e]; simpl.
  - split; [eauto|]. by intros (s' & [= <-] & ?).
  - split; [done|]. by intros (? & ? & ?).
Qed.

Lemma float_column_bool_index df mask c xs :
  float_column df c = Ok xs →
  float_column (bool_index df mask) c = Ok (mask_filter mask xs).
Proof.
  rewrite !float_column_Ok. intros (s & Hs & Hxs).
  exists (mask_filter mask s).
  split; [by apply getitem_bool_index|by apply to_floats_mask_filter].
Qed.

Lemma float_column_length df c xs :
  df_wf df → float_column df c = Ok xs → length xs = df_len df.
Proof.
  intros Hwf (s & Hs%getitem_Ok & Hxs%to_floats_length)%float_column_Ok.
  rewrite Hxs. by eapply wf_col_length.
Qed.

Lemma length_mask_filter {X} mask (l : list X) :
  length mask = length l → length (mask_filter mask l) = count_true mask.
Proof.
  unfold count_true. revert l.
  induction mask as [|b mask IH]; intros [|x l] Hlen; try done.
  injection Hlen as Hlen. cbn [mask_filter]. destruct b.
  - rewrite filter_cons_True by done. simpl. by rewrite (IH l).
  - rewrite filter_cons_False by done. by apply IH.
Qed.

Lemma count_calls_app f t1 t2 :
  count_calls f (t1 ++ t2) = count_calls f t1 + count_calls f t2.
Proof. unfold count_calls. by rewrite filter_app, length_app. Qed.

Lemma count_calls_all f t :
  Forall (λ c, f c = true) t → count_calls f t = length t.
Proof.
  unfold count_calls. induction 1 as [|c t Hc _ IH]; [done|].
  rewrite filter_cons_True by done. simpl. by rewrite IH.
Qed.

Lemma count_calls_none f t :
  Forall (λ c, f c = false) t → count_calls f t = 0.
Proof.
  unfold count_calls. induction 1 as [|c t Hc _ IH]; [done|].
  by rewrite filter_cons_False by congruence.
Qed.

Lemma ellipses_counts k k' es :
  Forall (λ c, is_ellipse_of k' c = true) es →
  count_calls (is_ellipse_of k) es = (if decide (k = k') then length es else 0) ∧
  count_calls (is_hull_of k) es = 0 ∧
  count_calls is_scatter es = 0.
Proof.
  intros Hes. split; [|split].
  - case_decide as Hk; subst.
    + by apply count_calls_all.
    + apply count_calls_none. eapply Forall_impl; [exact Hes|].
      intros [] Hc; simpl in *; try done.
      apply bool_decide_eq_true in Hc. subst.
      by rewrite bool_decide_eq_false.
  - apply count_calls_none. eapply Forall_impl; [exact Hes|]. by intros [].
  - apply count_calls_none. eapply Forall_impl; [exact Hes|]. by intros [].
Qed.

Section draw_plot.
Variables (x_axis_quantity y_axis_quantity : string).
Variable material_colors : gmap string string.

Lemma run_ellipse_loop k (x_low x_high y_low y_high : list float64) c n t :
  (n ≤ length x_low)%nat → (n ≤ length x_high)%nat →
  (n ≤ length y_low)%nat → (n ≤ length y_high)%nat →
  color_of material_colors k = Ok c →
  ∃ es,
    for_each (seq 0 n) (λ i,
      xl ← lift (iloc x_low i); xh ← lift (iloc x_high i);
      yl ← lift (iloc y_low i); yh ← lift (iloc y_high i);
      face ← lift (color_of material_colors k);
      edge ← lift (color_of material_colors k);
      call (DrawEllipses k [xl; xh] [yl; yh] (face, F64.lit 25 (-2)) edge)) t
    = (t ++ es, Ok ()) ∧
    length es = n ∧ Forall (λ c, is_ellipse_of k c = true) es.
Proof.
  intros Hxl Hxh Hyl Hyh Hc.
  edestruct (for_each_invariant
    (λ (pre : list nat) t', ∃ es, t' = t ++ es ∧ length es = length pre ∧
                       Forall (λ c, is_ellipse_of k c = true) es))
    as (t' & Hrun & es & -> & Hlen & Hes); [| |eexists; split; [exact Hrun|]].
  - exists []. by rewrite app_nil_r.
  - intros pre i post t0 [-> Hi]%seq_split_index (es & -> & Hlen & Hes).
    destruct (lookup_lt_is_Some_2 x_low (length pre)) as [xl Hl1]; [lia|].
    destruct (lookup_lt_is_Some_2 x_high (length pre)) as [xh Hl2]; [lia|].
    destruct (lookup_lt_is_Some_2 y_low (length pre)) as [yl Hl3]; [lia|].
    destruct (lookup_lt_is_Some_2 y_high (length pre)) as [yh Hl4]; [lia|].
    eexists. split.
    + rewrite (iloc_Ok _ _ _ Hl1), (iloc_Ok _ _ _ Hl2),
        (iloc_Ok _ _ _ Hl3), (iloc_Ok _ _ _ Hl4), Hc.
      reflexivity.
    + eexists. split; [by rewrite <- app_assoc|].
      rewrite !length_app, Hlen. split; [done|].
      apply Forall_app. split; [done|].
      constructor; [|done]. simpl. by apply bool_decide_eq_true.
  - split; [by rewrite Hlen, length_seq|done].
Qed.

Lemma run_draw_group_ranges k md t x_low x_high y_low y_high c :
  float_column md (y_axis_quantity +:+ " low") = Ok y_low →
  float_column md (x_axis_quantity +:+ " low") = Ok x_low →
  float_column md (y_axis_quantity +:+ " high") = Ok y_high →
  float_column md (x_axis_quantity +:+ " high") = Ok x_high →
  (df_len md ≤ length x_low)%nat → (df_len md ≤ length x_high)%nat →
  (df_len md ≤ length y_low)%nat → (df_len md ≤ length y_high)%nat →
  color_of material_colors k = Ok c →
  ∃ es X,
    draw_group x_axis_quantity y_axis_quantity material_colors "ranges" k md t
    = (t ++ es ++ [DrawHull k X c], Ok ()) ∧
    length es = df_len md ∧ Forall (λ c, is_ellipse_of k c = true) es.
Proof.
  intros Hyl Hxl Hyh Hxh L1 L2 L3 L4 Hc.
  destruct (run_ellipse_loop k x_low x_high y_low y_high c (df_len md) t)
    as (es & Hloop & Hlen & Hes); try done.
  exists es. eexists. split; [|done].
  unfold draw_group. rewrite decide_True by done.
  rewrite Hyl, Hxl, Hyh, Hxh.
  erewrite py_bind_Ok; [|].
  2:{ do 4 (erewrite py_bind_Ok by (rewrite run_lift; reflexivity)).
      erewrite py_bind_Ok by exact Hloop. reflexivity. }
  rewrite Hc.
  erewrite py_bind_Ok by (rewrite run_lift; reflexivity).
  rewrite run_call. by rewrite <- app_assoc.
Qed.
End draw_plot.

Lemma count_calls_singleton f c : count_calls f [c] = if f c then 1 else 0.
Proof.
  unfold count_calls. destruct (f c) eqn:Hc.
  - by rewrite filter_cons_True.
  - by rewrite filter_cons_False by congruence.
Qed.

Lemma group_keys_spec k s : k ∈ group_keys s ↔ is_group_key k s.
Proof.
  unfold group_keys, is_group_key.
  rewrite merge_sort_Permutation, elem_of_remove_dups, list_elem_of_filter.
  tauto.
Qed.

Lemma group_keys_NoDup s : NoDup (group_keys s).
Proof.
  unfold group_keys. rewrite merge_sort_Permutation. apply NoDup_remove_dups.
Qed.

Lemma rows_with_absent k s : k ∉ s → rows_with k s = 0.
Proof.
  unfold rows_with, count_true. induction s as [|a s IH]; [done|].
  rewrite not_elem_of_cons. intros [Hne Hk]. rewrite fmap_cons.
  rewrite filter_cons_False; [by apply IH|].
  by rewrite bool_decide_eq_false_2 by done.
Qed.

Section draw_plot_groups.
Variables (x_axis_quantity y_axis_quantity : string).
Variable material_colors : gmap string string.
Variable data : DataFrame.
Variables (cats : Series) (x_low x_high y_low y_high : list float64).
Hypothesis data_wf : df_wf data.
Hypothesis category_column : getitem data "Category" = Ok cats.
Hypothesis y_low_column :
  float_column data (y_axis_quantity +:+ " low") = Ok y_low.
Hypothesis x_low_column :
  float_column data (x_axis_quantity +:+ " low") = Ok x_low.
Hypothesis y_high_column :
  float_column data (y_axis_quantity +:+ " high") = Ok y_high.
Hypothesis x_high_column :
  float_column data (x_axis_quantity +:+ " high") = Ok x_high.

Lemma run_groups_ranges ks t :
  NoDup ks → (∀ k, k ∈ ks → ∃ c, color_of material_colors k = Ok c) →
  ∃ t',
    for_each ((λ k, (k, bool_index data ((λ a, bool_decide (a = k)) <$> cats)))
                <$> ks)
      (λ g, draw_group x_axis_quantity y_axis_quantity material_colors
                       "ranges" g.1 g.2) t
    = (t', Ok ()) ∧
    ∀ k,
      count_calls (is_ellipse_of k) t'
      = count_calls (is_ellipse_of k) t
        + (if decide (k ∈ ks) then rows_with k cats else 0) ∧
      count_calls (is_hull_of k) t'
      = count_calls (is_hull_of k) t + (if decide (k ∈ ks) then 1 else 0) ∧
      count_calls is_scatter t' = count_calls is_scatter t.
Proof.
  intros Hnd. revert t. induction Hnd as [|k0 ks Hk0 Hnd IH]; intros t Hcol.
  - exists t. split; [done|]. intros k.
    rewrite !decide_False by apply not_elem_of_nil. lia.
  - destruct (Hcol k0) as [c Hc]; [by left|].
    set (mask := (λ a, bool_decide (a = k0)) <$> cats).
    set (md := bool_index data mask).
    assert (length cats = df_len data) as Hcats.
    { apply getitem_Ok in category_column. by eapply wf_col_length. }
    assert (length mask = df_len data) as Hmask
      by (unfold mask; by rewrite length_fmap).
    assert (df_len md = rows_with k0 cats) as Hmd.
    { unfold md, bool_index, rows_with. cbn [df_len].
      by rewrite take_ge by (fold mask; lia). }
    assert (∀ col xs, float_column data col = Ok xs →
              float_column md col = Ok (mask_filter mask xs) ∧
              (df_len md ≤ length (mask_filter mask xs))%nat) as Hcols.
    { intros col xs Hxs. split; [by apply float_column_bool_index|].
      rewrite length_mask_filter.
      - unfold rows_with in Hmd. fold mask in Hmd. lia.
      - rewrite Hmask. symmetry. by eapply float_column_length. }
    destruct (Hcols _ _ y_low_column) as [C1 L1].
    destruct (Hcols _ _ x_low_column) as [C2 L2].
    destruct (Hcols _ _ y_high_column) as [C3 L3].
    destruct (Hcols _ _ x_high_column) as [C4 L4].
    destruct (run_draw_group_ranges x_axis_quantity y_axis_quantity
                material_colors k0 md t _ _ _ _ c C1 C2 C3 C4 L2 L4 L1 L3 Hc)
      as (es & X & Hrun & Hlen & Hes).
    destruct (IH (t ++ es ++ [DrawHull k0 X c])) as (t' & Hrest & Hcount).
    { intros k Hk. apply Hcol. by right. }
    exists t'. split.
    { rewrite fmap_cons. cbn [for_each].
      erewrite py_bind_Ok by exact Hrun. exact Hrest. }
    intros k. destruct (Hcount k) as (He & Hh & Hs).
    destruct (ellipses_counts k k0 es Hes) as (Ee & Eh & Es).
    rewrite He, Hh, Hs, !count_calls_app, Ee, Eh, Es, !count_calls_singleton.
    simpl. rewrite Hlen, Hmd.
    clear He Hh Hs Ee Eh Es.
    destruct (decide (k = k0)) as [->|Hne].
    + rewrite bool_decide_eq_true_2 by done.
      destruct (decide (k0 ∈ ks)); [done|].
      destruct (decide (k0 ∈ k0 :: ks)) as [_|[]]; [lia|left].
    + rewrite bool_decide_eq_false_2 by congruence.
      destruct (decide (k ∈ ks)) as [Hin|Hout].
      * destruct (decide (k ∈ k0 :: ks)) as [_|[]]; [lia|by right].
      * destruct (decide (k ∈ k0 :: ks)) as [[]%elem_of_cons|_]; [done..|lia].
Qed.
End draw_plot_groups.

Lemma run_draw_group_invalid x y colors data_type k md t :
  data_type ≠ "ranges" → data_type ≠ "values" →
  draw_group x y colors data_type k md t = (t, Raise TypeError).
Proof.
  intros H1 H2. unfold draw_group.
  by rewrite !decide_False by done.
Qed.

(** C4, as the code has it.  In ['ranges'] mode, on a well-formed frame with
    a [Category] column, the four numeric bound columns and a colour for
    every category, [draw_plot] returns after one ellipse call per row of
    each group and one hull call per group, and no scatter call; rows
    without a category belong to no group.  With a [data_type] that is
    neither ['ranges'] nor ['values'] no plotting call is ever made:
    [draw_plot] raises at the first group (a [TypeError], from the [raise]
    of a tuple), raises the [KeyError] of the grouping when there is no
    [Category] column, and returns normally when the frame has no group. *)
Theorem draw_plot_calls :
  (∀ x_axis_quantity y_axis_quantity material_colors data
     cats x_low x_high y_low y_high,
     df_wf data →
     getitem data "Category" = Ok cats →
     float_column data (y_axis_quantity +:+ " low") = Ok y_low →
     float_column data (x_axis_quantity +:+ " low") = Ok x_low →
     float_column data (y_axis_quantity +:+ " high") = Ok y_high →
     float_column data (x_axis_quantity +:+ " high") = Ok x_high →
     (∀ k, is_group_key k cats → ∃ c, color_of material_colors k = Ok c) →
     ∃ trace,
       draw_plot data x_axis_quantity y_axis_quantity material_colors
                 "ranges" [] = (trace, Ok ()) ∧
       ∀ k,
         count_calls (is_ellipse_of k) trace
         = (if decide (is_group_key k cats) then rows_with k cats else 0) ∧
         count_calls (is_hull_of k) trace
         = (if decide (is_group_key k cats) then 1 else 0) ∧
         count_calls is_scatter trace = 0) ∧
  (∀ x_axis_quantity y_axis_quantity material_colors data data_type,
     data_type ≠ "ranges" → data_type ≠ "values" →
     draw_plot data x_axis_quantity y_axis_quantity material_colors
               data_type []
     = ([], match groupby data "Category" with
            | Raise e => Raise e
            | Ok [] => Ok ()
            | Ok (_ :: _) => Raise TypeError
            end)).
Proof.
  split.
  - intros x y colors data cats xl xh yl yh Hwf Hcat Hyl Hxl Hyh Hxh Hcol.
    destruct (run_groups_ranges x y colors data cats xl xh yl yh
                Hwf Hcat Hyl Hxl Hyh Hxh (group_keys cats) [])
      as (trace & Hrun & Hcount).
    { apply group_keys_NoDup. }
    { intros k Hk. by apply Hcol, group_keys_spec. }
    exists trace. split.
    + unfold draw_plot, groupby. rewrite Hcat.
      erewrite py_bind_Ok by (rewrite run_lift; reflexivity). exact Hrun.
    + intros k. destruct (Hcount k) as (He & Hh & Hs).
      rewrite He, Hh, Hs. unfold count_calls. simpl.
      destruct (decide (k ∈ group_keys cats)) as [Hin|Hout].
      * by rewrite !decide_True by by apply group_keys_spec.
      * by rewrite !decide_False by by rewrite <- group_keys_spec.
  - intros x y colors data dt H1 H2. unfold draw_plot.
    destruct (groupby data "Category") as [[|[k md] groups]|e]; try done.
    erewrite py_bind_Ok by (rewrite run_lift; reflexivity).
    cbn [for_each]. apply py_bind_Raise. by apply run_draw_group_invalid.
Qed.

(** C4 fails on a frame without rows: with an unknown [data_type]
    [draw_plot] returns normally. *)
Lemma draw_plot_unknown_mode_returns :
  draw_plot no_materials "Density" "Young Modulus" common_definitions.2 "pie" []
  = ([], Ok ()).
Proof. vm_compute. reflexivity. Qed.

(** ** The script *)

Section emits.
Variable A : effect → Prop.

Lemma emits_only_bind {X Y} (m : Py world X) (f : X → Py world Y) :
  emits_only A m → (∀ x, emits_only A (f x)) → emits_only A (m ≫= f).
Proof.
  intros Hm Hf w. destruct (Hm w) as (n1 & Ho1 & Ha1).
  unfold mbind, Py_bind. destruct (m w) as [w1 [x|e]]; simpl in *.
  - destruct (Hf x w1) as (n2 & Ho2 & Ha2).
    exists (n1 ++ n2). rewrite Ho2, Ho1, app_assoc.
    split; [done|by apply Forall_app].
  - by exists n1.
Qed.

Lemma emits_only_quiet {X} (m : Py world X) :
  (∀ w, w_out (m w).1 = w_out w) → emits_only A m.
Proof. intros Hm w. exists []. by rewrite app_nil_r, Hm. Qed.

Lemma emits_only_heap_op {X} (m : Py heap X) : emits_only A (heap_op m).
Proof.
  apply emits_only_quiet. intros w. unfold heap_op.
  by destruct (m (w_heap w)).
Qed.

Lemma emits_only_fig_op {X} (m : Py figure X) : emits_only A (fig_op m).
Proof.
  apply emits_only_quiet. intros w. unfold fig_op.
  by destruct (m (w_fig w)).
Qed.

Lemma emits_only_lift {X} (r : result X) : emits_only A (lift r).
Proof. by apply emits_only_quiet. Qed.

Lemma emits_only_raise {X} e : emits_only A (py_raise (X := X) e).
Proof. by apply emits_only_quiet. Qed.

Lemma emits_only_ret {X} (x : X) : emits_only A (mret x).
Proof. by apply emits_only_quiet. Qed.

Lemma emits_only_emit e : A e → emits_only A (emit e).
Proof. intros He w. exists [e]. split; [done|by constructor]. Qed.

Lemma emits_only_savefig env path :
  A (SaveFig path) → emits_only A (savefig env path).
Proof.
  intros He w. unfold savefig. destruct (env_savefig env path); simpl.
  - exists [SaveFig path]. split; [done|by constructor].
  - exists []. by rewrite app_nil_r.
Qed.

Lemma emits_only_when b (m : Py world unit) :
  emits_only A m → emits_only A (when b m).
Proof. destruct b; [done|]. intros _. apply emits_only_ret. Qed.

Lemma emits_only_for_each {X} (l : list X) (body : X → Py world unit) :
  (∀ x, emits_only A (body x)) → emits_only A (for_each l body).
Proof.
  intros Hbody. induction l as [|x l IH]; simpl.
  - apply emits_only_ret.
  - apply emits_only_bind; [apply Hbody|done].
Qed.

Lemma emits_only_over_axes (body : nat → nat → Py world unit) :
  (∀ i j, emits_only A (body i j)) → emits_only A (over_axes body).
Proof.
  intros Hbody w. unfold over_axes.
  apply emits_only_for_each. intros i. by apply emits_only_for_each.
Qed.
End emits.

Ltac emits_step :=
  lazymatch goal with
  | |- emits_only _ (heap_op _) => apply emits_only_heap_op
  | |- emits_only _ (fig_op _) => apply emits_only_fig_op
  | |- emits_only _ (lift _) => apply emits_only_lift
  | |- emits_only _ (py_raise _) => apply emits_only_raise
  | |- emits_only _ (mret _) => apply emits_only_ret
  | |- emits_only _ (emit _) => apply emits_only_emit; exact I
  | |- emits_only _ (savefig _ _) => apply emits_only_savefig; reflexivity
  | |- emits_only _ (when _ _) => apply emits_only_when
  | |- emits_only _ (over_axes _) => apply emits_only_over_axes; intros ??
  | |- emits_only _ (for_each _ _) => apply emits_only_for_each; intros ?
  | |- emits_only _ (_ ≫= _) => apply emits_only_bind; [|intros ?]
  end.

Lemma emits_only_until_break env :
  emits_only (before_break_effect env) (script_until_break env).
Proof.
  unfold script_until_break, plot_data_plotting_presets, reference_markers,
    plot_marker, label_cell.
  destruct (env_ipython env); repeat emits_step.
Qed.

Lemma hoare_bind_last {S X Y} (m : Py S X) (f : X → Py S Y) Q :
  (∀ x, hoare (λ _, True) (f x) Q) → (∀ e s, Q (Raise e) s) →
  hoare (λ _, True) (m ≫= f) Q.
Proof.
  intros Hf He. eapply (hoare_bind _ _ _ (λ _ _, True)); [done|..].
  - intros x. apply Hf.
  - intros e s _. apply He.
Qed.

Lemma until_break_ends_with_svg env :
  hoare (λ _, True) (script_until_break env) (svg_saved_last env).
Proof.
  assert (Hraise : ∀ e s, svg_saved_last (X := loc) env (Raise e) s)
    by (by intros e s [x ?]).
  unfold script_until_break.
  do 14 (apply hoare_bind_last; [intros ?|exact Hraise]).
  intros w _. unfold mbind, Py_bind, savefig.
  destruct (env_savefig env (output_path env "svg")); simpl.
  - intros _. simpl. by rewrite last_snoc.
  - by intros [? ?].
Qed.

Lemma path_join_inj a b b' : path_join a b = path_join a b' → b = b'.
Proof.
  unfold path_join. repeat case_decide; try done.
  - by intros ?%(inj (String.app a)).
  - intros ?%(inj (String.app a)). by simplify_eq/=.
Qed.

Lemma png_is_not_svg env : output_path env "png" ≠ output_path env "svg".
Proof.
  unfold output_path. intros Heq%path_join_inj.
  apply (inj (String.app material)) in Heq. discriminate.
Qed.

(** C9, as the code has it.  A run is the part of the script before line
    400 followed by an exception: the one that part raised, or, when it
    got through, the [NameError] of [BREAK], raised right after the SVG file
    was written.  No run goes further: the world a run ends in is the one
    line 400 was reached in, the PNG file is never written and nothing is
    printed. *)
Theorem main_stops_at_BREAK env w :
  let '(w1, r1) := script_until_break env w in
  main env w
  = (w1, match r1 with
         | Ok _ => Raise (NameError "BREAK")
         | Raise e => Raise e
         end) ∧
  ((∃ p, r1 = Ok p) →
     last (w_out w1) = Some (SaveFig (output_path env "svg"))) ∧
  ∃ new, w_out w1 = w_out w ++ new ∧
         Forall (λ e, e ≠ SaveFig (output_path env "png") ∧
                      ∀ label value, e ≠ Print label value) new.
Proof.
  pose proof (until_break_ends_with_svg env w I) as Hlast.
  destruct (emits_only_until_break env w) as (new & Hnew & Hall).
  unfold main, mbind, Py_bind, BREAK, py_raise.
  destruct (script_until_break env w) as [w1 [p|e]]; simpl in *.
  - split; [done|]. split; [done|]. exists new. split; [done|].
    eapply Forall_impl; [exact Hall|]. intros [] He; simpl in *; try done.
    split; [|done]. intros [= ->]. by apply (png_is_not_svg env).
  - split; [done|]. split; [done|]. exists new. split; [done|].
    eapply Forall_impl; [exact Hall|]. intros [] He; simpl in *; try done.
    split; [|done]. intros [= ->]. by apply (png_is_not_svg env).
Qed.

(** C9 fails under the plain interpreter: the run ends at line 127, on the
    [NameError] of [get_ipython], before any file is written. *)
Lemma main_without_ipython :
  main plain_python_env world0 = (world0, Raise (NameError "get_ipython")).
Proof. vm_compute. reflexivity. Qed.

(** Under IPython, with the sample frame, the run does reach line 400: the
    SVG file is the last thing written and the exception is the one of
    [BREAK]. *)
Example main_under_ipython :
  (main sample_env world0).2 = Raise (NameError "BREAK") ∧
  last (w_out (main sample_env world0).1)
  = Some (SaveFig (output_path sample_env "svg")).
Proof. split; vm_compute; reflexivity. Qed.

(** ** What reaches the plot *)

Lemma columns_bool_index df mask : columns (bool_index df mask) = columns df.
Proof.
  unfold columns, bool_index. cbn [df_cols].
  rewrite <- list_fmap_compose. by apply list_fmap_ext; intros ? [??].
Qed.

Lemma columns_select df names df' : select df names = Ok df' → columns df' = names.
Proof.
  unfold select. destruct (first_missing names df); [done|].
  intros [= <-]. apply tabulate_labels.
Qed.

Section has_columns.
Variable names : list string.
Variable p : loc.

Lemma has_columns_new_frame df :
  hoare (has_columns names p) (new_frame df) (λ _, has_columns names p).
Proof.
  intros h (f & Hf & Hc). exists f. split; [|done]. simpl.
  rewrite lookup_insert_ne; [done|]. by eapply not_eq_sym, fresh_ne.
Qed.

Lemma has_columns_df_bool_index l mask :
  hoare (has_columns names p) (df_bool_index l mask) (λ _, has_columns names p).
Proof.
  eapply hoare_bind; [apply kept_frame_of|..]; [|done].
  intros df. apply has_columns_new_frame.
Qed.

Lemma has_columns_filtered mask :
  hoare (has_columns names p) (df_bool_index p mask)
        (λ r h, ∀ l, r = Ok l → has_columns names l h).
Proof.
  intros h (f & Hf & Hc). unfold df_bool_index.
  erewrite py_bind_Ok by by apply run_frame_of.
  simpl. intros l [= <-]. eexists. split; [apply lookup_insert_eq|].
  by rewrite columns_bool_index.
Qed.
End has_columns.

Lemma has_columns_df_select names l :
  hoare (λ _, True) (df_select l names)
        (λ r h, ∀ p, r = Ok p → has_columns names p h).
Proof.
  intros h _. unfold df_select, frame_of, mbind, Py_bind, lift. simpl.
  destruct (h !! l) as [df|]; [|done].
  destruct (select df names) as [df'|] eqn:Hsel; [|done].
  simpl. intros p [= <-]. exists df'. split; [apply lookup_insert_eq|].
  by eapply columns_select.
Qed.

(** Whatever the merged frame, the frame lines 186-238 hand to the plot has
    the five labels of line 211 and no other. *)
Lemma prepare_frames_columns merged_data :
  hoare (λ _, True) (prepare_frames merged_data)
    (λ r h, ∀ d p, r = Ok (d, p) →
       has_columns ["Unit Cell"; "E1"; "E2"; "G12"; "Nu12"] p h).
Proof.
  set (names := ["Unit Cell"; "E1"; "E2"; "G12"; "Nu12"]).
  unfold prepare_frames.
  do 8 (apply hoare_bind_last; [intros ?|done]).
  eapply hoare_bind; [apply has_columns_df_select|..]; [|done].
  intros p1.
  eapply (hoare_weaken _ (has_columns names p1) _ _
            (λ r h, ∀ d p : loc, r = Ok (d, p) → has_columns names p h));
    [|intros h Hh; exact (Hh p1 eq_refl)|done].
  assert (Hraise : ∀ e (h : heap), has_columns names p1 h →
            ∀ (d p : loc), @Raise (loc * loc) e = Ok (d, p) → has_columns names p h)
    by done.
  eapply hoare_bind; [apply hoare_lift_same|intros ?; cbv beta|exact Hraise].
  eapply hoare_bind; [apply kept_df_getitem|intros ?; cbv beta|exact Hraise].
  eapply hoare_bind; [apply hoare_lift_same|intros ?; cbv beta|exact Hraise].
  eapply hoare_bind; [apply kept_df_getitem|intros ?; cbv beta|exact Hraise].
  eapply hoare_bind; [apply hoare_lift_same|intros ?; cbv beta|exact Hraise].
  eapply hoare_bind; [apply has_columns_df_bool_index|intros ?; cbv beta|exact Hraise].
  eapply hoare_bind; [apply kept_df_getitem|intros ?; cbv beta|exact Hraise].
  eapply hoare_bind; [apply hoare_lift_same|intros ?; cbv beta|exact Hraise].
  eapply hoare_bind; [apply has_columns_df_bool_index|intros ?; cbv beta|exact Hraise].
  eapply hoare_bind; [apply kept_df_getitem|intros ?; cbv beta|exact Hraise].
  eapply hoare_bind; [apply hoare_lift_same|intros ?; cbv beta|exact Hraise].
  eapply hoare_bind; [apply kept_df_getitem|intros ?; cbv beta|exact Hraise].
  eapply hoare_bind; [apply hoare_lift_same|intros ?; cbv beta|exact Hraise].
  eapply hoare_bind; [apply has_columns_filtered|intros p2; cbv beta|done].
  apply hoare_ret. intros h Hh d p [= <- <-]. by apply Hh.
Qed.

(** ** Which columns the figure shows *)

Lemma hoare_keep_bind {S X Y} (P : S → Prop) (m : Py S X) (f : X → Py S Y) :
  hoare P m (λ _, P) → (∀ x, hoare P (f x) (λ _, P)) →
  hoare P (m ≫= f) (λ _, P).
Proof. intros Hm Hf. eapply hoare_bind; [exact Hm|exact Hf|done]. Qed.

Lemma hoare_lift_then {S X Y} (P : S → Prop) (r : result X) (f : X → Py S Y) Q :
  (∀ x, r = Ok x → hoare P (f x) Q) → (∀ e s, P s → Q (Raise e) s) →
  hoare P (lift r ≫= f) Q.
Proof.
  intros Hf He. destruct r as [x|e]; intros s Hs.
  - apply (Hf x eq_refl s Hs).
  - by apply He.
Qed.

Lemma hoare_for_each {S X} (P : S → Prop) (l : list X) (body : X → Py S unit) :
  (∀ x, hoare P (body x) (λ _, P)) → hoare P (for_each l body) (λ _, P).
Proof.
  intros Hbody. induction l as [|x l IH]; simpl.
  - by apply hoare_ret.
  - apply hoare_keep_bind; [apply Hbody|by intros _].
Qed.

Lemma hoare_when {S} (P : S → Prop) (b : bool) (m : Py S unit) :
  hoare P m (λ _, P) → hoare P (when b m) (λ _, P).
Proof. destruct b; [done|]. intros _. by apply hoare_ret. Qed.

Lemma hoare_assume {S X} (P : S → Prop) (φ : Prop) (m : Py S X) Q :
  (∀ s, P s → φ) → (φ → hoare P m Q) → hoare P m Q.
Proof. intros Hφ Hm s Hs. apply Hm; [by eapply Hφ|done]. Qed.

Lemma iloc_elem_of {X} (l : list X) i x : iloc l i = Ok x → x ∈ l.
Proof.
  unfold iloc. destruct (l !! i) as [y|] eqn:Hy; [|done].
  intros [= <-]. by eapply list_elem_of_lookup_2.
Qed.

Section shows.
Variable A : list string.

Lemma shows_only_subplots nrows ncols : shows_only A (subplots nrows ncols).
Proof. intros i j a c Ha. simpl in Ha. by apply elem_of_nil in Ha. Qed.

Lemma shows_only_figure_columns fig c :
  shows_only A fig → c ∈ figure_columns fig → c ∈ A.
Proof.
  intros Hfig. unfold figure_columns.
  intros (i & Hc & _)%list_elem_of_bind.
  apply list_elem_of_bind in Hc as (j & Hc & _).
  apply list_elem_of_bind in Hc as (a & Hc & Ha).
  by eapply Hfig.
Qed.

Lemma shows_only_on_axes i j f :
  (∀ a x, x ∈ ax_artists (f a) →
          x ∈ ax_artists a ∨ ∀ c, c ∈ artist_columns x → c ∈ A) →
  hoare (shows_only A) (on_axes i j f) (λ _, shows_only A).
Proof.
  intros Hf fig Hfig i' j' a c Ha Hc. simpl in Ha.
  destruct (decide (i' = i ∧ j' = j)) as [_|_].
  - destruct (Hf _ _ Ha) as [Hold|Hnew]; [by eapply Hfig|by apply Hnew].
  - by eapply Hfig.
Qed.

Lemma shows_only_set_xscale j s :
  hoare (shows_only A) (set_xscale j s) (λ _, shows_only A).
Proof. intros fig Hfig. exact Hfig. Qed.

Lemma shows_only_set_size_inches w h :
  hoare (shows_only A) (set_size_inches w h) (λ _, shows_only A).
Proof. intros fig Hfig. exact Hfig. Qed.

Lemma shows_only_set_yscale i j s :
  hoare (shows_only A) (set_yscale i j s) (λ _, shows_only A).
Proof. apply shows_only_on_axes. intros a x Hx. by left. Qed.

Lemma shows_only_set_visible i j b :
  hoare (shows_only A) (set_visible i j b) (λ _, shows_only A).
Proof. apply shows_only_on_axes. intros a x Hx. by left. Qed.

Lemma shows_only_set_xlabel i j l :
  hoare (shows_only A) (set_xlabel i j l) (λ _, shows_only A).
Proof. apply shows_only_on_axes. intros a x Hx. by left. Qed.

Lemma shows_only_set_ylabel i j l :
  hoare (shows_only A) (set_ylabel i j l) (λ _, shows_only A).
Proof. apply shows_only_on_axes. intros a x Hx. by left. Qed.

Lemma shows_only_xaxis_set_visible i j b :
  hoare (shows_only A) (xaxis_set_visible i j b) (λ _, shows_only A).
Proof. apply shows_only_on_axes. intros a x Hx. by left. Qed.

Lemma shows_only_yaxis_set_visible i j b :
  hoare (shows_only A) (yaxis_set_visible i j b) (λ _, shows_only A).
Proof. apply shows_only_on_axes. intros a x Hx. by left. Qed.

Lemma shows_only_add_artist i j x :
  (∀ c, c ∈ artist_columns x → c ∈ A) →
  hoare (shows_only A) (add_artist i j x) (λ _, shows_only A).
Proof.
  intros Hx. apply shows_only_on_axes. intros a y Hy. simpl in Hy.
  apply elem_of_app in Hy as [Hy|Hy]; [by left|].
  apply list_elem_of_singleton in Hy as ->. by right.
Qed.

Lemma shows_only_kdeplot i j data x hue log_scale :
  x ∈ A → hue ∈ A →
  hoare (shows_only A) (kdeplot i j data x hue log_scale) (λ _, shows_only A).
Proof.
  intros Hx Hhue. unfold kdeplot.
  apply hoare_keep_bind; [apply hoare_when, shows_only_set_xscale|intros _].
  apply hoare_keep_bind; [|intros _].
  { apply shows_only_add_artist. intros c Hc. simpl in Hc. set_solver. }
  apply hoare_keep_bind; [apply shows_only_set_xlabel|intros _].
  apply shows_only_set_ylabel.
Qed.

Lemma shows_only_scatterplot i j data x y hue :
  x ∈ A → y ∈ A → hue ∈ A →
  hoare (shows_only A) (scatterplot i j data x y hue) (λ _, shows_only A).
Proof.
  intros Hx Hy Hhue. unfold scatterplot.
  apply hoare_keep_bind; [|intros _].
  { apply shows_only_add_artist. intros c Hc. simpl in Hc. set_solver. }
  apply hoare_keep_bind; [apply shows_only_set_xlabel|intros _].
  apply shows_only_set_ylabel.
Qed.

Lemma shows_only_matrix_cell data cols i j :
  (∀ c, c ∈ cols → c ∈ A) → "Unit Cell" ∈ A →
  hoare (shows_only A) (matrix_cell data cols i j) (λ _, shows_only A).
Proof.
  intros Hcols Hhue. unfold matrix_cell.
  destruct (decide (i = j)) as [_|_]; [|destruct (decide (i < j)) as [_|_]].
  - apply hoare_lift_then; [intros c _|done]. cbv zeta.
    apply hoare_lift_then; [intros x Hx%iloc_elem_of|done].
    apply hoare_keep_bind; [by apply shows_only_kdeplot; auto|intros _].
    apply hoare_keep_bind; [apply shows_only_set_ylabel|intros _].
    apply hoare_keep_bind; [apply hoare_when, shows_only_set_xlabel|intros _].
    apply shows_only_yaxis_set_visible.
  - apply shows_only_set_visible.
  - apply hoare_lift_then; [intros cy _|done]. cbv zeta.
    apply hoare_lift_then; [intros cx _|done].
    apply hoare_lift_then; [intros x Hx%iloc_elem_of|done].
    apply hoare_lift_then; [intros y Hy%iloc_elem_of|done].
    apply hoare_keep_bind; [by apply shows_only_scatterplot; auto|intros _].
    apply hoare_keep_bind; [apply hoare_when, shows_only_set_xscale|intros _].
    apply hoare_keep_bind; [apply hoare_when, shows_only_set_yscale|intros _].
    apply hoare_keep_bind; [apply hoare_when, shows_only_set_ylabel|intros _].
    apply hoare_when, shows_only_set_xlabel.
Qed.

Lemma shows_only_scatter_matrix data cols :
  (∀ c, c ∈ cols → c ∈ A) → "Unit Cell" ∈ A →
  hoare (shows_only A) (scatter_matrix data cols) (λ _, shows_only A).
Proof.
  intros Hcols Hhue fig Hfig. unfold scatter_matrix, over_grid.
  refine (hoare_for_each (shows_only A) _ _ _ fig Hfig).
  intros i. apply hoare_for_each. intros j.
  by apply shows_only_matrix_cell.
Qed.

(** *** On the world of the script *)

Lemma plots_only_fig_op {X} H (m : Py figure X) :
  hoare (shows_only A) m (λ _, shows_only A) →
  hoare (plots_only A H) (fig_op m) (λ _, plots_only A H).
Proof.
  intros Hm w [Hfig Hheap]. unfold fig_op. specialize (Hm _ Hfig).
  destruct (m (w_fig w)) as [f r]. by split.
Qed.

Lemma plots_only_heap_op {X} H (m : Py heap X) Q :
  hoare H m Q → hoare (plots_only A H) (heap_op m) (λ r, plots_only A (Q r)).
Proof.
  intros Hm w [Hfig Hheap]. unfold heap_op. specialize (Hm _ Hheap).
  destruct (m (w_heap w)) as [h r]. by split.
Qed.

Lemma plots_only_heap_op_any {X} H (m : Py heap X) :
  hoare (plots_only A H) (heap_op m) (λ _, plots_only A (λ _, True)).
Proof.
  intros w [Hfig _]. unfold heap_op.
  destruct (m (w_heap w)) as [h r]. by split.
Qed.

Lemma plots_only_emit H e : hoare (plots_only A H) (emit e) (λ _, plots_only A H).
Proof. by intros w [Hfig Hheap]. Qed.

Lemma plots_only_savefig H env path :
  hoare (plots_only A H) (savefig env path) (λ _, plots_only A H).
Proof.
  intros w [Hfig Hheap]. unfold savefig.
  by destruct (env_savefig env path).
Qed.

Lemma plots_only_raise {X} H e :
  hoare (plots_only A H) (py_raise (X := X) e) (λ _, plots_only A H).
Proof. by intros w Hw. Qed.
End shows.

Ltac plots_step :=
  lazymatch goal with
  | |- hoare _ (lift _ ≫= _) _ => apply hoare_lift_then; [intros ? _|done]
  | |- hoare _ (_ ≫= _) _ => apply hoare_keep_bind; [|intros ?]
  | |- hoare _ (when _ _) _ => apply hoare_when
  | |- hoare _ (for_each _ _) _ => apply hoare_for_each; intros ?
  | |- hoare _ (emit _) _ => apply plots_only_emit
  | |- hoare _ (savefig _ _) _ => apply plots_only_savefig
  | |- hoare _ (py_raise _) _ => apply plots_only_raise
  | |- hoare _ (mret _) _ => by apply hoare_ret
  | |- hoare _ (heap_op _) _ => apply plots_only_heap_op_any
  | |- hoare _ (fig_op (add_artist _ _ _)) _ =>
      apply plots_only_fig_op, shows_only_add_artist; by intros ? ?%elem_of_nil
  | |- hoare _ (fig_op (set_xlabel _ _ _)) _ =>
      apply plots_only_fig_op, shows_only_set_xlabel
  | |- hoare _ (fig_op (set_ylabel _ _ _)) _ =>
      apply plots_only_fig_op, shows_only_set_ylabel
  | |- hoare _ (fig_op (xaxis_set_visible _ _ _)) _ =>
      apply plots_only_fig_op, shows_only_xaxis_set_visible
  | |- hoare _ (fig_op (yaxis_set_visible _ _ _)) _ =>
      apply plots_only_fig_op, shows_only_yaxis_set_visible
  | |- hoare _ (fig_op (set_size_inches _ _)) _ =>
      apply plots_only_fig_op, shows_only_set_size_inches
  end.

Lemma plots_only_label_cell A data_to_plot i j :
  hoare (plots_only A (λ _, True)) (label_cell data_to_plot i j)
        (λ _, plots_only A (λ _, True)).
Proof. unfold label_cell. repeat plots_step. Qed.

Lemma plots_only_reference_markers A compliant :
  hoare (plots_only A (λ _, True)) (reference_markers compliant)
        (λ _, plots_only A (λ _, True)).
Proof. unfold reference_markers, plot_marker. repeat plots_step. Qed.

(** Whatever the environment, the part of the script before line 400
    leaves a figure that shows the five columns of line 211 only. *)
Lemma plots_only_until_break env :
  hoare (plots_only ["Unit Cell"; "E1"; "E2"; "G12"; "Nu12"] (λ _, True))
        (script_until_break env)
        (λ _, plots_only ["Unit Cell"; "E1"; "E2"; "G12"; "Nu12"] (λ _, True)).
Proof.
  set (names := ["Unit Cell"; "E1"; "E2"; "G12"; "Nu12"]).
  unfold script_until_break.
  apply hoare_keep_bind; [|intros _].
  { unfold plot_data_plotting_presets.
    destruct (env_ipython env); repeat plots_step. }
  plots_step. plots_step; [plots_step|].
  eapply hoare_bind;
    [apply plots_only_heap_op, prepare_frames_columns|
     intros [data_to_plot plotting_data_frame]; cbv zeta; cbn [fst snd]|
     by intros e w [Hfig _]].
  apply hoare_lift_then; [intros compliant _|by intros e w [Hfig _]].
  eapply hoare_bind;
    [apply plots_only_fig_op|intros ?; cbv beta|by intros e w [Hfig _]].
  { intros fig _. apply shows_only_subplots. }
  eapply hoare_bind;
    [apply (plots_only_heap_op _ _ _
              (λ r _, ∀ pdf, r = Ok pdf → columns pdf = names))|
     intros pdf|by intros e w [Hfig _]].
  { intros h Hh. destruct (Hh _ _ eq_refl) as (f & Hf & Hc).
    unfold frame_of. rewrite Hf. simpl. by intros pdf [= <-]. }
  apply (hoare_assume _ (columns pdf = names));
    [intros w [_ Hc]; by apply Hc|intros Hpdf; rewrite Hpdf].
  apply (hoare_weaken _ (plots_only names (λ _, True)) _ _
           (λ _, plots_only names (λ _, True)));
    [|by intros w [Hfig _]|done].
  apply hoare_keep_bind; [|intros _].
  { apply plots_only_fig_op, shows_only_scatter_matrix; [done|set_solver]. }
  apply hoare_keep_bind; [|intros _].
  { intros w Hw. unfold over_axes.
    refine (hoare_for_each _ _ _ _ w Hw).
    intros i. apply hoare_for_each. intros j. apply plots_only_label_cell. }
  apply hoare_keep_bind; [apply plots_only_reference_markers|intros _].
  repeat plots_step.
Qed.

Lemma main_state env w : (main env w).1 = (script_until_break env w).1.
Proof.
  unfold main, mbind, Py_bind, BREAK, py_raise.
  by destruct (script_until_break env w) as [w1 [p|e]].
Qed.

(** No run of the script, from an empty world, shows any column but the
    five of line 211. *)
Lemma main_figure_columns env c :
  c ∈ figure_columns (w_fig (main env world0).1) →
  c ∈ ["Unit Cell"; "E1"; "E2"; "G12"; "Nu12"].
Proof.
  rewrite main_state. apply shows_only_figure_columns.
  apply (plots_only_until_break env world0).
  split; [apply shows_only_subplots|done].
Qed.

(** ** Rounding to nearest even: shifts *)

Lemma digits2_pos_bounds p :
  (2 ^ (Z.pos (digits2_pos p) - 1) <= Z.pos p < 2 ^ Z.pos (digits2_pos p))%Z.
Proof.
  induction p as [p IH|p IH|]; cbn [digits2_pos]; [| |done].
  - rewrite Pos2Z.inj_succ. change (Z.pos p~1) with (2 * Z.pos p + 1)%Z.
    replace (Z.succ (Z.pos (digits2_pos p)) - 1)%Z
      with (Z.succ (Z.pos (digits2_pos p) - 1)) by lia.
    rewrite !Z.pow_succ_r by lia. lia.
  - rewrite Pos2Z.inj_succ. change (Z.pos p~0) with (2 * Z.pos p)%Z.
    replace (Z.succ (Z.pos (digits2_pos p)) - 1)%Z
      with (Z.succ (Z.pos (digits2_pos p) - 1)) by lia.
    rewrite !Z.pow_succ_r by lia. lia.
Qed.

Lemma Zdigits2_bounds m :
  (0 < m)%Z → (2 ^ (Zdigits2 m - 1) <= m < 2 ^ Zdigits2 m)%Z.
Proof. destruct m as [|p|p]; [lia| |lia]. intros _. apply digits2_pos_bounds. Qed.

Lemma Zdigits2_nonneg m : (0 <= Zdigits2 m)%Z.
Proof. destruct m; simpl; lia. Qed.



Lemma Zdigits2_le m m' : (0 <= m <= m')%Z → (Zdigits2 m <= Zdigits2 m')%Z.
Proof.
  intros [H0 Hle].
  destruct (decide (m = 0%Z)) as [->|Hm]; [apply Zdigits2_nonneg|].
  pose proof (Zdigits2_bounds m ltac:(lia)) as [Hlo _].
  pose proof (Zdigits2_bounds m' ltac:(lia)) as [_ Hhi].
  destruct (Z.le_gt_cases (Zdigits2 m) (Zdigits2 m')) as [|Hgt]; [done|].
  assert (2 ^ Zdigits2 m' <= 2 ^ (Zdigits2 m - 1))%Z
    by (apply Z.pow_le_mono_r; lia).
  lia.
Qed.











(** ** Powers of two *)










(** ** The error of one rounding *)




(** ** The four operations *)





















(** ** The density in binary64 *)





(** ** The density column: bounds and division by zero *)

Lemma density_cell (h : heap) d df svs tvs :
  h !! d = Some df → df_wf df →
  getitem df "Stiff volume" = Ok (Num <$> svs) →
  getitem df "Total volume" = Ok (Num <$> tvs) →
  ∃ df',
    density_statement d h = (<[d := df']> h, Ok ()) ∧
    ∀ i sv tv, svs !! i = Some sv → tvs !! i = Some tv →
      cell_at df' "Density" i
      = Some (Num (density_formula F64.add F64.sub F64.mul F64.div
                     (mat_rho stiff) (mat_rho compliant_dense) sv tv)).
Proof.
  intros Hd Hwf Hsv Htv. eexists. split.
  - by apply (run_density_statement h d df svs tvs).
  - intros i sv tv Hi Hj. unfold cell_at. cbn [df_cols].
    rewrite col_lookup_assign_eq. simpl.
    by rewrite list_lookup_fmap, lookup_zip_with, Hi, Hj.
Qed.



(** Outside that range the stored value can be anything: the cell whose
    two volumes are [2^-1074] is all stiff material, and its stored
    density is zero, every product having been rounded to zero. *)
Lemma density_of_tiny_cell_is_zero :
  let '(h', r) := density_statement 0 {[0 := tiny_cell]} in
  r = Ok () ∧
  valid_binary F64.prec F64.emax (S754_finite false 1 (-1074)) = true ∧
  F64.div (S754_finite false 1 (-1074)) (S754_finite false 1 (-1074))
  = F64.of_Z 1 ∧
  ∃ df',
    h' !! 0 = Some df' ∧
    cell_at df' "Density" 0 = Some (Num (S754_zero false)).
Proof.
  vm_compute. split; [reflexivity|]. split; [reflexivity|].
  split; [reflexivity|]. eexists. split; reflexivity.
Qed.

(** C8, as the code has it.  On numeric volume columns the density
    statement never raises; where [Total volume] is zero it stores an
    infinity or a NaN in the [Density] field.  That field stays in
    [data_to_plot]: whatever the merged frame, the frame lines 186-238 hand
    to the scatter matrix has the columns [Unit Cell], [E1], [E2], [G12] and
    [Nu12] and no other, and in no run of the script does the figure show a
    column outside these five. *)
Theorem density_division_by_zero_is_silent (h : heap) d df svs tvs :
  h !! d = Some df → df_wf df →
  getitem df "Stiff volume" = Ok (Num <$> svs) →
  getitem df "Total volume" = Ok (Num <$> tvs) →
  ∃ df',
    density_statement d h = (<[d := df']> h, Ok ()) ∧
    (∀ i sv tv, svs !! i = Some sv → tvs !! i = Some tv →
       F64.is_zero tv = true →
       ∃ q, cell_at df' "Density" i = Some (Num q) ∧
            (F64.is_inf q = true ∨ F64.is_nan q = true)) ∧
    (∀ merged_data h0 h1 data_to_plot plotting_data_frame,
       prepare_frames merged_data h0
       = (h1, Ok (data_to_plot, plotting_data_frame)) →
       has_columns ["Unit Cell"; "E1"; "E2"; "G12"; "Nu12"]
                   plotting_data_frame h1) ∧
    (∀ env c,
       c ∈ figure_columns (w_fig (main env world0).1) →
       c ∈ ["Unit Cell"; "E1"; "E2"; "G12"; "Nu12"]).
Proof.
  intros Hd Hwf Hsv Htv.
  destruct (density_cell h d df svs tvs Hd Hwf Hsv Htv) as (df' & Hrun & Hcell).
  exists df'. split; [done|]. split; [|split].
  - intros i sv tv Hi Hj Hz. eexists. split; [by apply Hcell|].
    unfold density_formula. by apply div_by_zero_inf_or_nan.
  - intros m h0 h1 dtp pdf Hprep.
    pose proof (prepare_frames_columns m h0 I) as Hcols.
    rewrite Hprep in Hcols. by apply (Hcols dtp pdf).
  - apply main_figure_columns.
Qed.

(** C8 fails on its last part: in this run design 7 has no volume, its
    density is NaN in [data_to_plot], the run goes all the way to line 400,
    and no axes of the figure shows the [Density] column. *)
Lemma density_is_not_plotted :
  (main sample_env world0).2 = Raise (NameError "BREAK") ∧
  (∃ data_to_plot,
     w_heap (main sample_env world0).1 !! 5 = Some data_to_plot ∧
     cell_at data_to_plot "Total volume" 1 = Some (Num (F64.of_Z 0)) ∧
     cell_at data_to_plot "Density" 1 = Some (Num F64.nan)) ∧
  fig_shape (w_fig (main sample_env world0).1) = (4, 4) ∧
  bool_decide ("Density" ∈ figure_columns (w_fig (main sample_env world0).1))
  = false ∧
  remove_dups (figure_columns (w_fig (main sample_env world0).1))
  = ["E1"; "E2"; "G12"; "Nu12"; "Unit Cell"].
Proof.
  split; [vm_compute; reflexivity|]. split.
  { eexists. split; [vm_compute; reflexivity|].
    split; vm_compute; reflexivity. }
  split; [vm_compute; reflexivity|].
  split; vm_compute; reflexivity.
Qed.

(** ** The theorems at sample inputs *)

Lemma sample_constants_wf : df_wf sample_constants.
Proof. compute_done. Qed.

Lemma sample_merged_wf : df_wf sample_merged.
Proof. compute_done. Qed.

Lemma solid_cell_wf : df_wf solid_cell.
Proof. compute_done. Qed.

Lemma orthonormal_rotation_doubles_witness :
  ∃ h' out df',
    orthonormal_rotation 0 {[0 := sample_constants]} = (h', Ok out) ∧
    h' !! out = Some df' ∧
    df_len df' = 4 ∧
    cell_at df' "E1" 2 = Some (Num (F64.of_Z 1)) ∧
    cell_at df' "E2" 2 = Some (Num (F64.of_Z 2)) ∧
    cell_at df' "Nu12" 2
    = Some (Num (F64.div (F64.mul (F64.lit 3 (-1)) (F64.of_Z 1)) (F64.of_Z 2))).
Proof.
  destruct (orthonormal_rotation_doubles {[0 := sample_constants]} 0
              sample_constants
              [F64.lit 3 (-1); F64.lit 25 (-2)]
              [F64.lit 2 0; F64.lit 4 0]
              [F64.lit 1 0; F64.lit 8 0])
    as (h' & out & df' & Hrun & Hout & Hlen & _ & _ & Hrot & _).
  - reflexivity.
  - exact sample_constants_wf.
  - reflexivity.
  - reflexivity.
  - reflexivity.
  - exists h', out, df'.
    destruct (Hrot 0 (F64.lit 3 (-1)) (F64.lit 2 0) (F64.lit 1 0))
      as (H1 & H2 & H3); try reflexivity.
    repeat split; try assumption.
Defined.

Lemma manufacturing_constraint_relabels_witness :
  ∃ df',
    manufacturing_constraint 0 {[0 := sample_merged]}
    = (<[0 := df']> {[0 := sample_merged]}, Ok ()) ∧
    cell_at df' "Unit Cell" 0 = Some (Str "Re-entrant") ∧
    cell_at df' "Unit Cell" 1 = Some (Str "Violated").
Proof.
  destruct (manufacturing_constraint_relabels {[0 := sample_merged]} 0
              sample_merged
              [F64.lit 6 (-1); F64.lit 4 (-1); F64.lit 7 (-1)]
              (texts ["Re-entrant"; "Lattice"; "Chiral"]))
    as (df' & Hrun & _ & _ & Hrows & _).
  - reflexivity.
  - exact sample_merged_wf.
  - reflexivity.
  - reflexivity.
  - exists df'. split; [exact Hrun|]. split.
    + exact (Hrows 0 _ _ eq_refl eq_refl).
    + exact (Hrows 1 _ _ eq_refl eq_refl).
Defined.


Lemma density_division_by_zero_is_silent_witness :
  ∃ df' q,
    density_statement 0 {[0 := sample_merged]}
    = (<[0 := df']> {[0 := sample_merged]}, Ok ()) ∧
    cell_at df' "Density" 1 = Some (Num q) ∧
    (F64.is_inf q = true ∨ F64.is_nan q = true).
Proof.
  destruct (density_division_by_zero_is_silent {[0 := sample_merged]} 0
              sample_merged
              [F64.lit 7 0; F64.lit 0 0; F64.lit 1 0]
              [F64.lit 7 0; F64.lit 0 0; F64.lit 4 0])
    as (df' & Hrun & Hzero & _).
  - reflexivity.
  - exact sample_merged_wf.
  - reflexivity.
  - reflexivity.
  - destruct (Hzero 1 (F64.of_Z 0) (F64.of_Z 0) eq_refl eq_refl eq_refl)
      as (q & Hq & Hinf).
    exists df', q. repeat split; assumption.
Defined.


Lemma scatter_matrix_layout_witness :
  ∃ fig,
    scatter_matrix 0 ["Unit Cell"; "E1"; "E2"; "G12"; "Nu12"] (subplots 4 4)
    = (fig, Ok ()) ∧
    ax_artists (fig_axes fig 3 0) = [ScatterPlot 0 "E1" "Nu12" "Unit Cell"] ∧
    fig_xscale fig 0 = Log ∧
    ax_yscale (fig_axes fig 3 0) = Linear.
Proof.
  destruct (scatter_matrix_layout 0 ["Unit Cell"; "E1"; "E2"; "G12"; "Nu12"] 4)
    as (fig & Hrun & Hcells).
  - simpl. lia.
  - exists fig. split; [exact Hrun|].
    destruct (Hcells 3 0 "E1" "Nu12") as (_ & _ & Hlow); try reflexivity;
      try lia.
    destruct Hlow as (_ & Hart & Hx & Hy); [lia|].
    split; [exact Hart|]. split.
    + apply Hx. discriminate.
    + destruct (ax_yscale (fig_axes fig 3 0)); [reflexivity|].
      exfalso. by apply Hy.
Defined.

(** * Further properties *)

(** ** [draw_plot]: what is drawn, and where it stops *)

Lemma for_each_ext {S X} (l : list X) (b1 b2 : X → Py S unit) s :
  (∀ x s, b1 x s = b2 x s) → for_each l b1 s = for_each l b2 s.
Proof.
  intros Hb. revert s. induction l as [|x l IH]; intros s; simpl; [done|].
  unfold mbind, Py_bind. rewrite Hb.
  destruct (b2 x s) as [s' [[]|e]]; [apply IH|done].
Qed.

Lemma for_each_fmap {S X Y} (f : X → Y) (l : list X) (body : Y → Py S unit) s :
  for_each (f <$> l) body s = for_each l (λ x, body (f x)) s.
Proof.
  revert s. induction l as [|x l IH]; intros s; csimpl; [done|].
  unfold mbind, Py_bind.
  destruct (body (f x) s) as [s' [[]|e]]; [apply IH|done].
Qed.

Lemma for_each_app {S X} (l1 l2 : list X) (body : X → Py S unit) s s' :
  for_each l1 body s = (s', Ok ()) →
  for_each (l1 ++ l2) body s = for_each l2 body s'.
Proof.
  revert s. induction l1 as [|x l1 IH]; intros s; simpl.
  - by intros [= ->].
  - unfold mbind, Py_bind.
    destruct (body x s) as [s1 [[]|e]]; [apply IH|done].
Qed.

Section draw_plot_trace.
Variables (x_axis_quantity y_axis_quantity : string).
Variable material_colors : gmap string string.

Lemma run_ellipse_loop_exact k c (x_low x_high y_low y_high : list float64) t :
  length x_high = length x_low → length y_low = length x_low →
  length y_high = length x_low →
  color_of material_colors k = Ok c →
  for_each (seq 0 (length x_low)) (λ i,
      xl ← lift (iloc x_low i); xh ← lift (iloc x_high i);
      yl ← lift (iloc y_low i); yh ← lift (iloc y_high i);
      face ← lift (color_of material_colors k);
      edge ← lift (color_of material_colors k);
      call (DrawEllipses k [xl; xh] [yl; yh] (face, F64.lit 25 (-2)) edge)) t
  = (t ++ zip_with (λ x y, DrawEllipses k [x.1; x.2] [y.1; y.2]
                             (c, F64.lit 25 (-2)) c)
            (zip x_low x_high) (zip y_low y_high), Ok ()).
Proof.
  intros H1 H2 H3 Hc. revert x_high y_low y_high t H1 H2 H3.
  induction x_low as [|xl x_low IH];
    intros [|xh x_high] [|yl y_low] [|yh y_high] t H1 H2 H3; simplify_eq/=.
  - by rewrite app_nil_r.
  - erewrite py_bind_Ok by (rewrite Hc; reflexivity).
    rewrite <- fmap_S_seq, for_each_fmap.
    match goal with |- _ = (t ++ ?e :: ?rest, _) =>
      replace (t ++ e :: rest) with ((t ++ [e]) ++ rest)
        by (by rewrite <- app_assoc)
    end.
    rewrite <- (IH x_high y_low y_high) by done.
    by apply for_each_ext.
Qed.

Lemma run_draw_group_ranges_exact k md t x_low x_high y_low y_high c :
  float_column md (y_axis_quantity +:+ " low") = Ok y_low →
  float_column md (x_axis_quantity +:+ " low") = Ok x_low →
  float_column md (y_axis_quantity +:+ " high") = Ok y_high →
  float_column md (x_axis_quantity +:+ " high") = Ok x_high →
  length x_low = df_len md → length x_high = df_len md →
  length y_low = df_len md → length y_high = df_len md →
  color_of material_colors k = Ok c →
  draw_group x_axis_quantity y_axis_quantity material_colors "ranges" k md t
  = (t ++ ranges_calls k c x_low x_high y_low y_high, Ok ()).
Proof.
  intros Hyl Hxl Hyh Hxh L1 L2 L3 L4 Hc.
  unfold draw_group. rewrite decide_True by done.
  rewrite Hyl, Hxl, Hyh, Hxh.
  erewrite py_bind_Ok; [|].
  2:{ do 4 (erewrite py_bind_Ok by (rewrite run_lift; reflexivity)).
      rewrite <- L1.
      erewrite py_bind_Ok
        by (apply run_ellipse_loop_exact; [congruence..|exact Hc]).
      reflexivity. }
  rewrite Hc.
  erewrite py_bind_Ok by (rewrite run_lift; reflexivity).
  rewrite run_call. unfold ranges_calls. by rewrite <- app_assoc.
Qed.

Lemma run_draw_group_values k md t xs ys c :
  float_column md x_axis_quantity = Ok xs →
  float_column md y_axis_quantity = Ok ys →
  color_of material_colors k = Ok c →
  draw_group x_axis_quantity y_axis_quantity material_colors "values" k md t
  = (t ++ values_calls k c xs ys, Ok ()).
Proof.
  intros Hxs Hys Hc. unfold draw_group.
  rewrite decide_False by done. rewrite decide_True by done.
  rewrite Hxs, Hys, Hc.
  unfold values_calls, mbind, Py_bind, lift, call, mret, Py_ret. simpl.
  by rewrite <- app_assoc.
Qed.

Lemma run_groups_calls data_type (calls : cell → list plot_call)
    (group : cell → DataFrame) ks t :
  (∀ k t, k ∈ ks →
     draw_group x_axis_quantity y_axis_quantity material_colors data_type
                k (group k) t = (t ++ calls k, Ok ())) →
  for_each ((λ k, (k, group k)) <$> ks)
    (λ g, draw_group x_axis_quantity y_axis_quantity material_colors
                     data_type g.1 g.2) t
  = (t ++ (k ← ks; calls k), Ok ()).
Proof.
  revert t. induction ks as [|k ks IH]; intros t Hrun; csimpl.
  - by rewrite app_nil_r.
  - erewrite py_bind_Ok by (apply Hrun; left).
    rewrite IH by (intros; apply Hrun; by right).
    by rewrite <- app_assoc.
Qed.

Lemma run_groups_raise data_type (calls : cell → list plot_call)
    (group : cell → DataFrame) pre k0 post e t :
  (∀ k t, k ∈ pre →
     draw_group x_axis_quantity y_axis_quantity material_colors data_type
                k (group k) t = (t ++ calls k, Ok ())) →
  (∀ t, draw_group x_axis_quantity y_axis_quantity material_colors data_type
                   k0 (group k0) t = (t, Raise e)) →
  for_each ((λ k, (k, group k)) <$> (pre ++ k0 :: post))
    (λ g, draw_group x_axis_quantity y_axis_quantity material_colors
                     data_type g.1 g.2) t
  = (t ++ (k ← pre; calls k), Raise e).
Proof.
  intros Hpre Hk0. rewrite fmap_app.
  erewrite for_each_app by by apply run_groups_calls.
  csimpl. by erewrite py_bind_Raise by apply Hk0.
Qed.
End draw_plot_trace.

Lemma color_of_Raise material_colors k :
  (∀ c, color_of material_colors k ≠ Ok c) →
  color_of material_colors k = Raise (KeyError k).
Proof.
  unfold color_of. destruct k as [x|s]; [done|].
  destruct (material_colors !! s) as [c|]; [|done].
  intros H. by destruct (H c).
Qed.

Lemma getitem_bool_index_missing df mask c :
  c ∉ columns df → getitem (bool_index df mask) c = Raise (KeyError (Str c)).
Proof.
  intros Hc. unfold getitem.
  destruct (col_lookup c (df_cols (bool_index df mask))) as [s|] eqn:Hs; [|done].
  assert (c ∈ columns (bool_index df mask)) as Hin
    by (apply col_lookup_is_Some; eauto).
  by rewrite columns_bool_index in Hin.
Qed.

Lemma float_column_missing df c :
  c ∉ columns df → float_column df c = Raise (KeyError (Str c)).
Proof.
  intros Hc. unfold float_column, getitem.
  destruct (col_lookup c (df_cols df)) as [s|] eqn:Hs; [|done].
  destruct Hc. apply col_lookup_is_Some. eauto.
Qed.

Section groups.
Variable data : DataFrame.
Variable cats : Series.
Hypothesis data_wf : df_wf data.
Hypothesis category_column : getitem data "Category" = Ok cats.

Lemma run_groupby :
  groupby data "Category"
  = Ok ((λ k, (k, group_of data cats k)) <$> group_keys cats).
Proof. unfold groupby. by rewrite category_column. Qed.

Lemma group_column k col xs :
  float_column data col = Ok xs →
  float_column (group_of data cats k) col = Ok (group_rows k cats xs) ∧
  length (group_rows k cats xs) = df_len (group_of data cats k).
Proof.
  intros Hxs. split; [by apply float_column_bool_index|].
  assert (length cats = df_len data) as Hcats.
  { apply getitem_Ok in category_column. by eapply wf_col_length. }
  unfold group_rows, group_of, bool_index. cbn [df_len].
  rewrite take_ge by (rewrite length_fmap; lia).
  apply length_mask_filter. rewrite length_fmap, Hcats.
  symmetry. by eapply float_column_length.
Qed.

Lemma group_column_missing k col :
  col ∉ columns data →
  float_column (group_of data cats k) col = Raise (KeyError (Str col)).
Proof.
  intros Hc. apply float_column_missing. unfold group_of.
  by rewrite columns_bool_index.
Qed.
End groups.

Lemma color_of_colour_in material_colors k c :
  color_of material_colors k = Ok c → colour_in material_colors k = c.
Proof. unfold colour_in. by intros ->. Qed.

Section draw_plot_outcome.
Variables (x_axis_quantity y_axis_quantity : string).
Variable material_colors : gmap string string.
Variable data : DataFrame.
Variable cats : Series.
Hypothesis data_wf : df_wf data.
Hypothesis category_column : getitem data "Category" = Ok cats.

Lemma run_group_ranges k c t x_low x_high y_low y_high :
  float_column data (y_axis_quantity +:+ " low") = Ok y_low →
  float_column data (x_axis_quantity +:+ " low") = Ok x_low →
  float_column data (y_axis_quantity +:+ " high") = Ok y_high →
  float_column data (x_axis_quantity +:+ " high") = Ok x_high →
  color_of material_colors k = Ok c →
  draw_group x_axis_quantity y_axis_quantity material_colors "ranges"
             k (group_of data cats k) t
  = (t ++ ranges_calls k c (group_rows k cats x_low) (group_rows k cats x_high)
                       (group_rows k cats y_low) (group_rows k cats y_high),
     Ok ()).
Proof.
  intros Hyl Hxl Hyh Hxh Hc.
  destruct (group_column data cats data_wf category_column k _ _ Hyl) as [C1 L1].
  destruct (group_column data cats data_wf category_column k _ _ Hxl) as [C2 L2].
  destruct (group_column data cats data_wf category_column k _ _ Hyh) as [C3 L3].
  destruct (group_column data cats data_wf category_column k _ _ Hxh) as [C4 L4].
  by apply run_draw_group_ranges_exact.
Qed.

Lemma run_group_values k c t xs ys :
  float_column data x_axis_quantity = Ok xs →
  float_column data y_axis_quantity = Ok ys →
  color_of material_colors k = Ok c →
  draw_group x_axis_quantity y_axis_quantity material_colors "values"
             k (group_of data cats k) t
  = (t ++ values_calls k c (group_rows k cats xs) (group_rows k cats ys), Ok ()).
Proof.
  intros Hxs Hys Hc.
  destruct (group_column data cats data_wf category_column k _ _ Hxs) as [C1 _].
  destruct (group_column data cats data_wf category_column k _ _ Hys) as [C2 _].
  by apply run_draw_group_values.
Qed.

Lemma run_group_ranges_no_colour k e t x_low x_high y_low y_high :
  float_column data (y_axis_quantity +:+ " low") = Ok y_low →
  float_column data (x_axis_quantity +:+ " low") = Ok x_low →
  float_column data (y_axis_quantity +:+ " high") = Ok y_high →
  float_column data (x_axis_quantity +:+ " high") = Ok x_high →
  color_of material_colors k = Raise e →
  draw_group x_axis_quantity y_axis_quantity material_colors "ranges"
             k (group_of data cats k) t
  = (t, Raise e).
Proof.
  intros Hyl Hxl Hyh Hxh Hc.
  destruct (group_column data cats data_wf category_column k _ _ Hyl) as [C1 L1].
  destruct (group_column data cats data_wf category_column k _ _ Hxl) as [C2 L2].
  destruct (group_column data cats data_wf category_column k _ _ Hyh) as [C3 L3].
  destruct (group_column data cats data_wf category_column k _ _ Hxh) as [C4 L4].
  unfold draw_group. rewrite decide_True by done.
  rewrite C1, C2, C3, C4, Hc.
  destruct (df_len (group_of data cats k)) as [|n].
  - reflexivity.
  - destruct (group_rows k cats y_low), (group_rows k cats x_low),
      (group_rows k cats y_high), (group_rows k cats x_high); try done.
Qed.

Lemma run_group_values_no_colour k e t xs ys :
  float_column data x_axis_quantity = Ok xs →
  float_column data y_axis_quantity = Ok ys →
  color_of material_colors k = Raise e →
  draw_group x_axis_quantity y_axis_quantity material_colors "values"
             k (group_of data cats k) t
  = (t, Raise e).
Proof.
  intros Hxs Hys Hc.
  destruct (group_column data cats data_wf category_column k _ _ Hxs) as [C1 _].
  destruct (group_column data cats data_wf category_column k _ _ Hys) as [C2 _].
  unfold draw_group. rewrite decide_False by done. rewrite decide_True by done.
  by rewrite C1, C2, Hc.
Qed.
End draw_plot_outcome.

(** X1. In ['ranges'] mode, on a well-formed frame with numeric bound
    columns and a colour for every category, [draw_plot] draws the
    categories one after the other, in the order of the group keys.  For
    each it draws one ellipse per row, spanning the row's low and high
    bounds in x and in y, its face (at opacity 0.25) and its edge in the
    category's colour, and then one hull around the low corners
    [(x low, y low)] of the rows followed by their high corners
    [(x high, y high)]. *)
Theorem draw_plot_ranges_trace x_axis_quantity y_axis_quantity material_colors
    data cats x_low x_high y_low y_high t :
  df_wf data →
  getitem data "Category" = Ok cats →
  float_column data (y_axis_quantity +:+ " low") = Ok y_low →
  float_column data (x_axis_quantity +:+ " low") = Ok x_low →
  float_column data (y_axis_quantity +:+ " high") = Ok y_high →
  float_column data (x_axis_quantity +:+ " high") = Ok x_high →
  (∀ k, is_group_key k cats → ∃ c, color_of material_colors k = Ok c) →
  draw_plot data x_axis_quantity y_axis_quantity material_colors "ranges" t
  = (t ++ (k ← group_keys cats;
           ranges_calls k (colour_in material_colors k)
             (group_rows k cats x_low) (group_rows k cats x_high)
             (group_rows k cats y_low) (group_rows k cats y_high)),
     Ok ()).
Proof.
  intros Hwf Hcat Hyl Hxl Hyh Hxh Hcol.
  unfold draw_plot. rewrite (run_groupby data cats Hcat).
  erewrite py_bind_Ok by (rewrite run_lift; reflexivity).
  apply run_groups_calls. intros k t' Hk.
  destruct (Hcol k) as [c Hc]; [by apply group_keys_spec|].
  rewrite (color_of_colour_in _ _ _ Hc).
  by apply run_group_ranges.
Qed.

(** X2. In ['values'] mode, on a frame with numeric x and y columns and a
    colour for every category, [draw_plot] makes two calls per category, in
    the order of the group keys: a scatter of the category's rows in the
    category's colour, then a hull around the same points in the same
    colour.  No ellipse is drawn, and a row without a category is in no
    scatter and no hull. *)
Theorem draw_plot_values_trace x_axis_quantity y_axis_quantity material_colors
    data cats xs ys t :
  df_wf data →
  getitem data "Category" = Ok cats →
  float_column data x_axis_quantity = Ok xs →
  float_column data y_axis_quantity = Ok ys →
  (∀ k, is_group_key k cats → ∃ c, color_of material_colors k = Ok c) →
  draw_plot data x_axis_quantity y_axis_quantity material_colors "values" t
  = (t ++ (k ← group_keys cats;
           [AxScatter k (group_rows k cats xs) (group_rows k cats ys)
                      (colour_in material_colors k);
            DrawHull k (zip (group_rows k cats xs) (group_rows k cats ys))
                     (colour_in material_colors k)]),
     Ok ()).
Proof.
  intros Hwf Hcat Hxs Hys Hcol.
  unfold draw_plot. rewrite (run_groupby data cats Hcat).
  erewrite py_bind_Ok by (rewrite run_lift; reflexivity).
  apply (run_groups_calls _ _ _ "values"
           (λ k, values_calls k (colour_in material_colors k)
                   (group_rows k cats xs) (group_rows k cats ys))).
  intros k t' Hk.
  destruct (Hcol k) as [c Hc]; [by apply group_keys_spec|].
  rewrite (color_of_colour_in _ _ _ Hc).
  by apply run_group_values.
Qed.

(** X3. A category without a colour stops [draw_plot] with the [KeyError]
    of that category: the categories before it, in the order of the group
    keys, have been drawn in full, and no call has been made for it or for
    any category after it.  This holds in ['ranges'] and in ['values']
    mode. *)
Theorem draw_plot_missing_colour x_axis_quantity y_axis_quantity material_colors
    data cats pre k0 post t :
  df_wf data →
  getitem data "Category" = Ok cats →
  group_keys cats = pre ++ k0 :: post →
  (∀ k, k ∈ pre → ∃ c, color_of material_colors k = Ok c) →
  (∀ c, color_of material_colors k0 ≠ Ok c) →
  (∀ x_low x_high y_low y_high,
     float_column data (y_axis_quantity +:+ " low") = Ok y_low →
     float_column data (x_axis_quantity +:+ " low") = Ok x_low →
     float_column data (y_axis_quantity +:+ " high") = Ok y_high →
     float_column data (x_axis_quantity +:+ " high") = Ok x_high →
     draw_plot data x_axis_quantity y_axis_quantity material_colors "ranges" t
     = (t ++ (k ← pre;
              ranges_calls k (colour_in material_colors k)
                (group_rows k cats x_low) (group_rows k cats x_high)
                (group_rows k cats y_low) (group_rows k cats y_high)),
        Raise (KeyError k0))) ∧
  (∀ xs ys,
     float_column data x_axis_quantity = Ok xs →
     float_column data y_axis_quantity = Ok ys →
     draw_plot data x_axis_quantity y_axis_quantity material_colors "values" t
     = (t ++ (k ← pre;
              values_calls k (colour_in material_colors k)
                (group_rows k cats xs) (group_rows k cats ys)),
        Raise (KeyError k0))).
Proof.
  intros Hwf Hcat Hkeys Hpre Hk0%color_of_Raise. split.
  - intros x_low x_high y_low y_high Hyl Hxl Hyh Hxh.
    unfold draw_plot. rewrite (run_groupby data cats Hcat), Hkeys.
    erewrite py_bind_Ok by (rewrite run_lift; reflexivity).
    apply run_groups_raise.
    + intros k t' Hk. destruct (Hpre k Hk) as [c Hc].
      rewrite (color_of_colour_in _ _ _ Hc). by apply run_group_ranges.
    + intros t'. by eapply run_group_ranges_no_colour.
  - intros xs ys Hxs Hys.
    unfold draw_plot. rewrite (run_groupby data cats Hcat), Hkeys.
    erewrite py_bind_Ok by (rewrite run_lift; reflexivity).
    apply run_groups_raise.
    + intros k t' Hk. destruct (Hpre k Hk) as [c Hc].
      rewrite (color_of_colour_in _ _ _ Hc). by apply run_group_values.
    + intros t'. by eapply run_group_values_no_colour.
Qed.

Lemma first_missing_cons c names df :
  first_missing (c :: names) df
  = if decide (c ∈ columns df) then first_missing names df else Some c.
Proof.
  unfold first_missing. destruct (decide (c ∈ columns df)).
  - by rewrite filter_cons_False by auto.
  - by rewrite filter_cons_True.
Qed.

(** X4. When a column [draw_plot] reads is missing from a frame that has
    at least one category, [draw_plot] raises the [KeyError] of the first
    missing label before any call is made.  ['ranges'] mode reads
    [y low], [x low], [y high], [x high] in this order, ['values'] mode [x]
    then [y]. *)
Theorem draw_plot_missing_column x_axis_quantity y_axis_quantity material_colors
    data cats t :
  df_wf data →
  getitem data "Category" = Ok cats →
  group_keys cats ≠ [] →
  (∀ c, c ∈ columns data →
        c ∈ [y_axis_quantity +:+ " low"; x_axis_quantity +:+ " low";
             y_axis_quantity +:+ " high"; x_axis_quantity +:+ " high";
             x_axis_quantity; y_axis_quantity] →
        ∃ xs, float_column data c = Ok xs) →
  (∀ c, first_missing [y_axis_quantity +:+ " low"; x_axis_quantity +:+ " low";
                       y_axis_quantity +:+ " high"; x_axis_quantity +:+ " high"]
                      data = Some c →
     draw_plot data x_axis_quantity y_axis_quantity material_colors "ranges" t
     = (t, Raise (KeyError (Str c)))) ∧
  (∀ c, first_missing [x_axis_quantity; y_axis_quantity] data = Some c →
     draw_plot data x_axis_quantity y_axis_quantity material_colors "values" t
     = (t, Raise (KeyError (Str c)))).
Proof.
  intros Hwf Hcat Hkeys Hnum.
  destruct (group_keys cats) as [|k ks] eqn:Hks; [done|].
  assert (Hread : ∀ c,
            c ∈ [y_axis_quantity +:+ " low"; x_axis_quantity +:+ " low";
                 y_axis_quantity +:+ " high"; x_axis_quantity +:+ " high";
                 x_axis_quantity; y_axis_quantity] →
            (c ∈ columns data ∧
             (∃ xs, float_column (group_of data cats k) c = Ok xs)) ∨
            ((c ∉ columns data) ∧
             float_column (group_of data cats k) c = Raise (KeyError (Str c)))).
  { intros c Hc. destruct (decide (c ∈ columns data)) as [Hin|Hout].
    - left. split; [done|]. destruct (Hnum c Hin Hc) as [xs Hxs].
      destruct (group_column data cats Hwf Hcat k _ _ Hxs) as [C _]. eauto.
    - right. split; [done|]. by apply group_column_missing. }
  assert (Hfirst : ∀ data_type e,
            draw_group x_axis_quantity y_axis_quantity material_colors data_type
                       k (group_of data cats k) t = (t, Raise e) →
            draw_plot data x_axis_quantity y_axis_quantity material_colors
                      data_type t = (t, Raise e)).
  { intros data_type e Hgroup. unfold draw_plot.
    rewrite (run_groupby data cats Hcat), Hks.
    erewrite py_bind_Ok by (rewrite run_lift; reflexivity).
    csimpl. by erewrite py_bind_Raise by exact Hgroup. }
  split; intros c Hc; apply Hfirst; unfold draw_group.
  - rewrite decide_True by done. rewrite !first_missing_cons in Hc.
    destruct (Hread (y_axis_quantity +:+ " low")) as [[I1 [v1 ->]]|[O1 ->]];
      [by repeat first [left|right]| |rewrite decide_False in Hc by done; by simplify_eq].
    rewrite decide_True in Hc by done.
    destruct (Hread (x_axis_quantity +:+ " low")) as [[I2 [v2 ->]]|[O2 ->]];
      [by repeat first [left|right]| |rewrite decide_False in Hc by done; by simplify_eq].
    rewrite decide_True in Hc by done.
    destruct (Hread (y_axis_quantity +:+ " high")) as [[I3 [v3 ->]]|[O3 ->]];
      [by repeat first [left|right]| |rewrite decide_False in Hc by done; by simplify_eq].
    rewrite decide_True in Hc by done.
    destruct (Hread (x_axis_quantity +:+ " high")) as [[I4 [v4 ->]]|[O4 ->]];
      [by repeat first [left|right]| |rewrite decide_False in Hc by done; by simplify_eq].
    by rewrite decide_True in Hc by done.
  - rewrite decide_False by done. rewrite decide_True by done.
    rewrite !first_missing_cons in Hc.
    destruct (Hread x_axis_quantity) as [[I1 [v1 ->]]|[O1 ->]];
      [by repeat first [left|right]| |rewrite decide_False in Hc by done; by simplify_eq].
    rewrite decide_True in Hc by done.
    destruct (Hread y_axis_quantity) as [[I2 [v2 ->]]|[O2 ->]];
      [by repeat first [left|right]| |rewrite decide_False in Hc by done; by simplify_eq].
    by rewrite decide_True in Hc by done.
Qed.

(** ** [create_legend] *)

Section create_legend.
Variable material_colors : gmap string string.

Lemma run_legend_loop classes hs :
  (∀ k, k ∈ classes → ∃ c, color_of material_colors k = Ok c) →
  for_each classes (λ material_class,
      color ← lift (color_of material_colors material_class);
      let patch := Patch color material_class in
      append_handle patch) hs
  = (hs ++ ((λ k, Patch (colour_in material_colors k) k) <$> classes), Ok ()).
Proof.
  revert hs. induction classes as [|k classes IH]; intros hs Hcol; csimpl.
  - by rewrite app_nil_r.
  - destruct (Hcol k) as [c Hc]; [left|].
    erewrite py_bind_Ok by (rewrite Hc; reflexivity).
    rewrite IH by (intros; apply Hcol; by right).
    by rewrite (color_of_colour_in _ _ _ Hc), <- app_assoc.
Qed.

Lemma run_create_legend classes t :
  (∀ k, k ∈ classes → ∃ c, color_of material_colors k = Ok c) →
  create_legend classes material_colors t
  = (t ++ [legend_of ((λ k, Patch (colour_in material_colors k) k) <$> classes)],
     Ok ()).
Proof.
  intros Hcol. unfold create_legend. by rewrite run_legend_loop.
Qed.
End create_legend.

(** X5. When every class has a colour, [create_legend] places exactly one
    legend, above the axes, whose handles are one patch per class, in the
    order the classes were given (a class given twice gets two), each with
    the class as its label and the colour of the class. *)
Theorem create_legend_handles material_classes material_colors t :
  (∀ k, k ∈ material_classes → ∃ c, color_of material_colors k = Ok c) →
  create_legend material_classes material_colors t
  = (t ++ [PltLegend
             ((λ k, Patch (colour_in material_colors k) k) <$> material_classes)
             [F64.of_Z 0; F64.lit 102 (-2); F64.of_Z 1; F64.lit 2 (-1)]
             "lower left" "expand" 0 4],
     Ok ()).
Proof. apply run_create_legend. Qed.

(** X6. A class without a colour stops [create_legend] with the
    [KeyError] of the first such class, and no legend is placed: the
    patches built for the classes before it are dropped. *)
Theorem create_legend_missing_colour material_colors pre k0 post t :
  (∀ k, k ∈ pre → ∃ c, color_of material_colors k = Ok c) →
  (∀ c, color_of material_colors k0 ≠ Ok c) →
  create_legend (pre ++ k0 :: post) material_colors t = (t, Raise (KeyError k0)).
Proof.
  intros Hpre Hk0%color_of_Raise. unfold create_legend.
  erewrite for_each_app by by apply run_legend_loop.
  csimpl. by erewrite py_bind_Raise by (rewrite Hk0; reflexivity).
Qed.

(** ** The legend and the hulls *)

Lemma hull_patches_app t1 t2 :
  hull_patches (t1 ++ t2) = hull_patches t1 ++ hull_patches t2.
Proof. apply omap_app. Qed.

Section only_adds.
Variable Q : plot_call → Prop.

Lemma only_adds_bind {X Y} (m : Py (list plot_call) X)
    (f : X → Py (list plot_call) Y) :
  only_adds Q m → (∀ x, only_adds Q (f x)) → only_adds Q (m ≫= f).
Proof.
  intros Hm Hf t. destruct (Hm t) as (n1 & H1 & A1).
  unfold mbind, Py_bind. destruct (m t) as [t1 [x|e]]; simpl in *.
  - destruct (Hf x t1) as (n2 & H2 & A2).
    exists (n1 ++ n2). rewrite H2, H1, app_assoc.
    split; [done|by apply Forall_app].
  - by exists n1.
Qed.

Lemma only_adds_lift {X} (r : result X) : only_adds Q (lift r).
Proof. intros t. exists []. by rewrite app_nil_r. Qed.

Lemma only_adds_raise {X} e : only_adds Q (py_raise (X := X) e).
Proof. intros t. exists []. by rewrite app_nil_r. Qed.

Lemma only_adds_ret {X} (x : X) : only_adds Q (mret x).
Proof. intros t. exists []. by rewrite app_nil_r. Qed.

Lemma only_adds_call c : Q c → only_adds Q (call c).
Proof. intros Hc t. exists [c]. split; [done|by constructor]. Qed.

Lemma only_adds_for_each {X} (l : list X) (body : X → Py (list plot_call) unit) :
  (∀ x, only_adds Q (body x)) → only_adds Q (for_each l body).
Proof.
  intros Hbody. induction l as [|x l IH]; simpl.
  - apply only_adds_ret.
  - apply only_adds_bind; [apply Hbody|done].
Qed.
End only_adds.

Ltac only_adds_step :=
  lazymatch goal with
  | |- only_adds _ (lift _) => apply only_adds_lift
  | |- only_adds _ (py_raise _) => apply only_adds_raise
  | |- only_adds _ (mret _) => apply only_adds_ret
  | |- only_adds _ (call _) => apply only_adds_call; exact I
  | |- only_adds _ (for_each _ _) => apply only_adds_for_each; intros ?
  | |- only_adds _ (_ ≫= _) => apply only_adds_bind; [|intros ?]
  end.

Lemma hull_patches_none t : Forall is_not_hull t → hull_patches t = [].
Proof.
  induction 1 as [|c t Hc _ IH]; [done|].
  unfold hull_patches in *. csimpl. rewrite IH. by destruct c.
Qed.

Section legend_hulls.
Variables (x_axis_quantity y_axis_quantity : string).
Variable material_colors : gmap string string.
Variable data_type : string.

(** A group that is drawn to the end has a colour, and its hull, in that
    colour, is the only hull it adds. *)
Lemma draw_group_returns k md t t' :
  draw_group x_axis_quantity y_axis_quantity material_colors data_type k md t
  = (t', Ok ()) →
  ∃ c, color_of material_colors k = Ok c ∧
       hull_patches t' = hull_patches t ++ [Patch c k].
Proof.
  unfold draw_group.
  match goal with |- (?m ≫= ?f) t = _ → _ =>
    assert (only_adds is_not_hull m) as Hm
  end.
  { repeat case_decide; repeat only_adds_step. }
  match goal with |- (?m ≫= ?f) t = _ → _ =>
    destruct (Hm t) as (new & Hnew & Hall);
    unfold mbind at 1, Py_bind at 1; destruct (m t) as [t1 [X|e]]
  end; [|done].
  simpl in Hnew. subst t1.
  destruct (color_of material_colors k) as [c|e]; [|done].
  intros [= <-]. exists c. split; [done|].
  rewrite !hull_patches_app, (hull_patches_none _ Hall). by rewrite app_nil_r.
Qed.

Lemma draw_groups_return (groups : list (cell * DataFrame)) t t' :
  for_each groups
    (λ g, draw_group x_axis_quantity y_axis_quantity material_colors
                     data_type g.1 g.2) t = (t', Ok ()) →
  (∀ k, k ∈ groups.*1 → ∃ c, color_of material_colors k = Ok c) ∧
  hull_patches t'
  = hull_patches t ++ ((λ k, Patch (colour_in material_colors k) k) <$> groups.*1).
Proof.
  revert t. induction groups as [|[k md] groups IH]; intros t; csimpl.
  - intros [= <-]. split; [by intros k ?%elem_of_nil|by rewrite app_nil_r].
  - unfold mbind, Py_bind.
    destruct (draw_group _ _ _ _ k md t) as [t1 [[]|e]] eqn:Hgroup; [|done].
    intros Hrest. apply draw_group_returns in Hgroup as (c & Hc & Hh).
    apply IH in Hrest as [Hcol Hrest]. split.
    + intros k' [->|Hk']%elem_of_cons; [eauto|by apply Hcol].
    + rewrite Hrest, Hh, (color_of_colour_in _ _ _ Hc). by rewrite <- app_assoc.
Qed.
End legend_hulls.

(** X7. The legend goes with the plot: whenever [draw_plot] returns, in
    either mode, [create_legend] for the categories of the frame and the
    same colours returns too, and its handles are the hulls that were
    drawn, one handle per hull, in drawing order, with the colour and the
    category of the hull. *)
Theorem legend_matches_hulls x_axis_quantity y_axis_quantity material_colors
    data_type data cats trace legends :
  getitem data "Category" = Ok cats →
  draw_plot data x_axis_quantity y_axis_quantity material_colors data_type []
  = (trace, Ok ()) →
  create_legend (group_keys cats) material_colors legends
  = (legends ++ [legend_of (hull_patches trace)], Ok ()).
Proof.
  intros Hcat. unfold draw_plot. rewrite (run_groupby data cats Hcat).
  erewrite py_bind_Ok by (rewrite run_lift; reflexivity).
  intros [Hcol Hhulls]%draw_groups_return.
  assert (((λ k, (k, group_of data cats k)) <$> group_keys cats).*1
          = group_keys cats) as Hkeys.
  { rewrite <- list_fmap_compose. apply list_fmap_id. }
  rewrite Hkeys in Hcol, Hhulls.
  rewrite Hhulls. by apply run_create_legend.
Qed.

(** ** [draw_guideline]: the anchors of the annotation *)

Lemma of_Z_4 : F64.of_Z 4 = S754_finite false 4503599627370496 (-50).
Proof. vm_compute. reflexivity. Qed.

Lemma of_Z_0 : F64.of_Z 0 = S754_zero false.
Proof. vm_compute. reflexivity. Qed.

(** Adding a zero to a finite number other than zero gives that number,
    exactly. *)
Lemma add_zero_l z x :
  F64.is_zero z = true → F64.is_finite x = true → F64.is_zero x = false →
  F64.add z x = x.
Proof. destruct z; try done. by destruct x. Qed.

Lemma mul_zero_finite z x :
  F64.is_zero z = true → F64.is_finite x = true →
  F64.is_zero (F64.mul z x) = true.
Proof. destruct z; try done. by destruct x. Qed.

(** The first sample of [linspace]: the lower limit itself, when the step
    is finite and the limit is a finite number other than zero. *)
Lemma linspace_first start stop :
  F64.is_finite (F64.div (F64.sub stop start) (F64.of_Z 4)) = true →
  F64.is_finite start = true → F64.is_zero start = false →
  linspace start stop 5 !! 0 = Some start.
Proof.
  intros Hstep Hfin Hnz. rewrite linspace_5. cbv zeta.
  match goal with |- (?a :: _) !! 0 = _ => change (Some a = Some start) end.
  f_equal. apply add_zero_l; [|done..].
  destruct (F64.eqb _ _) eqn:Heq.
  - apply mul_zero_finite.
    + rewrite of_Z_0, of_Z_4. reflexivity.
    + rewrite of_Z_4 in Heq.
      by destruct (F64.sub stop start) as [| | |s m e].
  - apply mul_zero_finite; [by rewrite of_Z_0|done].
Qed.

(** X8. The annotation of [draw_guideline] is anchored on the dashed line
    it labels: its point [p] is the fourth plotted point and its point [pa]
    the first one, each with the y the line has there.  The line is added
    to whatever the axes already holds.  It starts exactly at the lower
    x limit when that limit is a finite number other than zero and the
    step, a quarter of the span, is finite. *)
Theorem draw_guideline_anchors pow g log_flag x_lo x_hi rest t :
  g_x_lim g = x_lo :: x_hi :: rest →
  let y := guideline_y pow log_flag (g_power g) (g_y_intercept g) in
  ∃ x_values x0 x3,
    draw_guideline pow g log_flag t
    = (t ++ [AxPlot x_values (y <$> x_values) "k--";
             Annotate (g_string g) (g_string_position g) (x3, y x3) (x0, y x0)],
       Ok ()) ∧
    x_values !! 0 = Some x0 ∧
    x_values !! 3 = Some x3 ∧
    (F64.is_finite (F64.div (F64.sub x_hi x_lo) (F64.of_Z 4)) = true →
     F64.is_finite x_lo = true → F64.is_zero x_lo = false →
     x0 = x_lo).
Proof.
  intros Hlim y.
  pose proof (linspace_length x_lo x_hi 5) as Hlen.
  destruct (list_of_length_5 _ Hlen) as (a & b & c & d & e & Hxs).
  exists (linspace x_lo x_hi 5), a, d.
  split; [|split; [by rewrite Hxs|split; [by rewrite Hxs|]]].
  - unfold draw_guideline. cbv zeta. rewrite Hlim.
    erewrite py_bind_Ok by (rewrite run_lift; reflexivity).
    erewrite py_bind_Ok by (rewrite run_lift; reflexivity).
    rewrite Hxs. cbn [length seq foldl lookup list_lookup replicate insert
                      list_insert fmap list_fmap].
    erewrite py_bind_Ok by apply run_call.
    do 4 (erewrite py_bind_Ok by (rewrite run_lift; reflexivity)).
    rewrite run_call. by rewrite <- app_assoc.
  - intros Hstep Hfin Hnz.
    pose proof (linspace_first x_lo x_hi Hstep Hfin Hnz) as H0.
    rewrite Hxs in H0. by injection H0.
Qed.

(** ** [plotting_presets]: rc parameters *)

Lemma run_plotting_presets_publication os_environ ip figure_type p :
  spyder_ready os_environ ip →
  str_lower figure_type = "publication" →
  plotting_presets os_environ ip figure_type p
  = (mkPresets
       (<["lines.markersize" := "10"]> (<["svg.fonttype" := "none"]>
        (<["text.usetex" := "True"]> (<["font.size" := "10"]>
        (<["font.serif" := "Times New Roman"]> (<["font.family" := "serif"]>
        (rc_params p)))))))
       (line_magics p ++ spyder_magic os_environ), Ok ()).
Proof.
  intros Hready Hft. unfold plotting_presets, spyder_magic.
  erewrite py_bind_Ok by (by apply run_spyder_branch).
  rewrite Hft. reflexivity.
Qed.

Lemma run_plotting_presets_presentation os_environ ip figure_type p :
  spyder_ready os_environ ip →
  str_lower figure_type = "presentation" →
  plotting_presets os_environ ip figure_type p
  = (mkPresets
       (<["lines.markersize" := "10"]> (<["svg.fonttype" := "none"]>
        (<["text.usetex" := "False"]> (<["font.size" := "18"]>
        (<["font.sans-serif" := "Arial"]> (<["font.family" := "sans-serif"]>
        (rc_params p)))))))
       (line_magics p ++ spyder_magic os_environ), Ok ()).
Proof.
  intros Hready Hft. unfold plotting_presets, spyder_magic.
  erewrite py_bind_Ok by (by apply run_spyder_branch).
  rewrite Hft. reflexivity.
Qed.


(** A process that does not get through lines 43-48 leaves the presets as
    they were, whatever the selector. *)
Lemma run_plotting_presets_not_ready os_environ ip figure_type p :
  ¬ spyder_ready os_environ ip →
  ∃ e, plotting_presets os_environ ip figure_type p = (p, Raise e) ∧
       match ip with
       | NotInstalled => e = ModuleNotFoundError "IPython"
       | NoShell => e = AttributeError "run_line_magic"
       | Shell magic => magic "matplotlib" "qt" = Raise e
       end.
Proof.
  intros Hnot.
  destruct (run_spyder_branch_fails os_environ ip p Hnot) as (e & Hrun & He).
  exists e. split; [|done]. unfold plotting_presets.
  by erewrite py_bind_Raise by exact Hrun.
Qed.

Lemma spyder_ready_dec os_environ ip :
  spyder_ready os_environ ip ∨ ¬ spyder_ready os_environ ip.
Proof.
  unfold spyder_ready.
  destruct (decide ("SPY_PYTHONPATH" ∈ os_environ)) as [Hspy|Hspy];
    [|by left].
  destruct ip as [| |magic].
  - right. intros H. by destruct (H Hspy) as (? & ? & _).
  - right. intros H. by destruct (H Hspy) as (? & ? & _).
  - destruct (magic "matplotlib" "qt") as [[]|e] eqn:Hmagic.
    + left. intros _. by exists magic.
    + right. intros H. destruct (H Hspy) as (? & [= <-] & ?). congruence.
Qed.

(** X9. With [plotting_presets] the last call wins.  After a call with
    one known selector, a second call with a known selector leaves every rc
    parameter as the second call alone would, except the font list of the
    other family ([font.serif] or [font.sans-serif]), which nothing resets;
    a second call with the same selector changes no rc parameter at all. *)
Theorem plotting_presets_last_call_wins os_environ ip first second p :
  known_figure_type first → known_figure_type second →
  let p1 := (plotting_presets os_environ ip first p).1 in
  let p12 := (plotting_presets os_environ ip second p1).1 in
  let p2 := (plotting_presets os_environ ip second p).1 in
  (∀ key, key ≠ "font.serif" → key ≠ "font.sans-serif" →
     rc_params p12 !! key = rc_params p2 !! key) ∧
  (str_lower first = str_lower second → rc_params p12 = rc_params p1).
Proof.
  intros K1 K2 p1 p12 p2.
  destruct (spyder_ready_dec os_environ ip) as [Hready|Hnot].
  - destruct K1 as [H1|H1], K2 as [H2|H2]; subst p1 p12 p2;
      repeat first
        [rewrite (run_plotting_presets_publication _ _ first) by done
        |rewrite (run_plotting_presets_presentation _ _ first) by done
        |rewrite (run_plotting_presets_publication _ _ second) by done
        |rewrite (run_plotting_presets_presentation _ _ second) by done];
      cbn [fst rc_params]; (split; [intros key N1 N2|intros Hsame]);
      try (rewrite H1, H2 in Hsame; discriminate);
      try (apply map_eq; intros key);
      rewrite !lookup_insert; repeat case_decide; congruence.
  - assert (Hrun : ∀ figure_type q,
              (plotting_presets os_environ ip figure_type q).1 = q).
    { intros figure_type q.
      destruct (run_plotting_presets_not_ready os_environ ip figure_type q Hnot)
        as (e & -> & _). reflexivity. }
    subst p1 p12 p2. by rewrite !Hrun.
Qed.


(** ** The script: what is written, and when *)

(** X11. Outside IPython the script does nothing at all: whatever the
    environment otherwise holds, the run ends at line 127 on the
    [NameError] of [get_ipython], with no rc parameter set, no file read or
    written and no figure made. *)
Theorem main_outside_ipython env w :
  env_ipython env = false →
  main env w = (w, Raise (NameError "get_ipython")).
Proof.
  intros Hpy. unfold main, script_until_break, plot_data_plotting_presets.
  rewrite Hpy. by destruct w.
Qed.

Lemma saved_files_app l1 l2 : saved_files (l1 ++ l2) = saved_files l1 ++ saved_files l2.
Proof. apply omap_app. Qed.

Lemma saved_files_none l : Forall writes_no_file l → saved_files l = [].
Proof.
  induction 1 as [|e l He _ IH]; [done|].
  unfold saved_files in *. csimpl. rewrite IH. by destruct e.
Qed.

Lemma saves_svg_bind {X Y} env (m : Py world X) (f : X → Py world Y) :
  emits_only writes_no_file m → (∀ x, saves_svg_on_return env (f x)) →
  saves_svg_on_return env (m ≫= f).
Proof.
  intros Hm Hf w. destruct (Hm w) as (n1 & H1 & A1).
  unfold mbind, Py_bind. destruct (m w) as [w1 [x|e]]; simpl in *.
  - destruct (Hf x w1) as (n2 & H2 & A2).
    exists (n1 ++ n2). rewrite H2, H1, app_assoc. split; [done|].
    by rewrite saved_files_app, (saved_files_none _ A1).
  - exists n1. split; [done|]. by apply saved_files_none.
Qed.

Lemma saves_svg_until_break env :
  saves_svg_on_return env (script_until_break env).
Proof.
  unfold script_until_break, plot_data_plotting_presets, reference_markers,
    plot_marker, label_cell.
  destruct (env_ipython env);
    repeat (apply saves_svg_bind; [solve [repeat emits_step]|intros ?]).
  all: intros w; unfold mbind, Py_bind, savefig;
    destruct (env_savefig env (output_path env "svg")); simpl.
  all: try (exists [SaveFig (output_path env "svg")]; done).
  all: try (exists []; by rewrite app_nil_r).
Qed.

(** X12. A run writes a file exactly when lines 127-399 complete: in that
    case it has written the SVG file, once, and nothing else; when they
    raise, whatever the exception and wherever it comes from, no file has
    been written.  Nothing after line 400 adds to this. *)
Theorem svg_written_iff_line_400_reached env w :
  ∃ new,
    w_out (main env w).1 = w_out w ++ new ∧
    saved_files new = match (script_until_break env w).2 with
                      | Ok _ => [output_path env "svg"]
                      | Raise _ => []
                      end.
Proof. rewrite main_state. apply saves_svg_until_break. Qed.

(** ** Rows kept by a mask *)

Lemma mask_filter_lookup {X} mask (l : list X) i x :
  mask_filter mask l !! i = Some x →
  ∃ j, mask !! j = Some true ∧ l !! j = Some x.
Proof.
  revert l i. induction mask as [|b mask IH]; intros [|y l] i; try done.
  cbn [mask_filter]. destruct b.
  - destruct i as [|i]; simpl.
    + intros [= ->]. by exists 0.
    + intros (j & ? & ?)%IH. by exists (S j).
  - intros (j & ? & ?)%IH. by exists (S j).
Qed.

Lemma series_gt_lookup s k mask j a :
  series_gt s k = Ok mask → mask !! j = Some true → s !! j = Some a →
  ∃ x, a = Num x ∧ F64.ltb k x = true.
Proof.
  revert mask j. induction s as [|[x|t] s IH]; intros mask j; simpl; [done| |done].
  destruct (series_gt s k) as [r|] eqn:Hr; simpl; [|done].
  intros [= <-]. destruct j as [|j]; simpl.
  - intros [= Hx] [= <-]. eauto.
  - intros Hj Ha. by eapply IH.
Qed.

Lemma cell_at_bool_index df mask c i v :
  cell_at (bool_index df mask) c i = Some v →
  ∃ j, mask !! j = Some true ∧ cell_at df c j = Some v.
Proof.
  unfold cell_at, bool_index. cbn [df_cols].
  rewrite col_lookup_fmap_data.
  destruct (col_lookup c (df_cols df)) as [s|]; simpl; [|done].
  apply mask_filter_lookup.
Qed.

(** Lines 238: the rows of [p1] with both moduli above [E], as a new
    frame. *)
Lemma run_outlier_filter (E : float64) (d p1 : loc) :
  hoare (λ _, True)
    (e1 ← df_getitem p1 "E1";
     high1 ← lift (series_gt e1 E);
     e2 ← df_getitem p1 "E2";
     high2 ← lift (series_gt e2 E);
     p2 ← df_bool_index p1 (zip_with andb high1 high2);
     mret (d, p2))
    (λ r h, ∀ d' p', r = Ok (d', p') → stiffer_than E p' h).
Proof.
  intros h _ d' p'.
  destruct (h !! p1) as [f|] eqn:Hf.
  2:{ erewrite py_bind_Raise; [done|]. unfold df_getitem.
      erewrite py_bind_Raise; [done|]. unfold frame_of. by rewrite Hf. }
  pose proof (run_df_getitem h p1 f) as Hget.
  destruct (getitem f "E1") as [s1|e] eqn:H1.
  2:{ erewrite py_bind_Raise; [done|]. by rewrite Hget, H1. }
  erewrite py_bind_Ok by (by rewrite Hget, H1).
  destruct (series_gt s1 E) as [m1|e] eqn:G1.
  2:{ by erewrite py_bind_Raise by (by rewrite run_lift). }
  erewrite py_bind_Ok by (by rewrite run_lift).
  destruct (getitem f "E2") as [s2|e] eqn:H2.
  2:{ erewrite py_bind_Raise; [done|]. by rewrite Hget, H2. }
  erewrite py_bind_Ok by (by rewrite Hget, H2).
  destruct (series_gt s2 E) as [m2|e] eqn:G2.
  2:{ by erewrite py_bind_Raise by (by rewrite run_lift). }
  erewrite py_bind_Ok by (by rewrite run_lift).
  erewrite py_bind_Ok.
  2:{ unfold df_bool_index. by erewrite py_bind_Ok by by apply run_frame_of. }
  simpl.
  intros [= <- <-]. eexists. split; [apply lookup_insert_eq|].
  intros c i v Hc (j & Hj & Hv)%cell_at_bool_index.
  apply lookup_zip_with_Some in Hj as (b1 & b2 & Hb & Hb1 & Hb2).
  symmetry in Hb. apply andb_true_iff in Hb as [-> ->].
  apply getitem_Ok in H1, H2. unfold cell_at in Hv.
  destruct Hc as [-> | ->].
  - rewrite H1 in Hv. simpl in Hv. by eapply (series_gt_lookup s1).
  - rewrite H2 in Hv. simpl in Hv. by eapply (series_gt_lookup s2).
Qed.

Lemma compliant_material_foam : compliant_material = Ok compliant_foam.
Proof. reflexivity. Qed.

Lemma prepare_frames_stiffer merged_data :
  hoare (λ _, True) (prepare_frames merged_data)
    (λ r h, ∀ d p, r = Ok (d, p) → stiffer_than (mat_E compliant_foam) p h).
Proof.
  unfold prepare_frames.
  do 9 (apply hoare_bind_last; [intros ?|done]).
  apply hoare_lift_then; [|done].
  intros compliant Hc. rewrite compliant_material_foam in Hc.
  injection Hc as <-.
  do 8 (apply hoare_bind_last; [intros ?|done]).
  apply run_outlier_filter.
Qed.

(** X13. Whatever the merged frame, the frame lines 186-238 hand to the
    scatter matrix holds no design at or below the foam: in every row both
    [E1] and [E2] are numbers strictly above the modulus of the foamed
    elastomer, 0.124 (a row with a NaN modulus is dropped with the
    rest). *)
Theorem plotted_designs_are_stiffer_than_foam merged_data h h'
    data_to_plot plotting_data_frame :
  prepare_frames merged_data h = (h', Ok (data_to_plot, plotting_data_frame)) →
  ∃ f, h' !! plotting_data_frame = Some f ∧
    ∀ c i v, c = "E1" ∨ c = "E2" → cell_at f c i = Some v →
      ∃ x, v = Num x ∧ F64.ltb (F64.lit 124 (-3)) x = true.
Proof.
  intros Hrun.
  pose proof (prepare_frames_stiffer merged_data h I) as H.
  rewrite Hrun in H. apply (H data_to_plot plotting_data_frame eq_refl).
Qed.

(** ** The frames lines 186-238 leave alone *)

Section kept_all.
Variable h0 : heap.

Lemma hoare_bind_new {Y} (m : Py heap loc) (f : loc → Py heap Y) Q :
  hoare (frames_kept h0) m (kept_new h0) →
  (∀ l, h0 !! l = None → hoare (frames_kept h0) (f l) Q) →
  (∀ e h, frames_kept h0 h → Q (Raise e) h) →
  hoare (frames_kept h0) (m ≫= f) Q.
Proof.
  intros Hm Hf He. eapply hoare_bind; [exact Hm| |].
  - intros l h [Hk Hnew]. destruct (Hnew l eq_refl) as [Hl _].
    by apply Hf.
  - intros e h [Hk _]. by apply He.
Qed.

Lemma kept_df_bool_index l mask :
  hoare (frames_kept h0) (df_bool_index l mask) (kept_new h0).
Proof.
  eapply hoare_bind; [apply kept_frame_of|..]; [|done].
  intros df. apply kept_new_frame.
Qed.

Lemma kept_df_drop l names :
  hoare (frames_kept h0) (df_drop l names) (kept_new h0).
Proof.
  eapply hoare_bind; [apply kept_frame_of|..]; [|done].
  intros df. eapply hoare_bind; [apply hoare_lift_same|..]; [|done].
  intros df'. apply kept_new_frame.
Qed.

Lemma kept_df_select l names :
  hoare (frames_kept h0) (df_select l names) (kept_new h0).
Proof.
  eapply hoare_bind; [apply kept_frame_of|..]; [|done].
  intros df. eapply hoare_bind; [apply hoare_lift_same|..]; [|done].
  intros df'. apply kept_new_frame.
Qed.

Lemma kept_write_new l df :
  h0 !! l = None →
  hoare (frames_kept h0) (write_frame l df) (λ _, frames_kept h0).
Proof.
  intros Hl h Hk l' Hl'. unfold write_frame; simpl.
  rewrite lookup_insert_ne; [by apply Hk|].
  intros <-. rewrite Hl in Hl'. by destruct Hl'.
Qed.

Lemma kept_df_setitem_new l c s :
  h0 !! l = None →
  hoare (frames_kept h0) (df_setitem l c s) (λ _, frames_kept h0).
Proof.
  intros Hl.
  eapply hoare_bind; [apply kept_frame_of|..]; [|done].
  intros df. eapply hoare_bind; [apply hoare_lift_same|..]; [|done].
  intros df'. by apply kept_write_new.
Qed.

Lemma kept_df_loc_assign_new l mask c v :
  h0 !! l = None →
  hoare (frames_kept h0) (df_loc_assign l mask c v) (λ _, frames_kept h0).
Proof.
  intros Hl.
  eapply hoare_bind; [apply kept_frame_of|..]; [|done].
  intros df. by apply kept_write_new.
Qed.
End kept_all.

Ltac kept_step :=
  lazymatch goal with
  | |- hoare _ (lift _ ≫= _) _ =>
      eapply hoare_bind; [apply hoare_lift_same|intros ?; cbv beta|done]
  | |- hoare _ (df_getitem _ _ ≫= _) _ =>
      eapply hoare_bind; [apply kept_df_getitem|intros ?; cbv beta|done]
  end.

Lemma kept_density_statement h0 l :
  h0 !! l = None →
  hoare (frames_kept h0) (density_statement l) (λ _, frames_kept h0).
Proof.
  intros Hl. unfold density_statement. repeat kept_step.
  by apply kept_df_setitem_new.
Qed.

Lemma kept_manufacturing_constraint h0 l :
  h0 !! l = None →
  hoare (frames_kept h0) (manufacturing_constraint l) (λ _, frames_kept h0).
Proof.
  intros Hl. unfold manufacturing_constraint. repeat kept_step.
  by apply kept_df_loc_assign_new.
Qed.

Lemma kept_prepare_frames h0 merged_data :
  hoare (frames_kept h0) (prepare_frames merged_data)
    (λ r h, frames_kept h0 h ∧
            ∀ d p, r = Ok (d, p) → h0 !! d = None ∧ h0 !! p = None).
Proof.
  unfold prepare_frames.
  apply hoare_bind_new; [apply kept_orthonormal_rotation|intros rotated _|done].
  apply hoare_bind_new; [apply kept_df_copy|intros d0 _|done].
  kept_step.
  apply hoare_bind_new; [apply kept_df_bool_index|intros d1 _|done].
  apply hoare_bind_new; [apply kept_df_copy|intros d Hd|done].
  eapply hoare_bind;
    [by apply kept_density_statement|intros ?; cbv beta|by intros e h ?; split].
  apply hoare_bind_new; [apply kept_df_drop|intros p0 Hp0|done].
  eapply hoare_bind;
    [by apply kept_manufacturing_constraint|intros ?; cbv beta
    |by intros e h ?; split].
  apply hoare_bind_new; [apply kept_df_select|intros p1 _|done].
  do 5 kept_step.
  apply hoare_bind_new; [apply kept_df_bool_index|intros o1 _|done].
  do 2 kept_step.
  apply hoare_bind_new; [apply kept_df_bool_index|intros o2 _|done].
  do 4 kept_step.
  apply hoare_bind_new; [apply kept_df_bool_index|intros p Hp|done].
  apply hoare_ret. intros h Hk. split; [done|]. by intros ?? [= <- <-].
Qed.

(** X14. Lines 186-238 change no frame that existed before them, whether
    they complete or raise: the merged frame in particular keeps its rows,
    its [Unit Cell] labels and its columns, and the [Density] column and the
    ['Violated'] labels go to frames made on the way.  The two frames
    handed on, [data_to_plot] and [plotting_data_frame], are new
    objects. *)
Theorem prepare_frames_changes_no_frame merged_data h :
  let '(h', r) := prepare_frames merged_data h in
  (∀ l, is_Some (h !! l) → h' !! l = h !! l) ∧
  (∀ data_to_plot plotting_data_frame,
     r = Ok (data_to_plot, plotting_data_frame) →
     h !! data_to_plot = None ∧ h !! plotting_data_frame = None).
Proof.
  pose proof (kept_prepare_frames h merged_data h (λ _ _, eq_refl)) as H.
  by destruct (prepare_frames merged_data h) as [h' r].
Qed.

(** ** The density column as a column *)

Lemma col_assign_wf df c s :
  df_wf df → length s = df_len df →
  df_wf (mkDF (df_len df) (col_assign c s (df_cols df))).
Proof.
  intros [Hnd Hlen] Hs. split.
  - unfold columns in *. cbn [df_cols].
    destruct (decide (c ∈ (df_cols df).*1)) as [Hin|Hout].
    + by rewrite col_assign_labels.
    + rewrite col_assign_labels_new by done.
      apply NoDup_app. split; [done|]. split; [|apply NoDup_singleton].
      intros c' Hc' Hc''%list_elem_of_singleton. by subst.
  - cbn [df_cols df_len]. clear Hnd.
    induction Hlen as [|[c' s'] l Hc' Hl IH]; simpl.
    + by constructor.
    + case_decide; constructor; done.
Qed.

(** X15. The density statement of lines 196-197 adds one column and
    touches nothing else: the frame keeps its rows and stays well formed,
    every column other than [Density] reads as before, and the labels are
    the old ones followed by [Density] (or the old ones, when the frame has
    a [Density] column already, which is then replaced where it stands).  No
    other frame changes. *)
Theorem density_statement_adds_one_column (h : heap) d df svs tvs :
  h !! d = Some df → df_wf df →
  getitem df "Stiff volume" = Ok (Num <$> svs) →
  getitem df "Total volume" = Ok (Num <$> tvs) →
  ∃ df',
    density_statement d h = (<[d := df']> h, Ok ()) ∧
    df_wf df' ∧
    df_len df' = df_len df ∧
    columns df' = (if decide ("Density" ∈ columns df) then columns df
                   else columns df ++ ["Density"]) ∧
    (∀ c, c ≠ "Density" → getitem df' c = getitem df c).
Proof.
  intros Hd Hwf Hsv Htv.
  eexists. split; [by apply (run_density_statement h d df svs tvs)|].
  apply getitem_Ok in Hsv as Csv. apply getitem_Ok in Htv as Ctv.
  apply wf_col_length in Csv, Ctv; try done. rewrite length_fmap in Csv, Ctv.
  split; [|split; [done|split]].
  - apply col_assign_wf; [done|].
    rewrite length_fmap, length_zip_with. lia.
  - unfold columns. cbn [df_cols]. case_decide.
    + by apply col_assign_labels.
    + by apply col_assign_labels_new.
  - intros c Hc. unfold getitem. cbn [df_cols].
    by rewrite col_lookup_assign_ne.
Qed.

(** ** The highlighted design *)

Lemma mask_filter_none {X} mask (l : list X) :
  (∀ i, mask !! i ≠ Some true) → mask_filter mask l = [].
Proof.
  revert l. induction mask as [|b mask IH]; intros [|x l] Hnone; try done.
  cbn [mask_filter]. destruct b.
  - by destruct (Hnone 0).
  - apply IH. intros i. apply (Hnone (S i)).
Qed.

Lemma mask_filter_first {X} mask (l : list X) j x :
  mask !! j = Some true → (∀ i, i < j → mask !! i ≠ Some true) →
  l !! j = Some x → mask_filter mask l !! 0 = Some x.
Proof.
  revert l j. induction mask as [|b mask IH]; intros [|y l] j; try done.
  cbn [mask_filter]. destruct j as [|j]; simpl.
  - by intros [= ->] _ [= ->].
  - intros Hj Hfirst Hx. destruct b.
    + destruct (Hfirst 0); [lia|done].
    + apply (IH l j); [done| |done].
      intros i Hi. apply (Hfirst (S i)). lia.
Qed.

Lemma highlight_mask uc ids i :
  zip_with andb (series_eq_str uc "Re-entrant")
                (series_eq_num ids (F64.of_Z 152)) !! i = Some true
  ↔ is_design_152 uc ids i.
Proof.
  unfold is_design_152, series_eq_str, series_eq_num.
  rewrite lookup_zip_with_Some. setoid_rewrite list_lookup_fmap_Some.
  split.
  - intros (b1 & b2 & Hb & (a1 & -> & H1) & (a2 & -> & H2)).
    symmetry in Hb. apply andb_true_iff in Hb as [Hb1 Hb2].
    destruct a1 as [|t]; [done|]. apply bool_decide_eq_true in Hb1 as ->.
    destruct a2 as [x|]; [|done]. eauto.
  - intros (H1 & x & H2 & Hx). exists true, true.
    split; [done|]. split.
    + exists (Str "Re-entrant"). by rewrite bool_decide_eq_true_2.
    + exists (Num x). by rewrite Hx.
Qed.

Lemma run_highlighted (h : heap) d df uc ids column s :
  h !! d = Some df →
  getitem df "Unit Cell" = Ok uc → getitem df "ID" = Ok ids →
  getitem df column = Ok s →
  (highlighted d column h).2
  = iloc (mask_filter (zip_with andb (series_eq_str uc "Re-entrant")
                                     (series_eq_num ids (F64.of_Z 152))) s) 0.
Proof.
  intros Hd Huc Hid Hs. unfold highlighted.
  erewrite py_bind_Ok by (by rewrite (run_df_getitem h d df), Huc).
  erewrite py_bind_Ok by (by rewrite (run_df_getitem h d df), Hid).
  erewrite py_bind_Ok.
  2:{ unfold df_bool_index. by erewrite py_bind_Ok by by apply run_frame_of. }
  erewrite py_bind_Ok.
  2:{ erewrite run_df_getitem by apply lookup_insert_eq.
      by erewrite getitem_bool_index by done. }
  done.
Qed.

(** X16. The star of lines 345-353 marks the first re-entrant design
    with ID 152 of [data_to_plot]: [highlighted] returns the cell that row
    has in the column asked for, whatever rows match after it.  When no row
    matches, it raises [IndexError]. *)
Theorem highlighted_first_match (h : heap) d df uc ids column s :
  h !! d = Some df →
  getitem df "Unit Cell" = Ok uc → getitem df "ID" = Ok ids →
  getitem df column = Ok s →
  (∀ j v, is_design_152 uc ids j → (∀ i, i < j → ¬ is_design_152 uc ids i) →
          s !! j = Some v →
          (highlighted d column h).2 = Ok v) ∧
  ((∀ i, ¬ is_design_152 uc ids i) →
   (highlighted d column h).2 = Raise IndexError).
Proof.
  intros Hd Huc Hid Hs.
  rewrite (run_highlighted h d df uc ids column s) by done. split.
  - intros j v Hj Hfirst Hv. apply iloc_Ok.
    apply (mask_filter_first _ _ j); [by apply highlight_mask| |done].
    intros i Hi Hm%highlight_mask. by apply (Hfirst i).
  - intros Hnone. rewrite mask_filter_none; [done|].
    intros i Hm%highlight_mask. by apply (Hnone i).
Qed.

(** ** [orthonormal_rotation] on a frame without a modulus *)

Lemma getitem_rename_swap df c :
  getitem (rename [("E1", "E2"); ("E2", "E1")] df)
          (rename_label [("E1", "E2"); ("E2", "E1")] c)
  = match getitem df c with
    | Ok s => Ok s
    | Raise _ =>
        Raise (KeyError (Str (rename_label [("E1", "E2"); ("E2", "E1")] c)))
    end.
Proof.
  unfold getitem, rename. cbn [df_cols].
  rewrite col_lookup_rename by (intros ?; apply rename_label_swap_inj).
  by destruct (col_lookup c (df_cols df)).
Qed.

Ltac rotation_start :=
  erewrite py_bind_Ok by (by apply run_df_copy);
  erewrite py_bind_Ok by (apply run_df_rename_inplace, lookup_insert_eq);
  rewrite insert_insert_eq.

(** X17. A frame without one of the three columns stops
    [orthonormal_rotation] with a [KeyError], and for the moduli the error
    names the other one: the columns are read after the swap, so a frame
    without [E2] fails on ['E1'] and a frame without [E1] fails on
    ['E2']. *)
Theorem orthonormal_rotation_missing_column (h : heap) r df :
  h !! r = Some df →
  ("Nu12" ∉ columns df →
   (orthonormal_rotation r h).2 = Raise (KeyError (Str "Nu12"))) ∧
  ("Nu12" ∈ columns df → "E2" ∉ columns df →
   (orthonormal_rotation r h).2 = Raise (KeyError (Str "E1"))) ∧
  (∀ nu e2,
     getitem df "Nu12" = Ok (Num <$> nu) → getitem df "E2" = Ok (Num <$> e2) →
     "E1" ∉ columns df →
     (orthonormal_rotation r h).2 = Raise (KeyError (Str "E2"))).
Proof.
  intros Hr.
  assert (Hmissing : ∀ c, c ∉ columns df → ∃ e, getitem df c = Raise e).
  { intros c Hc. unfold getitem.
    destruct (col_lookup c (df_cols df)) as [s|] eqn:Hs; [|eauto].
    destruct Hc. apply col_lookup_is_Some. eauto. }
  assert (Hpresent : ∀ c, c ∈ columns df → ∃ s, getitem df c = Ok s).
  { intros c [s Hs]%col_lookup_is_Some. exists s. by apply getitem_Ok. }
  pose proof (getitem_rename_swap df "Nu12") as Gnu.
  pose proof (getitem_rename_swap df "E1") as G1.
  pose proof (getitem_rename_swap df "E2") as G2.
  change (rename_label _ "Nu12") with "Nu12" in Gnu.
  change (rename_label _ "E1") with "E2" in G1.
  change (rename_label _ "E2") with "E1" in G2.
  unfold orthonormal_rotation.
  split; [|split].
  - intros [e He]%Hmissing. rewrite He in Gnu.
    rotation_start. erewrite py_bind_Raise; [done|].
    erewrite run_df_getitem by apply lookup_insert_eq. by rewrite Gnu.
  - intros [nu Hnu]%Hpresent [e He]%Hmissing. rewrite Hnu in Gnu. rewrite He in G2.
    rotation_start.
    erewrite py_bind_Ok
      by (erewrite run_df_getitem by apply lookup_insert_eq; by rewrite Gnu).
    erewrite py_bind_Raise; [done|].
    erewrite run_df_getitem by apply lookup_insert_eq. by rewrite G2.
  - intros nu e2 Hnu He2 [e He]%Hmissing.
    rewrite Hnu in Gnu. rewrite He2 in G2. rewrite He in G1.
    rotation_start.
    erewrite py_bind_Ok
      by (erewrite run_df_getitem by apply lookup_insert_eq; by rewrite Gnu).
    erewrite py_bind_Ok
      by (erewrite run_df_getitem by apply lookup_insert_eq; by rewrite G2).
    erewrite py_bind_Ok by (rewrite run_lift; by rewrite series_arith_num).
    erewrite py_bind_Raise; [done|].
    erewrite run_df_getitem by apply lookup_insert_eq. by rewrite G1.
Qed.

(** ** The order of the groups *)

Section merge_sort_fmap.
Context {A B : Type} (f : A → B).
Context (R1 : relation A) `{!RelDecision R1}.
Context (R2 : relation B) `{!RelDecision R2}.
Hypothesis embedding : ∀ x y, R1 x y ↔ R2 (f x) (f y).

#[local] Abbreviation stack_map st :=
  (fmap (M := list) (fmap (M := option) (fmap (M := list) f)) st).

Lemma list_merge_fmap (l1 l2 : list A) :
  list_merge R2 (f <$> l1) (f <$> l2) = f <$> list_merge R1 l1 l2.
Proof.
  revert l2. induction l1 as [|x1 l1 IH1]; intros l2;
    induction l2 as [|x2 l2 IH2]; try done.
  rewrite !fmap_cons, !list_merge_cons.
  destruct (decide (R1 x1 x2)) as [H1|H1], (decide (R2 (f x1) (f x2))) as [H2|H2].
  - rewrite fmap_cons. f_equal. by rewrite <- IH1.
  - by apply embedding in H1.
  - by apply embedding in H2.
  - rewrite fmap_cons. f_equal. by rewrite <- IH2.
Qed.

Lemma merge_list_to_stack_fmap (st : list (option (list A))) (l : list A) :
  merge_list_to_stack R2 (stack_map st) (f <$> l)
  = stack_map (merge_list_to_stack R1 st l).
Proof.
  revert l. induction st as [|[l'|] st IH]; intros l; csimpl; try done.
  by rewrite list_merge_fmap, IH.
Qed.

Lemma merge_stack_fmap (st : list (option (list A))) :
  merge_stack R2 (stack_map st) = f <$> merge_stack R1 st.
Proof.
  induction st as [|[l|] st IH]; csimpl; try done.
  by rewrite IH, list_merge_fmap.
Qed.

Lemma merge_sort_aux_fmap (st : list (option (list A))) (l : list A) :
  merge_sort_aux R2 (stack_map st) (f <$> l)
  = f <$> merge_sort_aux R1 st l.
Proof.
  revert st. induction l as [|x l IH]; intros st; csimpl.
  - apply merge_stack_fmap.
  - rewrite <- IH. f_equal.
    apply (merge_list_to_stack_fmap st [x]).
Qed.

Lemma merge_sort_fmap (l : list A) : merge_sort R2 (f <$> l) = f <$> merge_sort R1 l.
Proof. apply (merge_sort_aux_fmap []). Qed.
End merge_sort_fmap.

Lemma remove_dups_fmap_inj `{EqDecision A, EqDecision B} (f : A → B) `{!Inj (=) (=) f}
    (l : list A) :
  remove_dups (f <$> l) = f <$> remove_dups l.
Proof.
  induction l as [|x l IH]; csimpl; [done|].
  destruct (decide_rel elem_of x l) as [Hin|Hout],
    (decide_rel elem_of (f x) (f <$> l)) as [Hin'|Hout']; csimpl.
  - done.
  - destruct Hout'. by apply list_elem_of_fmap_2.
  - apply list_elem_of_fmap in Hin' as (y & Hy%(inj f) & Hin'). by subst.
  - by rewrite IH.
Qed.

#[global] Instance Str_inj : Inj (=) (=) Str.
Proof. by intros s t [= ->]. Qed.

(** The group keys of a column of text are the distinct labels in
    increasing order. *)
Lemma group_keys_text names :
  group_keys (Str <$> names) = Str <$> merge_sort String.le (remove_dups names).
Proof.
  unfold group_keys.
  assert (filter (λ a, is_missing a = false) (Str <$> names) = Str <$> names)
    as ->.
  { induction names as [|s names IH]; csimpl; [done|].
    rewrite filter_cons_True by done. by rewrite IH. }
  rewrite remove_dups_fmap_inj by apply _.
  by apply merge_sort_fmap.
Qed.

(** X18. [draw_plot] goes through the categories in increasing order of
    their names, each once: when the categories are text and [draw_plot]
    returns, the categories of the hulls it has drawn, in drawing order and
    so in stacking order, are the distinct names of the column sorted
    increasingly. *)
Theorem draw_plot_draws_in_category_order x_axis_quantity y_axis_quantity
    material_colors data_type data names trace :
  getitem data "Category" = Ok (Str <$> names) →
  draw_plot data x_axis_quantity y_axis_quantity material_colors data_type []
  = (trace, Ok ()) →
  ∃ ks,
    hull_patches trace
    = (λ s, Patch (colour_in material_colors (Str s)) (Str s)) <$> ks ∧
    StronglySorted String.le ks ∧ NoDup ks ∧ (∀ s, s ∈ ks ↔ s ∈ names).
Proof.
  intros Hcat. unfold draw_plot. rewrite (run_groupby data _ Hcat).
  erewrite py_bind_Ok by (rewrite run_lift; reflexivity).
  intros [_ Hhulls]%draw_groups_return.
  assert (((λ k, (k, group_of data (Str <$> names) k))
             <$> group_keys (Str <$> names)).*1
          = group_keys (Str <$> names)) as Hkeys.
  { rewrite <- list_fmap_compose. apply list_fmap_id. }
  rewrite Hkeys, group_keys_text in Hhulls.
  exists (merge_sort String.le (remove_dups names)).
  split; [by rewrite Hhulls, <- list_fmap_compose|].
  split; [apply StronglySorted_merge_sort; apply _|].
  split.
  - rewrite merge_sort_Permutation. apply NoDup_remove_dups.
  - intros s. by rewrite merge_sort_Permutation, elem_of_remove_dups.
Qed.

(** ** The further properties at sample inputs *)

Lemma sample_materials_wf : df_wf sample_materials.
Proof. compute_done. Qed.

Lemma sample_points_wf : df_wf sample_points.
Proof. compute_done. Qed.

Ltac literal_cases H :=
  apply list_elem_of_In in H; simpl in H;
  repeat (destruct H as [<-|H]); [..|destruct H].

Lemma draw_plot_ranges_trace_witness :
  ∃ trace,
    draw_plot sample_materials "Density" "Young Modulus" common_definitions.2
              "ranges" [] = (trace, Ok ()) ∧
    length trace = 5 ∧
    hull_patches trace = [Patch "blue" (Str "Foams"); Patch "grey" (Str "Metals")].
Proof.
  eexists. split.
  - eapply (draw_plot_ranges_trace "Density" "Young Modulus"
              common_definitions.2 sample_materials).
    + exact sample_materials_wf.
    + reflexivity.
    + vm_compute; reflexivity.
    + vm_compute; reflexivity.
    + vm_compute; reflexivity.
    + vm_compute; reflexivity.
    + intros k [Hk _]. literal_cases Hk; eexists; vm_compute; reflexivity.
  - split; vm_compute; reflexivity.
Defined.

Lemma draw_plot_values_trace_witness :
  draw_plot sample_points "Density" "Young Modulus" colors_with_glasses
            "values" []
  = ([AxScatter (Str "Foams") [F64.lit 30 0] [F64.lit 1 (-3)] "blue";
      DrawHull (Str "Foams") [(F64.lit 30 0, F64.lit 1 (-3))] "blue";
      AxScatter (Str "Glasses") [F64.lit 2500 0] [F64.lit 70 0] "cyan";
      DrawHull (Str "Glasses") [(F64.lit 2500 0, F64.lit 70 0)] "cyan";
      AxScatter (Str "Metals") [F64.lit 7800 0; F64.lit 2700 0]
                [F64.lit 200 0; F64.lit 68 0] "grey";
      DrawHull (Str "Metals") [(F64.lit 7800 0, F64.lit 200 0);
                               (F64.lit 2700 0, F64.lit 68 0)] "grey"],
     Ok ()).
Proof.
  etrans.
  - eapply (draw_plot_values_trace "Density" "Young Modulus"
              colors_with_glasses sample_points).
    + exact sample_points_wf.
    + reflexivity.
    + vm_compute; reflexivity.
    + vm_compute; reflexivity.
    + intros k [Hk _]. literal_cases Hk; eexists; vm_compute; reflexivity.
  - vm_compute. reflexivity.
Defined.

Lemma draw_plot_missing_colour_witness :
  draw_plot sample_points "Density" "Young Modulus" common_definitions.2
            "values" []
  = ([AxScatter (Str "Foams") [F64.lit 30 0] [F64.lit 1 (-3)] "blue";
      DrawHull (Str "Foams") [(F64.lit 30 0, F64.lit 1 (-3))] "blue"],
     Raise (KeyError (Str "Glasses"))).
Proof.
  destruct (draw_plot_missing_colour "Density" "Young Modulus"
              common_definitions.2 sample_points
              (texts ["Metals"; "Glasses"; "Foams"; "Metals"])
              [Str "Foams"] (Str "Glasses") [Str "Metals"] [])
    as [_ Hvalues].
  - exact sample_points_wf.
  - reflexivity.
  - vm_compute. reflexivity.
  - intros k Hk. literal_cases Hk. eexists; vm_compute; reflexivity.
  - intros c. vm_compute. discriminate.
  - etrans; [eapply Hvalues; vm_compute; reflexivity|].
    vm_compute. reflexivity.
Defined.

Lemma draw_plot_missing_column_witness :
  draw_plot sample_points "Density" "Tensile Strength" common_definitions.2
            "ranges" []
  = ([], Raise (KeyError (Str "Tensile Strength low"))).
Proof.
  destruct (draw_plot_missing_column "Density" "Tensile Strength"
              common_definitions.2 sample_points
              (texts ["Metals"; "Glasses"; "Foams"; "Metals"]) [])
    as [Hranges _].
  - exact sample_points_wf.
  - reflexivity.
  - vm_compute. discriminate.
  - intros c Hc Hread. literal_cases Hread;
      first [eexists; vm_compute; reflexivity
            |exfalso; apply list_elem_of_In in Hc; vm_compute in Hc;
             repeat (destruct Hc as [Hc|Hc]; [discriminate|]); destruct Hc].
  - apply Hranges. vm_compute. reflexivity.
Defined.

Lemma create_legend_handles_witness :
  create_legend [Str "Foams"; Str "Metals"] common_definitions.2 []
  = ([PltLegend [Patch "blue" (Str "Foams"); Patch "grey" (Str "Metals")]
                [F64.of_Z 0; F64.lit 102 (-2); F64.of_Z 1; F64.lit 2 (-1)]
                "lower left" "expand" 0 4], Ok ()).
Proof.
  etrans.
  - apply (create_legend_handles [Str "Foams"; Str "Metals"]
             common_definitions.2 []).
    intros k Hk. literal_cases Hk; eexists; vm_compute; reflexivity.
  - vm_compute. reflexivity.
Defined.

Lemma create_legend_missing_colour_witness :
  create_legend [Str "Foams"; Str "Glasses"; Str "Metals"]
                common_definitions.2 []
  = ([], Raise (KeyError (Str "Glasses"))).
Proof.
  apply (create_legend_missing_colour common_definitions.2
           [Str "Foams"] (Str "Glasses") [Str "Metals"] []).
  - intros k Hk. literal_cases Hk. eexists; vm_compute; reflexivity.
  - intros c. vm_compute. discriminate.
Defined.

Lemma legend_matches_hulls_witness :
  create_legend (group_keys (texts ["Metals"; "Foams"; "Metals"]))
                common_definitions.2 []
  = ([legend_of [Patch "blue" (Str "Foams"); Patch "grey" (Str "Metals")]],
     Ok ()).
Proof.
  etrans.
  - eapply (legend_matches_hulls "Density" "Young Modulus"
              common_definitions.2 "ranges" sample_materials).
    + reflexivity.
    + vm_compute. reflexivity.
  - vm_compute. reflexivity.
Defined.

Lemma draw_guideline_anchors_witness :
  ∃ x_values x0 x3,
    draw_guideline pow_whole identity_guideline true []
    = ([AxPlot x_values
          (guideline_y pow_whole true (F64.of_Z 1) (F64.of_Z 1) <$> x_values)
          "k--";
        Annotate "$E/\rho$" (F64.of_Z 2, F64.of_Z 2)
          (x3, guideline_y pow_whole true (F64.of_Z 1) (F64.of_Z 1) x3)
          (x0, guideline_y pow_whole true (F64.of_Z 1) (F64.of_Z 1) x0)],
       Ok ()) ∧
    x_values !! 3 = Some x3 ∧
    x0 = F64.of_Z 1.
Proof.
  destruct (draw_guideline_anchors pow_whole identity_guideline true
              (F64.of_Z 1) (F64.of_Z 10) [] [])
    as (x_values & x0 & x3 & Hrun & H0 & H3 & Hstart).
  - reflexivity.
  - exists x_values, x0, x3. split; [exact Hrun|]. split; [exact H3|].
    apply Hstart; vm_compute; reflexivity.
Defined.

Lemma plotting_presets_last_call_wins_witness :
  rc_params
    (plotting_presets ∅ NoShell "Presentation"
       (plotting_presets ∅ NoShell "publication" (mkPresets ∅ [])).1).1
    !! "font.size"
  = rc_params (plotting_presets ∅ NoShell "Presentation" (mkPresets ∅ [])).1
      !! "font.size".
Proof.
  destruct (plotting_presets_last_call_wins ∅ NoShell "publication"
              "Presentation" (mkPresets ∅ [])) as [Hkeys _].
  - left. reflexivity.
  - right. reflexivity.
  - apply Hkeys; discriminate.
Defined.


Lemma main_outside_ipython_witness :
  main plain_python_env (mkWorld {[0 := sample_merged]} (subplots 1 1) [])
  = (mkWorld {[0 := sample_merged]} (subplots 1 1) [],
     Raise (NameError "get_ipython")).
Proof. apply main_outside_ipython. reflexivity. Defined.

Lemma plotted_designs_are_stiffer_than_foam_witness :
  ∃ h' data_to_plot plotting_data_frame f,
    prepare_frames 0 {[0 := sample_merged]}
    = (h', Ok (data_to_plot, plotting_data_frame)) ∧
    h' !! plotting_data_frame = Some f ∧
    ∀ c i v, c = "E1" ∨ c = "E2" → cell_at f c i = Some v →
      ∃ x, v = Num x ∧ F64.ltb (F64.lit 124 (-3)) x = true.
Proof.
  destruct (prepare_frames 0 {[0 := sample_merged]})
    as [h' [[data_to_plot plotting_data_frame]|e]] eqn:Hrun.
  - destruct (plotted_designs_are_stiffer_than_foam 0 {[0 := sample_merged]}
                h' data_to_plot plotting_data_frame Hrun) as (f & Hf & Hrows).
    exists h', data_to_plot, plotting_data_frame, f.
    split; [reflexivity|]. split; [exact Hf|exact Hrows].
  - vm_compute in Hrun. discriminate.
Defined.

Lemma density_statement_adds_one_column_witness :
  ∃ df',
    density_statement 0 {[0 := sample_merged]}
    = (<[0 := df']> {[0 := sample_merged]}, Ok ()) ∧
    columns df' = columns sample_merged ++ ["Density"] ∧
    getitem df' "E1" = getitem sample_merged "E1".
Proof.
  destruct (density_statement_adds_one_column {[0 := sample_merged]} 0
              sample_merged
              [F64.lit 7 0; F64.lit 0 0; F64.lit 1 0]
              [F64.lit 7 0; F64.lit 0 0; F64.lit 4 0])
    as (df' & Hrun & _ & _ & Hcols & Hrest).
  - reflexivity.
  - exact sample_merged_wf.
  - reflexivity.
  - reflexivity.
  - exists df'. split; [exact Hrun|]. split; [exact Hcols|].
    apply Hrest. discriminate.
Defined.

Lemma highlighted_first_match_witness :
  (highlighted 0 "E1" {[0 := sample_merged]}).2 = Ok (Num (F64.lit 10 0)).
Proof.
  destruct (highlighted_first_match {[0 := sample_merged]} 0 sample_merged
              (texts ["Re-entrant"; "Lattice"; "Chiral"])
              (numbers [(152, 0); (7, 0); (3, 0)]%Z) "E1"
              (numbers [(10, 0); (20, 0); (5, 0)]%Z))
    as [Hfirst _].
  - reflexivity.
  - reflexivity.
  - reflexivity.
  - reflexivity.
  - apply (Hfirst 0).
    + split; [reflexivity|]. eexists. split; reflexivity.
    + intros i Hi. lia.
    + reflexivity.
Defined.

Lemma orthonormal_rotation_missing_column_witness :
  (orthonormal_rotation 0 {[0 := sample_without_E2]}).2
  = Raise (KeyError (Str "E1")).
Proof.
  destruct (orthonormal_rotation_missing_column {[0 := sample_without_E2]} 0
              sample_without_E2) as (_ & Hmissing & _).
  - reflexivity.
  - apply Hmissing.
    + compute_done.
    + compute_done.
Defined.

Lemma draw_plot_draws_in_category_order_witness :
  ∃ trace ks,
    draw_plot sample_materials "Density" "Young Modulus" common_definitions.2
              "ranges" [] = (trace, Ok ()) ∧
    hull_patches trace
    = (λ s, Patch (colour_in common_definitions.2 (Str s)) (Str s)) <$> ks ∧
    StronglySorted String.le ks.
Proof.
  destruct (draw_plot sample_materials "Density" "Young Modulus"
              common_definitions.2 "ranges" []) as [trace [[]|e]] eqn:Hrun.
  - destruct (draw_plot_draws_in_category_order "Density" "Young Modulus"
                common_definitions.2 "ranges" sample_materials
                ["Metals"; "Foams"; "Metals"] trace eq_refl Hrun)
      as (ks & Hhulls & Hsorted & _).
    exists trace, ks. split; [reflexivity|]. split; [exact Hhulls|exact Hsorted].
  - vm_compute in Hrun. discriminate.
Defined.

(** ** The figure at line 400 *)

Section on_return.
Context {S : Type}.

Lemma hoare_bind_return {X Y} (P Q R : S → Prop) (m : Py S X) (f : X → Py S Y) :
  hoare P m (on_return Q) → (∀ x, hoare Q (f x) (on_return R)) →
  hoare P (m ≫= f) (on_return R).
Proof.
  intros Hm Hf. eapply hoare_bind; [exact Hm|exact Hf|done].
Qed.

Lemma hoare_lift_return {X Y} (P R : S → Prop) (r : result X) (f : X → Py S Y) :
  (∀ x, r = Ok x → hoare P (f x) (on_return R)) →
  hoare P (lift r ≫= f) (on_return R).
Proof. intros Hf. by apply hoare_lift_then. Qed.

Lemma hoare_ret_return {X} (P : S → Prop) (x : X) :
  hoare P (mret x) (on_return P).
Proof. by apply hoare_ret. Qed.

Lemma hoare_for_each_fold {X E} (P : E → S → Prop) (step : X → E → E)
    (body : X → Py S unit) l e :
  (∀ x e, hoare (P e) (body x) (on_return (P (step x e)))) →
  hoare (P e) (for_each l body) (on_return (P (foldl (λ e x, step x e) e l))).
Proof.
  intros Hbody. revert e. induction l as [|x l IH]; intros e; simpl.
  - apply hoare_ret_return.
  - eapply hoare_bind_return; [apply Hbody|]. intros _. apply IH.
Qed.
End on_return.

(** ** The look of the figure *)

Lemma upd_upd {X} i j (g1 g2 : X → X) E i' j' :
  upd i j g2 (upd i j g1 E) i' j' = upd i j (λ x, g2 (g1 x)) E i' j'.
Proof.
  unfold upd. destruct (decide (i' = i ∧ j' = j)); [|done].
  by rewrite decide_True by done.
Qed.

Lemma figure_is_ext E E' xs sz w :
  (∀ i j, E i j = E' i j) → figure_is E xs sz w → figure_is E' xs sz w.
Proof.
  intros Heq (Hs & Hx & Hz & Hl). repeat split; try done.
  intros i j. by rewrite Hl.
Qed.

Section cell_step.
Variables i j : nat.

Lemma cell_step_ext {X} g g' (m : Py world X) :
  (∀ lk, g lk = g' lk) → cell_step i j g m → cell_step i j g' m.
Proof.
  intros Hg Hm E xs sz w Hw. specialize (Hm E xs sz w Hw).
  destruct (m w) as [w' [x|e]]; simpl in *; [|done].
  eapply figure_is_ext; [|exact Hm].
  intros i' j'. unfold upd. case_decide; [apply Hg|done].
Qed.

Lemma cell_step_bind {X Y} g1 g2 (m : Py world X) (f : X → Py world Y) :
  cell_step i j g1 m → (∀ x, cell_step i j g2 (f x)) →
  cell_step i j (λ lk, g2 (g1 lk)) (m ≫= f).
Proof.
  intros Hm Hf E xs sz.
  eapply hoare_bind; [apply Hm| |done].
  intros x w Hw. specialize (Hf x _ xs sz w Hw).
  destruct (f x w) as [w' [y|e]]; simpl in *; [|done].
  eapply figure_is_ext; [|exact Hf]. intros i' j'. apply upd_upd.
Qed.

Lemma cell_step_skip {X} (m : Py world X) :
  (∀ w, w_fig (m w).1 = w_fig w) → cell_step i j id m.
Proof.
  intros Hm E xs sz w (Hs & Hx & Hz & Hl).
  specialize (Hm w). destruct (m w) as [w' [x|e]]; simpl in *; [|done].
  unfold figure_is. rewrite Hm. repeat split; try done.
  intros i' j'. rewrite Hl. unfold upd.
  case_decide as H; [by destruct H as [-> ->]|done].
Qed.

Lemma cell_step_lift {X Y} g (r : result X) (f : X → Py world Y) :
  (∀ x, r = Ok x → cell_step i j g (f x)) → cell_step i j g (lift r ≫= f).
Proof.
  intros Hf E xs sz. apply hoare_lift_then; [|done].
  intros x Hx. by apply Hf.
Qed.

Lemma cell_step_heap_op {X Y} g (m : Py heap X) (f : X → Py world Y) :
  (∀ x, cell_step i j g (f x)) → cell_step i j g (heap_op m ≫= f).
Proof.
  intros Hf.
  apply (cell_step_ext (λ lk, g (id lk))); [done|].
  apply cell_step_bind; [|done].
  apply cell_step_skip. intros w. unfold heap_op.
  by destruct (m (w_heap w)).
Qed.

Lemma cell_step_on_axes f g :
  (∀ a, look_of (f a) = g (look_of a)) →
  cell_step i j g (fig_op (on_axes i j f)).
Proof.
  intros Hf E xs sz w (Hs & Hx & Hz & Hl). unfold fig_op, on_axes; simpl.
  repeat split; try done.
  intros i' j'. unfold upd. cbn [w_fig fig_axes].
  destruct (decide (i' = i ∧ j' = j)); [by rewrite Hf, Hl|apply Hl].
Qed.

Lemma cell_step_when (g : look → look) (b : bool) (m : Py world unit) :
  cell_step i j g m → cell_step i j (λ lk : look, if b then g lk else lk) (when b m).
Proof.
  destruct b; [done|]. intros _. by apply cell_step_skip.
Qed.
End cell_step.

Lemma iloc_default l i s : iloc l i = Ok s → s = default "" (l !! i).
Proof. unfold iloc. destruct (l !! i); [|done]. by intros [= ->]. Qed.

Lemma cell_step_label_cell data_to_plot i j :
  cell_step i j (label_look i j) (label_cell data_to_plot i j).
Proof.
  unfold label_cell. eapply cell_step_ext; cycle 1.
  - apply cell_step_bind; [|intros _].
    { apply cell_step_when.
      apply (cell_step_lift _ _ (with_ylabel (default "" (axes_labels !! i)))).
      intros l ->%iloc_default. by apply cell_step_on_axes. }
    apply cell_step_bind; [|intros _].
    { apply cell_step_when.
      apply (cell_step_lift _ _ (with_xlabel (default "" (axes_labels !! j)))).
      intros l ->%iloc_default. by apply cell_step_on_axes. }
    apply cell_step_bind; [|intros _].
    { apply cell_step_when.
      by apply (cell_step_on_axes _ _ _ (with_xaxis false)). }
    apply cell_step_bind; [|intros _].
    { apply cell_step_when.
      by apply (cell_step_on_axes _ _ _ (with_yaxis false)). }
    apply cell_step_when.
    apply cell_step_lift. intros cx _.
    apply cell_step_heap_op. intros x.
    apply cell_step_lift. intros cy _.
    apply cell_step_heap_op. intros y.
    apply (cell_step_on_axes _ _ _ (add_drawn DStar)).
    intros a. unfold look_of, add_drawn. simpl. by rewrite fmap_app.
  - intros lk. reflexivity.
Qed.

Lemma cell_step_hoare {X} i j g (m : Py world X) E xs sz :
  cell_step i j g m →
  hoare (figure_is E xs sz) m (on_return (figure_is (upd i j g E) xs sz)).
Proof. intros Hm. apply Hm. Qed.

Lemma figure_is_label_loop data_to_plot E xs sz :
  hoare (figure_is E xs sz) (over_axes (label_cell data_to_plot))
        (on_return (figure_is (labelled E) xs sz)).
Proof.
  intros w Hw. pose proof Hw as (Hs & _). unfold over_axes. rewrite Hs.
  refine (hoare_for_each_fold (λ E, figure_is E xs sz)
            (λ i E, foldl (λ E j, upd i j (label_look i j) E) E (seq 0 4))
            _ (seq 0 4) E _ w Hw).
  intros i E'.
  apply (hoare_for_each_fold (λ E, figure_is E xs sz)
           (λ j E, upd i j (label_look i j) E)).
  intros j E''. apply cell_step_hoare, cell_step_label_cell.
Qed.

Lemma figure_is_plot_marker i j x y color E xs sz :
  hoare (figure_is E xs sz) (plot_marker i j x y color)
        (on_return (figure_is (upd i j (add_drawn (DMarker color)) E) xs sz)).
Proof.
  apply cell_step_hoare, cell_step_on_axes.
  intros a. unfold look_of, add_drawn. simpl. by rewrite fmap_app.
Qed.

Lemma figure_is_reference_markers compliant E xs sz :
  hoare (figure_is E xs sz) (reference_markers compliant)
        (on_return (figure_is (with_markers E) xs sz)).
Proof.
  unfold reference_markers, with_markers.
  do 11 (eapply hoare_bind_return; [apply figure_is_plot_marker|intros _]).
  apply figure_is_plot_marker.
Qed.

Lemma figure_is_keep {X} (m : Py world X) E xs sz :
  (∀ w, w_fig (m w).1 = w_fig w) →
  hoare (figure_is E xs sz) m (on_return (figure_is E xs sz)).
Proof.
  intros Hm w Hw. specialize (Hm w).
  destruct (m w) as [w' [x|e]]; simpl in *; [|done].
  unfold figure_is. by rewrite Hm.
Qed.

Lemma figure_is_set_size_inches width height E xs sz :
  hoare (figure_is E xs sz) (fig_op (set_size_inches width height))
        (on_return (figure_is E xs (width, height))).
Proof. by intros w (Hs & Hx & Hz & Hl). Qed.

Lemma matrix_returns data :
  (scatter_matrix data ["Unit Cell"; "E1"; "E2"; "G12"; "Nu12"] (subplots 4 4)).2
  = Ok ().
Proof. vm_compute. reflexivity. Qed.

Lemma matrix_shape data :
  fig_shape
    (scatter_matrix data ["Unit Cell"; "E1"; "E2"; "G12"; "Nu12"] (subplots 4 4)).1
  = (4, 4).
Proof. vm_compute. reflexivity. Qed.

Lemma hoare_heap_op {X} (P : heap → Prop) (m : Py heap X) Q :
  hoare P m Q →
  hoare (λ w, P (w_heap w)) (heap_op m) (λ r w, Q r (w_heap w)).
Proof.
  intros Hm w Hw. specialize (Hm _ Hw). unfold heap_op.
  by destruct (m (w_heap w)) as [h r].
Qed.

Lemma script_until_break_figure env :
  hoare (λ _, True) (script_until_break env)
    (returns (λ plotting_data_frame,
       figure_is
         (with_markers
            (labelled
               (matrix_looks plotting_data_frame
                  ["Unit Cell"; "E1"; "E2"; "G12"; "Nu12"])))
         (fig_xscale
            (scatter_matrix plotting_data_frame
               ["Unit Cell"; "E1"; "E2"; "G12"; "Nu12"] (subplots 4 4)).1)
         (10, 6))).
Proof.
  set (names := ["Unit Cell"; "E1"; "E2"; "G12"; "Nu12"]).
  unfold script_until_break.
  apply hoare_bind_last; [intros _|done].
  apply hoare_bind_last; [intros merged|done].
  apply hoare_bind_last; [intros merged_data|done].
  eapply hoare_bind;
    [apply (hoare_heap_op (λ _, True)), prepare_frames_columns|
     intros [data_to_plot p]; cbv zeta; cbn [fst snd]|done].
  apply hoare_lift_then; [intros compliant _|done].
  eapply (hoare_bind _ _ _
            (on_return (λ w, has_columns names p (w_heap w)
                             ∧ w_fig w = subplots 4 4)));
    [|intros ?; cbv beta|done].
  { intros w Hw. split; [by apply (Hw data_to_plot p)|done]. }
  eapply (hoare_bind _ _ _
            (returns (λ pdf w, columns pdf = names ∧ w_fig w = subplots 4 4)));
    [|intros pdf|done].
  { intros w [(f & Hf & Hc) Hfig]. unfold heap_op, frame_of.
    rewrite Hf. by simpl. }
  apply (hoare_assume _ (columns pdf = names));
    [by intros w [Hc _]|intros Hpdf; rewrite Hpdf].
  set (F := (scatter_matrix p names (subplots 4 4)).1).
  eapply (hoare_bind _ _ _
            (on_return (figure_is (matrix_looks p names) (fig_xscale F)
                                  (fig_size F))));
    [|intros ?; cbv beta|done].
  { intros w [_ Hfig]. unfold fig_op. rewrite Hfig.
    pose proof (matrix_returns p) as Hr. pose proof (matrix_shape p) as Hs.
    fold names in Hr, Hs. unfold matrix_looks, F.
    destruct (scatter_matrix p names (subplots 4 4)) as [F' r].
    simpl in Hr, Hs. rewrite Hr. simpl. by repeat split. }
  eapply hoare_bind; [apply figure_is_label_loop|intros ?; cbv beta|done].
  eapply hoare_bind; [apply figure_is_reference_markers|intros ?; cbv beta|done].
  eapply hoare_bind; [apply figure_is_set_size_inches|intros ?; cbv beta|done].
  eapply hoare_bind; [by apply figure_is_keep|intros ?; cbv beta|done].
  eapply hoare_bind; [by apply figure_is_keep|intros ?; cbv beta|done].
  eapply hoare_bind; [by apply figure_is_keep|intros ?; cbv beta|done].
  eapply hoare_bind; [apply figure_is_keep|intros ?; cbv beta|done].
  { intros w. unfold savefig. by destruct (env_savefig _ _). }
  by apply hoare_ret.
Qed.

(** X19. When the script reaches line 400, the figure is a 4 by 4 grid of
    10 by 6 inches whose x axes are logarithmic in the first three columns
    and linear in the last, and every axes of it looks as [final_look]
    says: the upper triangle is hidden, the diagonal holds the density of
    its own column, every axes below holds the scatter of its column
    against its row followed by the star and its two reference markers;
    only the last row shows its x axis and only the first column, the
    first row apart, its y axis. *)
Theorem figure_at_line_400 env w w' plotting_data_frame :
  script_until_break env w = (w', Ok plotting_data_frame) →
  fig_shape (w_fig w') = (4, 4)
  ∧ fig_size (w_fig w') = (10, 6)
  ∧ (∀ j, (j < 4)%nat →
       fig_xscale (w_fig w') j = if bool_decide (j < 3)%nat then Log else Linear)
  ∧ ∀ i j, (i < 4)%nat → (j < 4)%nat →
      look_of (fig_axes (w_fig w') i j) = final_look i j.
Proof.
  intros Hrun. pose proof (script_until_break_figure env w I) as H.
  rewrite Hrun in H. cbv beta iota delta [returns fst snd] in H.
  destruct H as (Hs & Hx & Hz & Hl).
  split; [done|]. split; [done|]. split.
  - intros j Hj. rewrite Hx.
    do 4 (destruct j as [|j]; [vm_compute; reflexivity|]). lia.
  - intros i j Hi Hj. rewrite Hl.
    do 4 (destruct i as [|i];
          [do 4 (destruct j as [|j]; [vm_compute; reflexivity|]); lia|]).
    lia.
Qed.

Lemma figure_at_line_400_witness :
  ∃ w' plotting_data_frame,
    script_until_break sample_env world0 = (w', Ok plotting_data_frame)
    ∧ fig_shape (w_fig w') = (4, 4)
    ∧ fig_size (w_fig w') = (10, 6)
    ∧ (∀ j, (j < 4)%nat →
         fig_xscale (w_fig w') j
         = if bool_decide (j < 3)%nat then Log else Linear)
    ∧ ∀ i j, (i < 4)%nat → (j < 4)%nat →
        look_of (fig_axes (w_fig w') i j) = final_look i j.
Proof.
  destruct (script_until_break sample_env world0)
    as [w' [plotting_data_frame|e]] eqn:Hrun.
  - exists w', plotting_data_frame. split; [reflexivity|].
    exact (figure_at_line_400 sample_env world0 w' plotting_data_frame Hrun).
  - vm_compute in Hrun. discriminate.
Defined.
